(** * DFU programming engine of the LPC18xx/43xx DFUSec utility

    A shallow embedding of the firmware-update engine:
    - the region registry and its root dispatcher (dfuutil_programming_api.h
      and the "root devices" file),
    - the internal FLASH and internal EEPROM programming algorithms,
    - the USB DFU callbacks [dfu_wr] / [dfu_rd], the background loop
      [dfu_util_process] and the debug message queue
      (dfuutil_programming_dfu_ops.c).

    C integers are modelled as [Z] with the wrap-around written out
    ([u32], [s32]); C arrays as lists indexed by [Z]; the function-pointer
    table of a region as a tag [ALGO] resolved through a table. *)

From Stdlib Require Import String Ascii.
From Stdlib Require Import ZArith List Bool Lia.
Import ListNotations.
Local Open Scope Z_scope.

(** ** Machine integers *)

(** [uint32_t] arithmetic wraps modulo 2^32. *)
Definition u32 (x : Z) : Z := x mod 4294967296.

(** Conversion of a 32-bit pattern to [int32_t] / [int]. *)
Definition s32 (x : Z) : Z :=
  let y := u32 x in if y <? 2147483648 then y else y - 4294967296.

(** Little-endian bytes of a 32-bit word, as [memmove] of 4 bytes copies it. *)
Definition le32 (x : Z) : list Z :=
  let y := u32 x in
  [y mod 256; (y / 256) mod 256; (y / 65536) mod 256; (y / 16777216) mod 256].

(** ** C arrays as lists *)

(** [arr[i]] for a [Z] index; [dflt] stands for whatever lies outside. *)
Definition znth {A} (l : list A) (i : Z) (dflt : A) : A :=
  if i <? 0 then dflt else nth (Z.to_nat i) l dflt.

Fixpoint upd_nat {A} (l : list A) (n : nat) (v : A) : list A :=
  match l, n with
  | [], _ => []
  | _ :: t, O => v :: t
  | h :: t, S n' => h :: upd_nat t n' v
  end.

(** [arr[i] = v]; a store outside the array is dropped by the model. *)
Definition zupd {A} (l : list A) (i : Z) (v : A) : list A :=
  if i <? 0 then l else upd_nat l (Z.to_nat i) v.

(** [memmove(dst, src, n)] into the start of a buffer held as a list. *)
Definition buf_store (dst src : list Z) (n : Z) : list Z :=
  let k := Z.to_nat n in
  firstn k src ++ skipn (length (firstn k src)) dst.

(** [memmove(dst + off, src, n)] *)
Definition buf_store_at (dst : list Z) (off : Z) (src : list Z) (n : Z)
  : list Z :=
  firstn (Z.to_nat off) dst ++ firstn (Z.to_nat n) src
  ++ skipn (Z.to_nat (off + n)) dst.

(** Characters of a C string literal.  The literals of this file are
    written as in the C source, so a backslash followed by [n] or [r] stands
    for the one character the C compiler puts there. *)
Fixpoint bytes_of_string (s : string) : list Z :=
  match s with
  | EmptyString => []
  | String c s' =>
      match s' with
      | String c' s'' =>
          if Ascii.eqb c "092" then
            if Ascii.eqb c' "n" then 10 :: bytes_of_string s''
            else if Ascii.eqb c' "r" then 13 :: bytes_of_string s''
            else Z.of_N (N_of_ascii c) :: bytes_of_string s'
          else Z.of_N (N_of_ascii c) :: bytes_of_string s'
      | EmptyString => [Z.of_N (N_of_ascii c)]
      end
  end.

(** ** dfuutil_programming_api.h *)

(** The four function tables ([static const PROGALGOS_T palgos] of each
    programming algorithm file) a region can point to. *)
Inductive ALGO : Type :=
| ALGO_SPIFLASH
| ALGO_INTFLASH
| ALGO_INTIRAM
| ALGO_INTEEPROM.

Definition MAXREGIONS : Z := 12.

(** [DFUPROG_REGION_T].  The last field is [buffer_size] in the header; it is
    called [region_buffer_size] here because dfu_ops.c has a static variable
    [buffer_size] as well. *)
Record DFUPROG_REGION_T : Type := mkRegion {
  region_addr : Z;
  region_size : Z;
  regname : string;
  pprogalgos : ALGO;
  region_buffer_size : Z
}.

(** [DFUPROG_REGIONLIST_T] (the [ver] field is never read or written). *)
Record DFUPROG_REGIONLIST_T : Type := mkRegionList {
  num_regions : Z;
  regionList : list DFUPROG_REGION_T
}.

(** [DFU_HOSTCMD_T] *)
Definition DFU_HOSTCMD_READIDS : Z := 0.
Definition DFU_HOSTCMD_SETDEBUG : Z := 1.
Definition DFU_HOSTCMD_PROGOTP : Z := 2.
Definition DFU_HOSTCMD_READOTP : Z := 3.
Definition DFU_HOSTCMD_STARTNEWSESS : Z := 4.
Definition DFU_HOSTCMD_STARTENCSESS : Z := 5.
Definition DFU_HOSTCMD_ERASE_ALL : Z := 6.
Definition DFU_HOSTCMD_ERASE_REGION : Z := 7.
Definition DFU_HOSTCMD_PROGRAM : Z := 8.
Definition DFU_HOSTCMD_READBACK : Z := 9.
Definition DFU_HOSTCMD_RESET : Z := 10.
Definition DFU_HOSTCMD_EXECUTE : Z := 11.

(** [DFU_FROMHOST_PACKETHDR_T] *)
Record DFU_FROMHOST_PACKETHDR_T : Type := mkHdr {
  hdr_hostCmd : Z;
  hdr_addr : Z;
  hdr_size : Z;
  hdr_magic : Z
}.

Definition DFUPROG_VALIDVAL : Z := Z.lor 407044096 267.  (* 0x18430000 | 0x010B *)

(** [DFU_OPSTS_T] *)
Inductive DFU_OPSTS_T : Type :=
| DFU_OPSTS_IDLE
| DFU_OPSTS_ERRER
| DFU_OPSTS_PROGER
| DFU_OPSTS_READER
| DFU_OPSTS_ERRUN
| DFU_OPSTS_VERERR
| DFU_OPSTS_READBUSY
| DFU_OPSTS_READTRIG
| DFU_OPSTS_READREADY
| DFU_OPSTS_ERASE_ALL_ST
| DFU_OPSTS_ERASE_ST
| DFU_OPSTS_ERASE
| DFU_OPSTS_PROG
| DFU_OPSTS_PROG_RSVD
| DFU_OPSTS_PROG_STREAM
| DFU_OPSTS_RESET
| DFU_OPSTS_EXEC
| DFU_OPSTS_LOOP.

(** The enumerator values, as they go into a status packet. *)
Definition opsts_code (s : DFU_OPSTS_T) : Z :=
  match s with
  | DFU_OPSTS_IDLE => 0 | DFU_OPSTS_ERRER => 1 | DFU_OPSTS_PROGER => 2
  | DFU_OPSTS_READER => 3 | DFU_OPSTS_ERRUN => 4 | DFU_OPSTS_VERERR => 5
  | DFU_OPSTS_READBUSY => 6 | DFU_OPSTS_READTRIG => 7
  | DFU_OPSTS_READREADY => 8 | DFU_OPSTS_ERASE_ALL_ST => 9
  | DFU_OPSTS_ERASE_ST => 10 | DFU_OPSTS_ERASE => 11 | DFU_OPSTS_PROG => 12
  | DFU_OPSTS_PROG_RSVD => 13 | DFU_OPSTS_PROG_STREAM => 14
  | DFU_OPSTS_RESET => 15 | DFU_OPSTS_EXEC => 16 | DFU_OPSTS_LOOP => 17
  end.

(** ** The device: everything a programming algorithm can touch

    - [dfuRegionList]: the global of the root file;
    - [usbBuff], [usbStrIn], [usbStrOut], [verifyDebug]: the debug message
      queue of dfu_ops.c, reached from every file through [usbDebug];
    - [mem]: the memory-mapped contents of the device, one byte per address;
    - [iap_log]: the IAP commands handed to the boot ROM, latest first. *)
Record Dev : Type := mkDev {
  dfuRegionList : DFUPROG_REGIONLIST_T;
  usbBuff : list Z;
  usbStrIn : Z;
  usbStrOut : Z;
  verifyDebug : bool;
  mem : Z -> Z;
  iap_log : list (list Z)
}.

Definition set_queue (d : Dev) (b : list Z) (i o : Z) : Dev :=
  mkDev (dfuRegionList d) b i o (verifyDebug d) (mem d) (iap_log d).

Definition set_verifyDebug (d : Dev) (v : bool) : Dev :=
  mkDev (dfuRegionList d) (usbBuff d) (usbStrIn d) (usbStrOut d) v
        (mem d) (iap_log d).

Definition set_mem (d : Dev) (m : Z -> Z) : Dev :=
  mkDev (dfuRegionList d) (usbBuff d) (usbStrIn d) (usbStrOut d)
        (verifyDebug d) m (iap_log d).

Definition log_iap (d : Dev) (c : list Z) : Dev :=
  mkDev (dfuRegionList d) (usbBuff d) (usbStrIn d) (usbStrOut d)
        (verifyDebug d) (mem d) (c :: iap_log d).

(** A computation on the device. *)
Definition M (A : Type) : Type := Dev -> A * Dev.

Definition ret {A} (a : A) : M A := fun d => (a, d).

Definition bind {A B} (m : M A) (k : A -> M B) : M B :=
  fun d => let (a, d') := m d in k a d'.

Notation "x <- m ;; k" := (bind m (fun x => k))
  (at level 61, m at next level, right associativity).
Notation "m ;;; k" := (bind m (fun _ => k))
  (at level 61, right associativity).

(** [PROGALGOS_T], without [init], which is called by name at start-up and
    never through the table.  A buffer argument comes back with the result,
    since [write] pads it and [read] fills it. *)
Record PROGALGOS_T : Type := mkAlgos {
  erase_region : Z -> Z -> M Z;
  erase_all : Z -> Z -> M Z;
  write : list Z -> Z -> Z -> M (Z * list Z);
  read : list Z -> Z -> Z -> M (Z * list Z);
  close : Z -> M unit
}.

(** ** Memory-mapped reads and writes *)

(** [memmove(buff, (void * ) start, size)] *)
Definition mem_read (m : Z -> Z) (start size : Z) : list Z :=
  map (fun i => m (start + Z.of_nat i)) (seq 0 (Z.to_nat size)).

(** [memmove((void * ) start, buff, size)] *)
Definition mem_write (m : Z -> Z) (start : Z) (data : list Z) (size : Z)
  : Z -> Z :=
  fun a => if (start <=? a) && (a <? start + size)
           then znth data (a - start) 0 else m a.

(** A 32-bit store at [a], little endian. *)
Definition mem_store32 (m : Z -> Z) (a : Z) (v : Z) : Z -> Z :=
  mem_write m a (le32 v) 4.

(** ** The debug message queue (dfu_ops.c) *)

Definition USBMSGBUFFSIZE : Z := 2048.

Definition usbDebugSetup (d : Dev) : Dev := set_queue d (usbBuff d) 0 0.

(** The [while ( *tmp != 0)] loop of [usbDebug]; the list ends where the C
    string has its terminator. *)
Fixpoint usbDebug_loop (tmp : list Z) (buf : list Z) (strIn : Z)
  : list Z * Z :=
  match tmp with
  | [] => (buf, strIn)
  | c :: tmp' =>
      if c =? 0 then (buf, strIn)
      else
        let buf' := zupd buf strIn c in
        let strIn1 := strIn + 1 in
        let strIn2 := if strIn1 >=? USBMSGBUFFSIZE then 0 else strIn1 in
        usbDebug_loop tmp' buf' strIn2
  end.

Definition usbDebug (tmp : list Z) : M unit :=
  fun d =>
    if verifyDebug d then
      let (b, i) := usbDebug_loop tmp (usbBuff d) (usbStrIn d) in
      (tt, set_queue d b i (usbStrOut d))
    else (tt, d).

(** [usbDebugFill(buff, max)]: the count and the bytes copied to [buff]. *)
Definition usbDebugFill (max : Z) : M (Z * list Z) :=
  fun d =>
    if negb (usbStrIn d =? usbStrOut d) then
      let ssize0 :=
        if usbStrOut d >? usbStrIn d then USBMSGBUFFSIZE - usbStrOut d
        else usbStrIn d - usbStrOut d in
      let ssize := if ssize0 >? max then max else ssize0 in
      let data := firstn (Z.to_nat ssize)
                         (skipn (Z.to_nat (usbStrOut d)) (usbBuff d)) in
      let out1 := usbStrOut d + ssize in
      let out2 := if out1 >=? USBMSGBUFFSIZE then 0 else out1 in
      ((ssize, data), set_queue d (usbBuff d) (usbStrIn d) out2)
    else ((0, []), d).

(** ** The session: the static variables of dfu_ops.c *)

(** The buffer a [uint8_t *] of the USB ROM driver points into. *)
Inductive BUFID : Type :=
| BUF_dfuIn
| BUF_dfuProgBuff
| BUF_rom.

(** [*pBuff]: a buffer and an offset into it. *)
Record PBuff : Type := mkPBuff {
  pb_base : BUFID;
  pb_off : Z
}.

Definition pb_add (p : PBuff) (n : Z) : PBuff :=
  mkPBuff (pb_base p) (pb_off p + n).

(** [currRegionData] is a pointer into [dfuRegionList.regionList]; it is held
    as the index it points at, [None] while it is still the null pointer. *)
Record Session : Type := mkSession {
  currentRegion : Z;
  buffer_size : Z;
  currRegionData : option Z;
  currStatus : DFU_OPSTS_T;
  hostCmd : Z;
  currCmdAddr : Z;
  currCmdSize : Z;
  dfuOut : list Z;
  dfuProgBuff : list Z;
  inPktSize : Z;
  inPktSizeIdx : Z;
  outPktSizeIdx : Z;
  progSize : Z;
  dfu_done_algo : Z;
  dfu_detach_algo : Z
}.

Definition set_region (s : Session) (r bs : Z) (p : option Z) : Session :=
  mkSession r bs p (currStatus s) (hostCmd s) (currCmdAddr s)
    (currCmdSize s) (dfuOut s) (dfuProgBuff s) (inPktSize s) (inPktSizeIdx s)
    (outPktSizeIdx s) (progSize s) (dfu_done_algo s) (dfu_detach_algo s).

Definition set_currStatus (s : Session) (v : DFU_OPSTS_T) : Session :=
  mkSession (currentRegion s) (buffer_size s) (currRegionData s) v
    (hostCmd s) (currCmdAddr s) (currCmdSize s) (dfuOut s) (dfuProgBuff s)
    (inPktSize s) (inPktSizeIdx s) (outPktSizeIdx s) (progSize s)
    (dfu_done_algo s) (dfu_detach_algo s).

Definition set_hostCmd (s : Session) (v : Z) : Session :=
  mkSession (currentRegion s) (buffer_size s) (currRegionData s)
    (currStatus s) v (currCmdAddr s) (currCmdSize s) (dfuOut s)
    (dfuProgBuff s) (inPktSize s) (inPktSizeIdx s) (outPktSizeIdx s)
    (progSize s) (dfu_done_algo s) (dfu_detach_algo s).

Definition set_currCmdAddr (s : Session) (v : Z) : Session :=
  mkSession (currentRegion s) (buffer_size s) (currRegionData s)
    (currStatus s) (hostCmd s) v (currCmdSize s) (dfuOut s)
    (dfuProgBuff s) (inPktSize s) (inPktSizeIdx s) (outPktSizeIdx s)
    (progSize s) (dfu_done_algo s) (dfu_detach_algo s).

Definition set_currCmdSize (s : Session) (v : Z) : Session :=
  mkSession (currentRegion s) (buffer_size s) (currRegionData s)
    (currStatus s) (hostCmd s) (currCmdAddr s) v (dfuOut s)
    (dfuProgBuff s) (inPktSize s) (inPktSizeIdx s) (outPktSizeIdx s)
    (progSize s) (dfu_done_algo s) (dfu_detach_algo s).

Definition set_dfuOut (s : Session) (v : list Z) : Session :=
  mkSession (currentRegion s) (buffer_size s) (currRegionData s)
    (currStatus s) (hostCmd s) (currCmdAddr s) (currCmdSize s) v
    (dfuProgBuff s) (inPktSize s) (inPktSizeIdx s) (outPktSizeIdx s)
    (progSize s) (dfu_done_algo s) (dfu_detach_algo s).

Definition set_dfuProgBuff (s : Session) (v : list Z) : Session :=
  mkSession (currentRegion s) (buffer_size s) (currRegionData s)
    (currStatus s) (hostCmd s) (currCmdAddr s) (currCmdSize s) (dfuOut s)
    v (inPktSize s) (inPktSizeIdx s) (outPktSizeIdx s)
    (progSize s) (dfu_done_algo s) (dfu_detach_algo s).

Definition set_inPktSize (s : Session) (v : Z) : Session :=
  mkSession (currentRegion s) (buffer_size s) (currRegionData s)
    (currStatus s) (hostCmd s) (currCmdAddr s) (currCmdSize s) (dfuOut s)
    (dfuProgBuff s) v (inPktSizeIdx s) (outPktSizeIdx s)
    (progSize s) (dfu_done_algo s) (dfu_detach_algo s).

Definition set_inPktSizeIdx (s : Session) (v : Z) : Session :=
  mkSession (currentRegion s) (buffer_size s) (currRegionData s)
    (currStatus s) (hostCmd s) (currCmdAddr s) (currCmdSize s) (dfuOut s)
    (dfuProgBuff s) (inPktSize s) v (outPktSizeIdx s)
    (progSize s) (dfu_done_algo s) (dfu_detach_algo s).

Definition set_outPktSizeIdx (s : Session) (v : Z) : Session :=
  mkSession (currentRegion s) (buffer_size s) (currRegionData s)
    (currStatus s) (hostCmd s) (currCmdAddr s) (currCmdSize s) (dfuOut s)
    (dfuProgBuff s) (inPktSize s) (inPktSizeIdx s) v
    (progSize s) (dfu_done_algo s) (dfu_detach_algo s).

Definition set_progSize (s : Session) (v : Z) : Session :=
  mkSession (currentRegion s) (buffer_size s) (currRegionData s)
    (currStatus s) (hostCmd s) (currCmdAddr s) (currCmdSize s) (dfuOut s)
    (dfuProgBuff s) (inPktSize s) (inPktSizeIdx s) (outPktSizeIdx s)
    v (dfu_done_algo s) (dfu_detach_algo s).

Definition set_dfu_done_algo (s : Session) (v : Z) : Session :=
  mkSession (currentRegion s) (buffer_size s) (currRegionData s)
    (currStatus s) (hostCmd s) (currCmdAddr s) (currCmdSize s) (dfuOut s)
    (dfuProgBuff s) (inPktSize s) (inPktSizeIdx s) (outPktSizeIdx s)
    (progSize s) v (dfu_detach_algo s).

Definition set_dfu_detach_algo (s : Session) (v : Z) : Session :=
  mkSession (currentRegion s) (buffer_size s) (currRegionData s)
    (currStatus s) (hostCmd s) (currCmdAddr s) (currCmdSize s) (dfuOut s)
    (dfuProgBuff s) (inPktSize s) (inPktSizeIdx s) (outPktSizeIdx s)
    (progSize s) (dfu_done_algo s) v.

(** What one pass of the background loop leaves behind: the loop goes on, or
    the device resets, jumps to an address, or hangs. *)
Inductive Outcome : Type :=
| Continue (s : Session) (d : Dev)
| SysReset (d : Dev)
| Execute (pfunc : Z) (d : Dev)
| DeadLoop (d : Dev).

(** A slot of [dfuRegionList.regionList] that was never filled: the global
    is zero-initialised. *)
Definition zero_region : DFUPROG_REGION_T :=
  mkRegion 0 0 EmptyString ALGO_SPIFLASH 0.

Definition region_at (rl : DFUPROG_REGIONLIST_T) (i : Z) : DFUPROG_REGION_T :=
  znth (regionList rl) i zero_region.

(** ** Tables of the internal FLASH algorithm *)

Definition intflash_sectorinfo : list (Z * Z) :=
  [ (0, 8192); (8192, 8192); (16384, 8192); (24576, 8192);
    (32768, 8192); (40960, 8192); (49152, 8192); (57344, 8192);
    (65536, 65536); (131072, 65536); (196608, 65536); (262144, 65536);
    (327680, 65536); (393216, 65536); (458752, 65536);
    (4294967295, 4294967295) ].

Definition PAGE_SIZE : Z := 512.

Definition intflash_PROGRAM_REGIONS : Z := 2.

Definition intflash_pregions : list DFUPROG_REGION_T :=
  [ mkRegion 436207616 524288 "FLASH bank A" ALGO_INTFLASH 512;   (* 0x1A000000 *)
    mkRegion 452984832 524288 "FLASH bank B" ALGO_INTFLASH 512 ]. (* 0x1B000000 *)

Definition IAP_INIT : Z := 49.
Definition IAP_PREP_SECS : Z := 50.
Definition IAP_RAM_TO_FLASH : Z := 51.
Definition IAP_ERASE_SECS : Z := 52.
Definition IAP_BLANK_CHECK_SECS : Z := 53.
Definition IAP_COMPARE : Z := 56.

(** ** The firmware, over what the sources leave to the platform *)

Section Firmware.

(** [sprintf] of the C library: a format and its arguments to characters.
    The formats are written as in the C source, escapes included; what
    stands for [sprintf] decodes them, as [bytes_of_string] does. *)
Variable sprintf : string -> list Z -> list Z.

(** [iap_entry] of the boot ROM: the command words, the RAM buffer a command
    points to (empty when it has none) and the memory give [result[0]] and
    the memory afterwards. *)
Variable iap_rom : list Z -> list Z -> (Z -> Z) -> Z * (Z -> Z).

(** Constants of the chip library headers. *)
Variable IAP_CMD_SUCCESS : Z.
Variable SystemCoreClock : Z.
Variable EEPROM_PAGE_SIZE : Z.
Variable EEPROM_ADDRESS : Z -> Z -> Z.

(** What a read of [pregions[bank]] past the two FLASH banks finds. *)
Variable intflash_pregions_oob : DFUPROG_REGION_T.

(** What [currRegionData->region_addr] reads through the null pointer. *)
Variable null_region_addr : Z.

(** The address of [dfuProgBuff], as [(uint32_t) buff] hands it to the ROM. *)
Variable dfuProgBuff_addr : Z.

(** The function table behind each [pprogalgos] pointer. *)
Variable palgos_of : ALGO -> PROGALGOS_T.

(** [DFUDEBUG(...)]: format into a local buffer and queue it. *)
Definition DFUDEBUG (fmt : string) (args : list Z) : M unit :=
  usbDebug (sprintf fmt args).

(** *** Root devices *)

(** The [while] loop of [algo_root_isRegionValid], on [validIndex] and
    [regIndex]. *)
Fixpoint isRegionValid_loop (fuel : nat) (rl : DFUPROG_REGIONLIST_T)
    (addr size validIndex regIndex : Z) : Z :=
  match fuel with
  | O => validIndex
  | S fuel' =>
      if regIndex <? num_regions rl then
        let regAddr := region_addr (region_at rl regIndex) in
        if (addr >=? regAddr)
           && (u32 (addr + size)
               <=? u32 (regAddr + region_size (region_at rl regIndex)))
        then
          (* validIndex = regIndex; regIndex = num_regions; regIndex++ *)
          isRegionValid_loop fuel' rl addr size regIndex (num_regions rl + 1)
        else isRegionValid_loop fuel' rl addr size validIndex (regIndex + 1)
      else validIndex
  end.

Definition algo_root_isRegionValid (addr size : Z) : M Z :=
  fun d =>
    let rl := dfuRegionList d in
    let validIndex :=
      isRegionValid_loop (S (S (Z.to_nat (num_regions rl)))) rl addr size
                         (-1) 0 in
    if validIndex <? 0 then
      (DFUDEBUG "Op on invalid region address/size: %p/%p %d\n"
                [addr; size; validIndex] ;;; ret validIndex) d
    else (validIndex, d).

Definition algo_root_erase_region (addr size : Z) : M Z :=
  regIndex <- algo_root_isRegionValid addr size ;;
  if regIndex <? 0 then
    DFUDEBUG "erase_region invalid: %p:%p\n" [addr; size] ;;; ret 0
  else
    fun d =>
      erase_region (palgos_of (pprogalgos (region_at (dfuRegionList d) regIndex)))
                   addr size d.

Definition algo_root_erase_all (addr : Z) : M Z :=
  regIndex <- algo_root_isRegionValid addr 0 ;;
  if regIndex <? 0 then
    DFUDEBUG "eraseall_region invalid: %p %d\n" [addr; regIndex] ;;; ret 0
  else
    fun d =>
      let r := region_at (dfuRegionList d) regIndex in
      erase_all (palgos_of (pprogalgos r)) (region_addr r) (region_size r) d.

Definition algo_root_write (buff : list Z) (addr size : Z) : M (Z * list Z) :=
  regIndex <- algo_root_isRegionValid addr size ;;
  if regIndex <? 0 then
    DFUDEBUG "write_region invalid: %p:%p\n" [addr; size] ;;; ret (0, buff)
  else
    fun d =>
      write (palgos_of (pprogalgos (region_at (dfuRegionList d) regIndex)))
            buff addr size d.

Definition algo_root_read (buff : list Z) (addr size : Z) : M (Z * list Z) :=
  regIndex <- algo_root_isRegionValid addr size ;;
  if regIndex <? 0 then
    DFUDEBUG "read_region invalid: %p:%p\n" [addr; size] ;;; ret (0, buff)
  else
    fun d =>
      read (palgos_of (pprogalgos (region_at (dfuRegionList d) regIndex)))
           buff addr size d.

Definition algo_root_close (addr : Z) : M bool :=
  regIndex <- algo_root_isRegionValid addr 0 ;;
  if regIndex <? 0 then
    DFUDEBUG "close_region invalid: %p\n" [addr] ;;; ret false
  else
    (fun d =>
       close (palgos_of (pprogalgos (region_at (dfuRegionList d) regIndex)))
             addr d) ;;; ret true.

(** *** Internal FLASH *)

(** [iap_entry(command, result)], giving [result[0]]. *)
Definition iap_entry (command ram : list Z) : M Z :=
  fun d =>
    let (r, m') := iap_rom command ram (mem d) in
    (r, log_iap (set_mem d m') command).

Definition CPUCLOCKFRQINKHZ : Z := SystemCoreClock / 1000.

Definition intflash_pregion (bank : Z) : DFUPROG_REGION_T :=
  znth intflash_pregions bank intflash_pregions_oob.

(** The [for] loop of [progalgo_iflash_findbank]. *)
Fixpoint findbank_loop (fuel : nat) (addr bank : Z) : Z :=
  match fuel with
  | O => bank
  | S fuel' =>
      if bank <? intflash_PROGRAM_REGIONS then
        if (addr >=? region_addr (intflash_pregion bank))
           && (addr <? u32 (region_addr (intflash_pregion bank)
                            + region_size (intflash_pregion bank)))
        then bank
        else findbank_loop fuel' addr (bank + 1)
      else bank
  end.

Definition progalgo_iflash_findbank (addr : Z) : M Z :=
  _ <- algo_root_isRegionValid addr 0 ;;
  ret (findbank_loop 3 addr 0).

Definition progalgo_iflash_progaddrvalid (addr size : Z) : M Z :=
  bank <- progalgo_iflash_findbank addr ;;
  if bank <? 0 then
    DFUDEBUG "FLASH: Address does not map to bank\n" [] ;;; ret 0
  else if negb (Z.land addr (PAGE_SIZE - 1) =? 0) then
    DFUDEBUG "FLASH: Address is not 512 byte aligned\n" [] ;;; ret 0
  else
    let sg := s32 (size / PAGE_SIZE) in
    if negb (size =? u32 (PAGE_SIZE * sg)) then
      DFUDEBUG "FLASH: Size must be a multiple of 512 bytes\n" [] ;;; ret 0
    else ret (s32 size).

Definition sector_offset (idx : Z) : Z :=
  fst (znth intflash_sectorinfo idx (0, 0)).

Definition sector_size (idx : Z) : Z :=
  snd (znth intflash_sectorinfo idx (0, 0)).

(** First [while] loop of [progalgo_iflash_find_sectorrange], on
    [idx], [*secstart] and [*aligned]. *)
Fixpoint find_secstart (fuel : nat) (addr addrbase idx secstart aligned : Z)
  : Z * Z * Z :=
  match fuel with
  | O => (idx, secstart, aligned)
  | S fuel' =>
      if (secstart =? 4294967295) && negb (idx =? -1) then
        if sector_offset idx =? 4294967295 then
          find_secstart fuel' addr addrbase (-1) secstart aligned
        else
          let regstart := u32 (addrbase + sector_offset idx) in
          let regend := u32 (regstart + sector_size idx - 1) in
          if (addr >=? regstart) && (addr <=? regend) then
            find_secstart fuel' addr addrbase idx idx
                          (if addr =? regstart then 1 else 0)
          else find_secstart fuel' addr addrbase (idx + 1) secstart aligned
      else (idx, secstart, aligned)
  end.

(** Second [while] loop, on [idx], [*secend] and [*aligned]. *)
Fixpoint find_secend (fuel : nat) (addrend addrbase idx secend aligned : Z)
  : Z * Z * Z :=
  match fuel with
  | O => (idx, secend, aligned)
  | S fuel' =>
      if (secend =? 4294967295) && negb (idx =? -1) then
        if sector_offset idx =? 4294967295 then
          find_secend fuel' addrend addrbase (-1) secend aligned
        else
          let regstart := u32 (addrbase + sector_offset idx) in
          let regend := u32 (regstart + sector_size idx - 1) in
          if (addrend >=? regstart) && (addrend <=? regend) then
            find_secend fuel' addrend addrbase idx idx
                        (if addrend =? regend then 1 else 0)
          else find_secend fuel' addrend addrbase (idx + 1) secend aligned
      else (idx, secend, aligned)
  end.

(** The out-parameters of [progalgo_iflash_find_sectorrange]. *)
Record SectorRange : Type := mkSectorRange {
  sr_ret : Z;
  sr_bank : Z;
  sr_secstart : Z;
  sr_secend : Z;
  sr_aligned : Z
}.

(** [*secend] is left as the caller had it when no first sector is found;
    the callers do not read it then, and the model gives 0. *)
Definition progalgo_iflash_find_sectorrange (addr size : Z) : M SectorRange :=
  bank <- progalgo_iflash_findbank addr ;;
  let addrbase := region_addr (intflash_pregion bank) in
  let addrend := u32 (addr + size - 1) in
  match find_secstart 17 addr addrbase 0 4294967295 0 with
  | (idx, secstart, aligned) =>
      if idx =? -1 then ret (mkSectorRange 0 bank secstart 0 aligned)
      else
        match find_secend 17 addrend addrbase idx 4294967295 aligned with
        | (idx', secend, aligned') =>
            if idx' =? -1 then
              ret (mkSectorRange 0 bank secstart secend aligned')
            else ret (mkSectorRange (s32 size) bank secstart secend aligned')
        end
  end.

Definition progalgo_iflash_prepwrite (bank secstart secend : Z) : M Z :=
  r <- iap_entry [IAP_PREP_SECS; secstart; secend; bank] [] ;;
  (if negb (r =? IAP_CMD_SUCCESS) then
     DFUDEBUG "FLASH: Error preparing sectors %d-%d (bank %d), error=%d\n"
              [secstart; secend; bank; r]
   else ret tt) ;;;
  ret r.

Definition progalgo_iflash_erasesectors (bank secstart secend : Z) : M Z :=
  r <- iap_entry [IAP_ERASE_SECS; secstart; secend; CPUCLOCKFRQINKHZ; bank] [] ;;
  (if negb (r =? IAP_CMD_SUCCESS) then
     DFUDEBUG "FLASH: Error erasing sectors %d-%d (bank %d)\n"
              [secstart; secend; bank]
   else ret tt) ;;;
  ret r.

Definition progalgo_intflash_erase_region (start size : Z) : M Z :=
  DFUDEBUG "FLASHERASE: %p with size %p\n" [start; size] ;;;
  v <- progalgo_iflash_progaddrvalid start size ;;
  if v =? 0 then
    DFUDEBUG "FLASHERASE: address/size validation failure\r\n" [] ;;; ret 0
  else
    sr <- progalgo_iflash_find_sectorrange start size ;;
    if sr_ret sr =? 0 then
      DFUDEBUG "FLASHERASE: sector range lookup failure\r\n" [] ;;; ret 0
    else if sr_aligned sr =? 0 then
      DFUDEBUG "FLASHERASE: Address range must be sector aligned\r\n" [] ;;;
      ret 0
    else
      DFUDEBUG "FLASHERASE: Bank %d, Start sec %d, End sec %d\n"
               [sr_bank sr; sr_secstart sr; sr_secend sr] ;;;
      p <- progalgo_iflash_prepwrite (u32 (sr_bank sr)) (sr_secstart sr)
                                     (sr_secend sr) ;;
      if negb (p =? IAP_CMD_SUCCESS) then ret 0
      else
        e <- progalgo_iflash_erasesectors (u32 (sr_bank sr)) (sr_secstart sr)
                                          (sr_secend sr) ;;
        if negb (e =? IAP_CMD_SUCCESS) then ret 0
        else
          b <- iap_entry [IAP_BLANK_CHECK_SECS; sr_secstart sr; sr_secend sr;
                          u32 (sr_bank sr)] [] ;;
          if negb (b =? IAP_CMD_SUCCESS) then
            DFUDEBUG "FLASHERASE: Error erasing sectors\r\n" [] ;;; ret 0
          else ret (s32 size).

Definition progalgo_intflash_erase_all (start size : Z) : M Z :=
  regIndex <- algo_root_isRegionValid start size ;;
  fun d =>
    let r := region_at (dfuRegionList d) regIndex in
    (sz <- progalgo_intflash_erase_region (region_addr r) (region_size r) ;;
     ret (s32 (u32 sz))) d.

(** [for (; wsize < limit; wsize++) fbuff[wsize] = 0xFF;] *)
Fixpoint pad_loop (fuel : nat) (fbuff : list Z) (wsize limit : Z)
  : Z * list Z :=
  match fuel with
  | O => (wsize, fbuff)
  | S fuel' =>
      if wsize <? limit then
        pad_loop fuel' (zupd fbuff wsize 255) (wsize + 1) limit
      else (wsize, fbuff)
  end.

Definition progalgo_intflash_write (buff : list Z) (start size : Z)
  : M (Z * list Z) :=
  DFUDEBUG "FLASHWRITE: %p with size %p\n" [start; size] ;;;
  if size >? PAGE_SIZE then
    DFUDEBUG "FLASHWRITE: Program buffer too big\r\n" [] ;;; ret (0, buff)
  else
    match (if size <? PAGE_SIZE
           then pad_loop (Z.to_nat PAGE_SIZE) buff size PAGE_SIZE
           else (size, buff)) with
    | (wsize, fbuff) =>
        (if size <? PAGE_SIZE then
           DFUDEBUG "FLASHWRITE: Last sector too small, padded %d bytes\n"
                    [u32 (wsize - size)]
         else ret tt) ;;;
        v <- progalgo_iflash_progaddrvalid start wsize ;;
        if v =? 0 then
          DFUDEBUG "FLASHWRITE: Input address/size is not valid\r\n" [] ;;;
          ret (0, fbuff)
        else
          sr <- progalgo_iflash_find_sectorrange start wsize ;;
          if sr_ret sr =? 0 then
            DFUDEBUG "FLASHWRITE: sector range lookup failure\r\n" [] ;;;
            ret (0, fbuff)
          else
            p <- progalgo_iflash_prepwrite (u32 (sr_bank sr)) (sr_secstart sr)
                                           (sr_secend sr) ;;
            if negb (p =? IAP_CMD_SUCCESS) then ret (0, fbuff)
            else
              w <- iap_entry [IAP_RAM_TO_FLASH; start; dfuProgBuff_addr;
                              PAGE_SIZE; CPUCLOCKFRQINKHZ]
                             (firstn (Z.to_nat PAGE_SIZE) fbuff) ;;
              if negb (w =? IAP_CMD_SUCCESS) then
                DFUDEBUG "FLASHWRITE: Error programming address range\r\n" [] ;;;
                ret (0, fbuff)
              else
                c <- iap_entry [IAP_COMPARE; start; dfuProgBuff_addr; PAGE_SIZE]
                               (firstn (Z.to_nat PAGE_SIZE) fbuff) ;;
                if negb (c =? IAP_CMD_SUCCESS) then
                  DFUDEBUG "FLASHWRITE: Verify error on program\r\n" [] ;;;
                  ret (0, fbuff)
                else ret (s32 size, fbuff)
    end.

Definition progalgo_intflash_read (buff : list Z) (start size : Z)
  : M (Z * list Z) :=
  DFUDEBUG "FLASHREAD @ 0x%p, %p bytes\n" [start; size] ;;;
  fun d => ((s32 size, buf_store buff (mem_read (mem d) start size) size), d).

Definition progalgo_intflash_close (start : Z) : M unit := ret tt.

Definition intflash_palgos : PROGALGOS_T :=
  mkAlgos progalgo_intflash_erase_region progalgo_intflash_erase_all
          progalgo_intflash_write progalgo_intflash_read
          progalgo_intflash_close.

(** *** Internal EEPROM *)

(** [for (i = 0; i < EEPROM_PAGE_SIZE / 4; i++) pEepromMem[i] = src(i);]
    with [pEepromMem] a [uint32_t *]: a word store per index. *)
Fixpoint eeprom_store_loop (fuel : nat) (src : Z -> Z) (pEepromMem i : Z)
    (m : Z -> Z) : Z -> Z :=
  match fuel with
  | O => m
  | S fuel' =>
      if i <? EEPROM_PAGE_SIZE / 4 then
        eeprom_store_loop fuel' src pEepromMem (i + 1)
                          (mem_store32 m (pEepromMem + 4 * i) (src i))
      else m
  end.

Definition progalgo_inteeprom_erase_region (start size : Z) : M Z :=
  DFUDEBUG "EEPROMERASE: %p with size %p\n" [start; size] ;;;
  regIndex <- algo_root_isRegionValid start size ;;
  fun d =>
    let pageAddr :=
      u32 (start - region_addr (region_at (dfuRegionList d) regIndex))
      / EEPROM_PAGE_SIZE in
    let pEepromMem := EEPROM_ADDRESS pageAddr 0 in
    (s32 size,
     set_mem d (eeprom_store_loop (Z.to_nat (EEPROM_PAGE_SIZE / 4))
                                  (fun _ => 0) pEepromMem 0 (mem d))).

Definition progalgo_inteeprom_write (buff : list Z) (start size : Z)
  : M (Z * list Z) :=
  DFUDEBUG "EEPROMWRITE: %p with size %p\n" [start; size] ;;;
  regIndex <- algo_root_isRegionValid start size ;;
  fun d =>
    let pageAddr :=
      u32 (start - region_addr (region_at (dfuRegionList d) regIndex))
      / EEPROM_PAGE_SIZE in
    let pEepromMem := EEPROM_ADDRESS pageAddr 0 in
    match (if size <? EEPROM_PAGE_SIZE
           then pad_loop (Z.to_nat EEPROM_PAGE_SIZE) buff size EEPROM_PAGE_SIZE
           else (size, buff)) with
    | (wsize, fbuff) =>
        ((if size <? EEPROM_PAGE_SIZE then
            DFUDEBUG "EEPROMWRITE: Last sector too small, padded %d bytes\n"
                     [u32 (wsize - size)]
          else ret tt) ;;;
         fun d1 =>
           ((s32 size, fbuff),
            set_mem d1 (eeprom_store_loop (Z.to_nat (EEPROM_PAGE_SIZE / 4))
                                          (fun i => znth fbuff i 0)
                                          pEepromMem 0 (mem d1)))) d
    end.

Definition progalgo_inteeprom_read (buff : list Z) (start size : Z)
  : M (Z * list Z) :=
  DFUDEBUG "EEPROMREAD @ 0x%p, %p bytes\n" [start; size] ;;;
  fun d => ((s32 size, buf_store buff (mem_read (mem d) start size) size), d).

Definition progalgo_inteeprom_close (start : Z) : M unit := ret tt.

Definition inteeprom_palgos : PROGALGOS_T :=
  mkAlgos progalgo_inteeprom_erase_region progalgo_inteeprom_erase_region
          progalgo_inteeprom_write progalgo_inteeprom_read
          progalgo_inteeprom_close.

(** *** Internal SRAM *)

(** [if (algo_root_isRegionValid(start, size))]: the index is used as a
    truth value. *)
Definition progalgo_intiram_erase_region (start size : Z) : M Z :=
  r <- algo_root_isRegionValid start size ;;
  if negb (r =? 0) then
    DFUDEBUG "IRAMERASE: %p with size %p\n" [start; size] ;;;
    fun d => (s32 size, set_mem d (mem_write (mem d) start [] size))
  else ret 0.

Definition progalgo_intiram_write (buff : list Z) (start size : Z)
  : M (Z * list Z) :=
  r <- algo_root_isRegionValid start size ;;
  if negb (r =? 0) then
    DFUDEBUG "IRAMWRITE @ 0x%p, %p bytes\n" [start; size] ;;;
    fun d => ((s32 size, buff), set_mem d (mem_write (mem d) start buff size))
  else ret (0, buff).

Definition progalgo_intiram_read (buff : list Z) (start size : Z)
  : M (Z * list Z) :=
  r <- algo_root_isRegionValid start size ;;
  if negb (r =? 0) then
    DFUDEBUG "IRAMREAD @ 0x%p, %p bytes\n" [start; size] ;;;
    fun d => ((s32 size, buf_store buff (mem_read (mem d) start size) size), d)
  else ret (0, buff).

Definition progalgo_intiram_close (start : Z) : M unit := ret tt.

Definition intiram_palgos : PROGALGOS_T :=
  mkAlgos progalgo_intiram_erase_region progalgo_intiram_erase_region
          progalgo_intiram_write progalgo_intiram_read progalgo_intiram_close.

(** *** DFU status packets (dfu_ops.c) *)

(** [usbDFUBuildStatus(buffer)] with [buffer] the array [dfuOut]: the byte
    count and the array afterwards. *)
Definition usbDFUBuildStatus (s : Session) : M (Z * list Z) :=
  fill <- usbDebugFill 64 ;;
  let strbytes := fst fill in
  let b0 := buf_store_at (dfuOut s) 16 (snd fill) strbytes in
  let b1 := buf_store_at b0 0 (le32 (hostCmd s)) 4 in
  let b2 := buf_store_at b1 4 (le32 (opsts_code (currStatus s))) 4 in
  let b3 := buf_store_at b2 8 (le32 strbytes) 4 in
  let rsvd := s32 (buffer_size s) in
  let b4 := buf_store_at b3 12 (le32 rsvd) 4 in
  let bytes := 4 + 4 + 4 + 4 in
  ret (if negb (strbytes =? 0) then bytes + 64 else bytes, b4).

Definition usbDFUReturnStatus (s : Session) : M (Z * list Z) :=
  usbDFUBuildStatus s.

(** *** Host commands *)

Definition usbDFUSetVerbose (addr : Z) (s : Session) (d : Dev)
  : Session * Dev :=
  (set_hostCmd s DFU_HOSTCMD_SETDEBUG,
   if Z.land addr 1 =? 0 then set_verifyDebug d true
   else set_verifyDebug d false).

Definition usbDFUStartSession (addr size : Z) (s : Session) (d : Dev)
  : Session * Dev :=
  let s1 := set_hostCmd (set_currStatus s DFU_OPSTS_IDLE)
                        DFU_HOSTCMD_STARTNEWSESS in
  let (r, d1) := algo_root_isRegionValid addr size d in
  let currentRegion' := if r <? 0 then 0 else r in
  let s2 := set_region s1 currentRegion'
              (region_buffer_size (region_at (dfuRegionList d1) currentRegion'))
              (Some currentRegion') in
  (set_currCmdSize (set_currCmdAddr s2 addr) size, d1).

Definition usbDFUEraseAll (s : Session) : Session :=
  set_hostCmd (set_currStatus s DFU_OPSTS_ERASE_ALL_ST) DFU_HOSTCMD_ERASE_ALL.

Definition usbDFUEraseRegion (addr size : Z) (s : Session) : Session :=
  set_currCmdSize
    (set_currCmdAddr
       (set_hostCmd (set_currStatus s DFU_OPSTS_ERASE_ST)
                    DFU_HOSTCMD_ERASE_REGION) addr) size.

Definition usbDFUProgRegion (addr size : Z) (s : Session) : Session :=
  set_currCmdSize
    (set_currCmdAddr
       (set_hostCmd (set_currStatus s DFU_OPSTS_PROG_STREAM)
                    DFU_HOSTCMD_PROGRAM) addr) size.

Definition usbDFUReadRegion (addr size : Z) (s : Session) : Session :=
  set_currCmdSize
    (set_currCmdAddr
       (set_hostCmd (set_currStatus s DFU_OPSTS_READBUSY)
                    DFU_HOSTCMD_READBACK) addr) size.

Definition usbDFUReset (s : Session) : Session :=
  set_hostCmd (set_currStatus s DFU_OPSTS_RESET) DFU_HOSTCMD_RESET.

Definition usbDFUExecute (addr : Z) (s : Session) : Session :=
  set_currCmdAddr
    (set_hostCmd (set_currStatus s DFU_OPSTS_EXEC) DFU_HOSTCMD_EXECUTE) addr.

Definition dfu_detach (s : Session) : Session := set_dfu_detach_algo s 1.

Definition dfu_done (s : Session) : Session := set_dfu_done_algo s 1.

Definition version_warning : string :=
  "DFU Utility and programming algorithm have different versions\n".

(** [checked] is a local that starts as [false] on every call. *)
Definition checkMagicHeader (pOutHdr : DFU_FROMHOST_PACKETHDR_T) : M bool :=
  let checked := false in
  (if negb (hdr_magic pOutHdr =? DFUPROG_VALIDVAL) && negb checked then
     DFUDEBUG version_warning []
   else ret tt) ;;;
  ret true.

(** *** OUT packets *)

(** [dfu_wr(block_num, pBuff, length, bwPollTimeout)].  [pOutHdr] is what the
    start of [dfuIn] holds when the call is made; the returned [PBuff] is
    [*pBuff] afterwards.  Every path returns [DFU_STATUS_OK]. *)
Definition dfu_wr (pOutHdr : DFU_FROMHOST_PACKETHDR_T) (pBuff : PBuff)
    (length : Z) (s : Session) (d : Dev) : PBuff * Session * Dev :=
  let pBuff1 := if negb (length =? 0) then pb_add pBuff length else pBuff in
  let s1 := if negb (length =? 0)
            then set_outPktSizeIdx s (u32 (outPktSizeIdx s + length))
            else s in
  match currStatus s1 with
  | DFU_OPSTS_PROG_STREAM =>
      if length =? 0 then
        (mkPBuff BUF_dfuProgBuff 0, set_outPktSizeIdx s1 0, d)
      else if (outPktSizeIdx s1 =? buffer_size s1)
              || (outPktSizeIdx s1 =? currCmdSize s1) then
        let s2 := set_currStatus s1 DFU_OPSTS_PROG in
        let s3 := set_progSize s2 (outPktSizeIdx s2) in
        let s4 := set_currCmdSize s3 (u32 (currCmdSize s3 - outPktSizeIdx s3)) in
        (mkPBuff BUF_dfuIn 0, set_outPktSizeIdx s4 0, d)
      else (pBuff1, s1, d)
  | _ =>
      if negb (length =? 0) then
        let addr := hdr_addr pOutHdr in
        let size := hdr_size pOutHdr in
        let d1 := snd (checkMagicHeader pOutHdr d) in
        let cmd := hdr_hostCmd pOutHdr in
        let finish (sd : Session * Dev) : PBuff * Session * Dev :=
          (mkPBuff BUF_dfuIn 0, set_outPktSizeIdx (fst sd) 0, snd sd) in
        if cmd =? DFU_HOSTCMD_SETDEBUG then
          finish (usbDFUSetVerbose addr s1 d1)
        else if (cmd =? DFU_HOSTCMD_PROGOTP) || (cmd =? DFU_HOSTCMD_READOTP) then
          finish (s1, d1)
        else if cmd =? DFU_HOSTCMD_STARTNEWSESS then
          finish (usbDFUStartSession addr size s1 d1)
        else if cmd =? DFU_HOSTCMD_ERASE_ALL then
          finish (usbDFUEraseAll s1, d1)
        else if cmd =? DFU_HOSTCMD_ERASE_REGION then
          finish (usbDFUEraseRegion addr size s1, d1)
        else if cmd =? DFU_HOSTCMD_PROGRAM then
          (mkPBuff BUF_dfuProgBuff 0,
           set_outPktSizeIdx (usbDFUProgRegion addr size s1) 0, d1)
        else if cmd =? DFU_HOSTCMD_READBACK then
          finish (usbDFUReadRegion addr size s1, d1)
        else if cmd =? DFU_HOSTCMD_RESET then
          finish (usbDFUReset s1, d1)
        else if cmd =? DFU_HOSTCMD_EXECUTE then
          finish (usbDFUExecute addr s1, d1)
        else
          finish (set_currStatus s1 DFU_OPSTS_ERRUN,
                  snd (DFUDEBUG "Unknown command (%d)\n" [cmd] d1))
      else (mkPBuff BUF_dfuIn 0, set_outPktSizeIdx s1 0, d)
  end.

(** *** IN packets *)

(** What [memmove(pBuf, &ptrCurr[inPktSizeIdx], length)] hands to the host:
    [None] when [ptrCurr], a local that is set only when a new packet is
    started, is read before it was set in this call. *)
Definition in_copy (ptrCurr : option (list Z)) (idx len : Z)
  : option (list Z) :=
  match ptrCurr with
  | Some b => Some (firstn (Z.to_nat len) (skipn (Z.to_nat idx) b))
  | None => None
  end.

(** The states of [dfu_rd] that return only status. *)
Definition dfu_rd_status (length : Z) (s : Session) (d : Dev)
  : Z * option (list Z) * Session * Dev :=
  match (if inPktSize s =? 0 then
           let (r, d') := usbDFUReturnStatus s d in
           (Some (snd r),
            set_inPktSizeIdx (set_inPktSize (set_dfuOut s (snd r)) (u32 (fst r))) 0,
            d')
         else (None, s, d)) with
  | (ptrCurr, s1, d1) =>
      if negb (inPktSize s1 =? 0) then
        let length1 := if length >? inPktSize s1 then inPktSize s1 else length in
        let s2 := match currStatus s1 with
                  | DFU_OPSTS_READTRIG => set_currStatus s1 DFU_OPSTS_READREADY
                  | _ => s1
                  end in
        let data := in_copy ptrCurr (inPktSizeIdx s2) length1 in
        let s3 := set_inPktSize s2 (u32 (inPktSize s2 - length1)) in
        let s4 := set_inPktSizeIdx s3 (u32 (inPktSizeIdx s3 + length1)) in
        (length1, data, s4, d1)
      else (length, Some [], s1, d1)
  end.

(** [case DFU_OPSTS_READREADY] of [dfu_rd]. *)
Definition dfu_rd_readready (length : Z) (s : Session) (d : Dev)
  : Z * option (list Z) * Session * Dev :=
  match (if inPktSize s =? 0 then
           let s1 := set_inPktSize s (currCmdSize s) in
           let s2 := if inPktSize s1 >? buffer_size s1
                     then set_inPktSize s1 (buffer_size s1) else s1 in
           let s3 := set_currCmdSize s2 (u32 (currCmdSize s2 - inPktSize s2)) in
           (Some (dfuProgBuff s3), set_inPktSizeIdx s3 0)
         else (None, s)) with
  | (ptrCurr, s1) =>
      match (if negb (inPktSize s1 =? 0) then
               let length1 :=
                 if length >? inPktSize s1 then inPktSize s1 else length in
               let data := in_copy ptrCurr (inPktSizeIdx s1) length1 in
               let s2 := set_inPktSize s1 (u32 (inPktSize s1 - length1)) in
               let s3 := set_inPktSizeIdx s2 (u32 (inPktSizeIdx s2 + length1)) in
               (length1, data, s3)
             else (length, Some [], s1)) with
      | (length1, data, s2) =>
          if inPktSize s2 =? 0 then
            if currCmdSize s2 =? 0 then
              (length1, data, set_currStatus s2 DFU_OPSTS_IDLE, d)
            else (length1, data, set_currStatus s2 DFU_OPSTS_READBUSY, d)
          else (length1, data, s2, d)
      end
  end.

(** [dfu_rd(block_num, pBuff, length)]: the returned length, the bytes copied
    to [*pBuff], and the state.  The [default] case calls [dfu_rd] again with
    [currStatus] set to [DFU_OPSTS_ERRUN], which is a status-only state. *)
Definition dfu_rd (length : Z) (s : Session) (d : Dev)
  : Z * option (list Z) * Session * Dev :=
  let s0 := if length =? 0 then set_inPktSize s 0 else s in
  match currStatus s0 with
  | DFU_OPSTS_READREADY => dfu_rd_readready length s0 d
  | DFU_OPSTS_VERERR | DFU_OPSTS_PROG_RSVD =>
      let d1 := snd (DFUDEBUG "UNKNOWN STATE (%d)\n"
                              [opsts_code (currStatus s0)] d) in
      let s1 := set_currStatus s0 DFU_OPSTS_ERRUN in
      let s2 := if length =? 0 then set_inPktSize s1 0 else s1 in
      dfu_rd_status length s2 d1
  | _ => dfu_rd_status length s0 d
  end.

(** *** The background loop *)

(** [algo_root_close(currRegionData->region_addr)] *)
Definition close_current (s : Session) : M bool :=
  fun d =>
    algo_root_close
      (match currRegionData s with
       | Some i => region_addr (region_at (dfuRegionList d) i)
       | None => null_region_addr
       end) d.

(** One pass of the [while (1)] loop of [dfu_util_process]. *)
Definition dfu_util_process_step (s : Session) (d : Dev) : Outcome :=
  match currStatus s with
  | DFU_OPSTS_IDLE | DFU_OPSTS_ERRER | DFU_OPSTS_READER | DFU_OPSTS_PROGER
  | DFU_OPSTS_ERRUN | DFU_OPSTS_READREADY | DFU_OPSTS_READTRIG =>
      Continue s d
  | DFU_OPSTS_READBUSY =>
      let blks0 := s32 (currCmdSize s) in
      let blks := if u32 blks0 >? buffer_size s then s32 (buffer_size s)
                  else blks0 in
      let (r, d1) := algo_root_read (dfuProgBuff s) (currCmdAddr s) (u32 blks) d in
      let s1 := set_dfuProgBuff s (snd r) in
      if fst r =? 0 then Continue (set_currStatus s1 DFU_OPSTS_READER) d1
      else
        let s2 := set_currStatus s1 DFU_OPSTS_READTRIG in
        Continue (set_currCmdAddr s2 (u32 (currCmdAddr s2 + blks))) d1
  | DFU_OPSTS_ERASE_ALL_ST =>
      let s1 := set_currStatus s DFU_OPSTS_ERASE in
      let (regIndex, d1) := algo_root_isRegionValid (currCmdAddr s1) 0 d in
      if regIndex <? 0 then Continue (set_currStatus s1 DFU_OPSTS_ERRER) d1
      else
        let (e, d2) :=
          algo_root_erase_all
            (region_addr (region_at (dfuRegionList d1) regIndex)) d1 in
        if e =? 0 then Continue (set_currStatus s1 DFU_OPSTS_ERRER) d2
        else Continue s1 d2
  | DFU_OPSTS_ERASE_ST =>
      let s1 := set_currStatus s DFU_OPSTS_ERASE in
      let (v, d1) := algo_root_isRegionValid (currCmdAddr s1) (currCmdSize s1) d in
      if v <? 0 then Continue (set_currStatus s1 DFU_OPSTS_ERRER) d1
      else
        let (e, d2) := algo_root_erase_region (currCmdAddr s1) (currCmdSize s1) d1 in
        if e =? 0 then Continue (set_currStatus s1 DFU_OPSTS_ERRER) d2
        else Continue s1 d2
  | DFU_OPSTS_ERASE => Continue (set_currStatus s DFU_OPSTS_IDLE) d
  | DFU_OPSTS_PROG_STREAM => Continue s d
  | DFU_OPSTS_PROG =>
      if progSize s =? 0 then Continue (set_currStatus s DFU_OPSTS_IDLE) d
      else
        let (r, d1) := algo_root_write (dfuProgBuff s) (currCmdAddr s) (progSize s) d in
        let s1 := set_dfuProgBuff s (snd r) in
        if negb (u32 (fst r) =? progSize s1) then
          Continue (set_currStatus s1 DFU_OPSTS_PROGER) d1
        else if (progSize s1 <? buffer_size s1) || (currCmdSize s1 =? 0) then
          Continue (set_currStatus s1 DFU_OPSTS_IDLE) d1
        else
          let s2 := set_currStatus s1 DFU_OPSTS_PROG_STREAM in
          Continue (set_currCmdAddr s2 (u32 (currCmdAddr s2 + progSize s2))) d1
  | DFU_OPSTS_RESET => SysReset (snd (close_current s d))
  | DFU_OPSTS_EXEC => Execute (currCmdAddr s) (snd (close_current s d))
  | DFU_OPSTS_LOOP => DeadLoop (snd (close_current s d))
  | DFU_OPSTS_VERERR | DFU_OPSTS_PROG_RSVD => Continue s d
  end.

End Firmware.

(** ** A board to run the firmware on

    An LPC1857 without SPIFI flash: both 512K FLASH banks, the five SRAM
    regions and the EEPROM, in the order [algo_root_init] registers them;
    the remaining slots of the array are zero. *)

Definition intiram_pregions : list DFUPROG_REGION_T :=
  [ mkRegion 268435456 131072 "Local SRAM 1" ALGO_INTIRAM 2048;  (* 0x10000000 *)
    mkRegion 268959744 73728 "Local SRAM 2" ALGO_INTIRAM 2048;   (* 0x10080000 *)
    mkRegion 536870912 32768 "AHB SRAM 1" ALGO_INTIRAM 2048;     (* 0x20000000 *)
    mkRegion 537395200 16384 "AHB SRAM 2" ALGO_INTIRAM 2048;     (* 0x20080000 *)
    mkRegion 537657344 16384 "ETB SRAM" ALGO_INTIRAM 2048 ].     (* 0x200C0000 *)

Definition lpc_EEPROM_PAGE_SIZE : Z := 128.

Definition lpc_EEPROM_ADDRESS (page offset : Z) : Z :=
  537133056 + lpc_EEPROM_PAGE_SIZE * page + offset.              (* 0x20040000 *)

Definition inteeprom_pregions : list DFUPROG_REGION_T :=
  [ mkRegion 537133056 16384 "Internal EEPROM" ALGO_INTEEPROM
             lpc_EEPROM_PAGE_SIZE ].

Definition mcb1857_regionList : DFUPROG_REGIONLIST_T :=
  mkRegionList 8
    (intflash_pregions ++ intiram_pregions ++ inteeprom_pregions
     ++ repeat zero_region 4).

(** A [sprintf] stand-in that prints the format and drops the arguments. *)
Definition sprintf_fmt (fmt : string) (args : list Z) : list Z :=
  bytes_of_string fmt.

Fixpoint list_Z_eqb (a b : list Z) : bool :=
  match a, b with
  | [], [] => true
  | x :: a', y :: b' => (x =? y) && list_Z_eqb a' b'
  | _, _ => false
  end.

(** A boot ROM stand-in: copy RAM to FLASH programs the bytes, compare
    checks them, every other command succeeds and leaves the memory alone.
    Status 0 is success, 10 a compare error. *)
Definition lpc_iap_rom (command ram : list Z) (m : Z -> Z) : Z * (Z -> Z) :=
  let c := znth command 0 0 in
  let dst := znth command 1 0 in
  let n := znth command 3 0 in
  if c =? IAP_RAM_TO_FLASH then (0, mem_write m dst ram n)
  else if c =? IAP_COMPARE then
    (if list_Z_eqb (mem_read m dst n) (firstn (Z.to_nat n) ram) then 0 else 10,
     m)
  else (0, m).

(** A boot ROM stand-in whose compare step reports a mismatch. *)
Definition lpc_iap_rom_badverify (command ram : list Z) (m : Z -> Z)
  : Z * (Z -> Z) :=
  if znth command 0 0 =? IAP_COMPARE then (10, m)
  else lpc_iap_rom command ram m.

Definition lpc_intflash_palgos : PROGALGOS_T :=
  intflash_palgos sprintf_fmt lpc_iap_rom 0 180000000 zero_region 268435456.

Definition lpc_inteeprom_palgos : PROGALGOS_T :=
  inteeprom_palgos sprintf_fmt lpc_EEPROM_PAGE_SIZE lpc_EEPROM_ADDRESS.

(** The SPIFI algorithm needs the SPIFI library; the board has no such
    region, and a table that fails every call stands for it. *)
Definition absent_palgos : PROGALGOS_T :=
  mkAlgos (fun _ _ => ret 0) (fun _ _ => ret 0)
          (fun b _ _ => ret (0, b)) (fun b _ _ => ret (0, b))
          (fun _ => ret tt).

Definition lpc_palgos_of (a : ALGO) : PROGALGOS_T :=
  match a with
  | ALGO_SPIFLASH => absent_palgos
  | ALGO_INTFLASH => lpc_intflash_palgos
  | ALGO_INTIRAM => intiram_palgos sprintf_fmt
  | ALGO_INTEEPROM => lpc_inteeprom_palgos
  end.

(** The board after [usbDebugSetup], FLASH and EEPROM reading as [v]. *)
Definition mcb1857_dev (v : Z) : Dev :=
  mkDev mcb1857_regionList (repeat 0 2048) 0 0 true (fun _ => v) [].

(** The session as [dfu_util_process] enters its loop. *)
Definition idle_session : Session :=
  mkSession 0 0 None DFU_OPSTS_IDLE 0 0 0 (repeat 0 4116) (repeat 0 4096)
            0 0 0 0 0 0.

(** ** Runs of the debug message queue *)

Inductive QueueOp : Type :=
| QEnqueue (msg : list Z)
| QDrain (max : Z).

Definition queue_step (d : Dev) (op : QueueOp) : Dev :=
  match op with
  | QEnqueue msg => snd (usbDebug msg d)
  | QDrain max => snd (usbDebugFill max d)
  end.

Definition queue_run (ops : list QueueOp) (d : Dev) : Dev :=
  fold_left queue_step ops d.

(** A drain never asks for a negative count. *)
Definition queue_op_ok (op : QueueOp) : Prop :=
  match op with
  | QEnqueue _ => True
  | QDrain max => 0 <= max
  end.

(** Length of a C string: the characters before the terminator. *)
Fixpoint c_strlen (tmp : list Z) : Z :=
  match tmp with
  | [] => 0
  | c :: tmp' => if c =? 0 then 0 else 1 + c_strlen tmp'
  end.

(** What the queue holds: the bytes a status builder gets out of it by
    calling [usbDebugFill] with its 64-byte window until nothing comes. *)
Fixpoint usbDebugDrainAll (fuel : nat) (d : Dev) : list Z :=
  match fuel with
  | O => []
  | S fuel' =>
      let (r, d') := usbDebugFill 64 d in
      if fst r =? 0 then [] else snd r ++ usbDebugDrainAll fuel' d'
  end.

Definition queue_contents (d : Dev) : list Z := usbDebugDrainAll 2048 d.

(** ** Notions the properties are stated with *)

Definition queue_inv (d : Dev) : Prop :=
  0 <= usbStrIn d < USBMSGBUFFSIZE
  /\ 0 <= usbStrOut d < USBMSGBUFFSIZE
  /\ Z.of_nat (length (usbBuff d)) = USBMSGBUFFSIZE.

(** The number of bytes one [usbDebugFill] hands out. *)
Definition fill_size (max : Z) (d : Dev) : Z :=
  Z.min max (if usbStrOut d >? usbStrIn d then USBMSGBUFFSIZE - usbStrOut d
             else usbStrIn d - usbStrOut d).

(** The number of bytes between the read index and the write index. *)
Definition queue_pending (d : Dev) : Z :=
  (usbStrIn d - usbStrOut d) mod USBMSGBUFFSIZE.

(** A run that wraps the write index and keeps under 2048 bytes held. *)
Definition c9_ops : list QueueOp :=
  [ QEnqueue (bytes_of_string "LPC18xx/43xx DFUSec programming API tool");
    QDrain 64;
    QEnqueue (repeat 65 2030);
    QDrain 64 ].

(** The test [algo_root_isRegionValid] makes on a region, in 32-bit
    arithmetic. *)
Definition covers_u32 (r : DFUPROG_REGION_T) (addr size : Z) : bool :=
  (addr >=? region_addr r)
  && (u32 (addr + size) <=? u32 (region_addr r + region_size r)).

(** The same test on the integers. *)
Definition covers (r : DFUPROG_REGION_T) (addr size : Z) : Prop :=
  region_addr r <= addr /\ addr + size <= region_addr r + region_size r.

(** [r] is what a first-match scan of the slots [k ..] with test [p] gives,
    [v] standing for no match. *)
Definition first_match (rl : DFUPROG_REGIONLIST_T)
    (p : DFUPROG_REGION_T -> bool) (k v r : Z) : Prop :=
  (r = v /\ forall j, k <= j < num_regions rl -> p (region_at rl j) = false)
  \/ (k <= r < num_regions rl /\ p (region_at rl r) = true
      /\ forall j, k <= j < r -> p (region_at rl j) = false).

(** [progalgo_iflash_progaddrvalid] with its [bank < 0] branch removed:
    what is left of the function if that branch is never taken. *)
Definition progaddrvalid_without_bank_check
    (sprintf : string -> list Z -> list Z)
    (oob : DFUPROG_REGION_T) (addr size : Z) : M Z :=
  _ <- progalgo_iflash_findbank sprintf oob addr ;;
  if negb (Z.land addr (PAGE_SIZE - 1) =? 0) then
    DFUDEBUG sprintf "FLASH: Address is not 512 byte aligned\n" [] ;;; ret 0
  else
    let sg := s32 (size / PAGE_SIZE) in
    if negb (size =? u32 (PAGE_SIZE * sg)) then
      DFUDEBUG sprintf "FLASH: Size must be a multiple of 512 bytes\n" [] ;;;
      ret 0
    else ret (s32 size).

(** Registry, memory and IAP log of [d'] are those of [d]: between the two
    only the debug queue was written. *)
Definition hw_untouched (d d' : Dev) : Prop :=
  dfuRegionList d' = dfuRegionList d
  /\ mem d' = mem d
  /\ iap_log d' = iap_log d.

(** A session in [DFU_OPSTS_PROG_STREAM] with 100 of 300 bytes staged. *)
Definition streaming_session : Session :=
  mkSession 0 512 (Some 0) DFU_OPSTS_PROG_STREAM DFU_HOSTCMD_PROGRAM
            436207616 300 (repeat 0 4116) (repeat 0 4096) 0 0 100 0 0 0.

Definition program_hdr : DFU_FROMHOST_PACKETHDR_T :=
  mkHdr DFU_HOSTCMD_PROGRAM 436207616 300 DFUPROG_VALIDVAL.

(** A session that has 512 bytes staged for FLASH bank A, 512 more to come. *)
Definition programming_session : Session :=
  mkSession 0 512 (Some 0) DFU_OPSTS_PROG DFU_HOSTCMD_PROGRAM
            436207616 512 (repeat 0 4116) (repeat 0 4096) 0 0 0 512 0 0.

Definition with_valid_magic (h : DFU_FROMHOST_PACKETHDR_T)
  : DFU_FROMHOST_PACKETHDR_T :=
  mkHdr (hdr_hostCmd h) (hdr_addr h) (hdr_size h) DFUPROG_VALIDVAL.

(** An erase-all command from a host tool of another version. *)
Definition old_tool_hdr : DFU_FROMHOST_PACKETHDR_T :=
  mkHdr DFU_HOSTCMD_ERASE_ALL 436207616 0 (Z.lor 407044096 266).

(** A run of IN requests, each of the given length. *)
Fixpoint dfu_rd_run (sprintf : string -> list Z -> list Z)
    (lengths : list Z) (s : Session) (d : Dev) : Session * Dev :=
  match lengths with
  | [] => (s, d)
  | l :: ls =>
      let r := dfu_rd sprintf l s d in
      dfu_rd_run sprintf ls (snd (fst r)) (snd r)
  end.

Definition total (ls : list Z) : Z := fold_right Z.add 0 ls.

(** A request length the host can send: positive and 32 bits wide. *)
Definition in_length (l : Z) : Prop := 0 < l < 4294967296.

(** The session is in [DFU_OPSTS_READREADY] with [k] bytes of the chunk
    still to hand out and [n] bytes left after this chunk. *)
Definition draining (s : Session) (n k bs : Z) : Prop :=
  currStatus s = DFU_OPSTS_READREADY
  /\ currCmdSize s = n /\ inPktSize s = k /\ buffer_size s = bs.

(** A readback of 1000 bytes of FLASH bank A, 512-byte buffer. *)
Definition readbusy_session : Session :=
  mkSession 0 512 (Some 0) DFU_OPSTS_READBUSY DFU_HOSTCMD_READBACK
            436207616 1000 (repeat 0 4116) (repeat 0 4096) 0 0 0 0 0 0.

Definition readtrig_session : Session :=
  set_currCmdAddr (set_currStatus readbusy_session DFU_OPSTS_READTRIG)
                  436208128.

Definition readready_session : Session :=
  set_currStatus readtrig_session DFU_OPSTS_READREADY.

(** ERASE_REGION for 0x1A000200 .. 0x1A001FFF: inside FLASH bank A,
    512-byte aligned, starting 512 bytes into sector 0 and ending on the
    last byte of sector 0. *)
Definition erase_hdr : DFU_FROMHOST_PACKETHDR_T :=
  mkHdr DFU_HOSTCMD_ERASE_REGION 436208128 7680 DFUPROG_VALIDVAL.

Definition erase_session : Session :=
  snd (fst (dfu_wr sprintf_fmt erase_hdr (mkPBuff BUF_dfuIn 0) 16
                   idle_session (mcb1857_dev 0))).

(** Two bytes to write, in a 4096-byte program buffer. *)
Definition two_bytes : list Z := [17; 34] ++ repeat 0 4094.

(** ** Further notions: decoding, runs of transfers *)

(** The 32-bit word four little-endian bytes stand for. *)
Definition le32_decode (b : list Z) : Z :=
  znth b 0 0 + 256 * znth b 1 0 + 65536 * znth b 2 0 + 16777216 * znth b 3 0.

(** A 32-bit load from a memory-mapped address. *)
Definition mem_load32 (m : Z -> Z) (a : Z) : Z := le32_decode (mem_read m a 4).

(** The fields of a status packet, read back from the bytes of [dfuOut]. *)
Record DFU_TOHOST_PACKETHDR_T : Type := mkToHost {
  cmdResponse : Z;
  progStatus : Z;
  strBytes : Z;
  reserved : Z
}.

Definition decode_status (b : list Z) : DFU_TOHOST_PACKETHDR_T :=
  mkToHost (le32_decode (firstn 4 b))
           (le32_decode (firstn 4 (skipn 4 b)))
           (le32_decode (firstn 4 (skipn 8 b)))
           (le32_decode (firstn 4 (skipn 12 b))).

(** The command codes [dfu_wr] has a [case] for. *)
Definition handled_command (cmd : Z) : bool :=
  (cmd =? DFU_HOSTCMD_SETDEBUG) || (cmd =? DFU_HOSTCMD_PROGOTP)
  || (cmd =? DFU_HOSTCMD_READOTP) || (cmd =? DFU_HOSTCMD_STARTNEWSESS)
  || (cmd =? DFU_HOSTCMD_ERASE_ALL) || (cmd =? DFU_HOSTCMD_ERASE_REGION)
  || (cmd =? DFU_HOSTCMD_PROGRAM) || (cmd =? DFU_HOSTCMD_READBACK)
  || (cmd =? DFU_HOSTCMD_RESET) || (cmd =? DFU_HOSTCMD_EXECUTE).

(** The session after a pass of the background loop that goes on. *)
Definition outcome_session (o : Outcome) (dflt : Session) : Session :=
  match o with
  | Continue s _ => s
  | _ => dflt
  end.

Definition outcome_dev (o : Outcome) : Dev :=
  match o with
  | Continue _ d => d
  | SysReset d => d
  | Execute _ d => d
  | DeadLoop d => d
  end.

Definition continues (o : Outcome) : bool :=
  match o with
  | Continue _ _ => true
  | _ => false
  end.

(** Packets for the examples: READ_IDS, ERASE_ALL and START_NEW_SESSION for
    a range no region covers. *)
Definition read_ids_hdr : DFU_FROMHOST_PACKETHDR_T :=
  mkHdr DFU_HOSTCMD_READIDS 0 0 DFUPROG_VALIDVAL.

Definition erase_all_hdr : DFU_FROMHOST_PACKETHDR_T :=
  mkHdr DFU_HOSTCMD_ERASE_ALL 3735928559 4 DFUPROG_VALIDVAL.

Definition start_nowhere_hdr : DFU_FROMHOST_PACKETHDR_T :=
  mkHdr DFU_HOSTCMD_STARTNEWSESS 805306368 4096 DFUPROG_VALIDVAL.

(** ERASE_ALL pending, the recorded address 100 bytes into FLASH bank A. *)
Definition erase_all_session : Session :=
  set_currCmdAddr (set_currStatus idle_session DFU_OPSTS_ERASE_ALL_ST)
                  436207716.

(** The states in which [dfu_rd] answers with a status packet. *)
Definition status_only (st : DFU_OPSTS_T) : bool :=
  match st with
  | DFU_OPSTS_READREADY | DFU_OPSTS_VERERR | DFU_OPSTS_PROG_RSVD => false
  | _ => true
  end.

(** The state a status poll leaves: a triggered read becomes ready. *)
Definition after_poll (st : DFU_OPSTS_T) : DFU_OPSTS_T :=
  match st with
  | DFU_OPSTS_READTRIG => DFU_OPSTS_READREADY
  | _ => st
  end.

(** The board with the start-up banner in its debug queue. *)
Definition banner_dev : Dev :=
  snd (usbDebug (bytes_of_string "LPC18xx/43xx DFUSec programming API tool")
                (mcb1857_dev 255)).

(** A session caught in the state that has no [case]. *)
Definition vererr_session : Session :=
  set_currStatus idle_session DFU_OPSTS_VERERR.

(** ** The debug queue as a ring *)

(** The index after [i] in the ring. *)
Definition ring_next (i : Z) : Z :=
  if i + 1 >=? USBMSGBUFFSIZE then 0 else i + 1.

(** The index [n] places after [i]. *)
Definition ring_adv (i : Z) (n : nat) : Z := Nat.iter n ring_next i.

(** [n] bytes of the ring, from index [i] on. *)
Fixpoint ring (buf : list Z) (i : Z) (n : nat) : list Z :=
  match n with
  | O => []
  | S n' => znth buf i 0 :: ring buf (ring_next i) n'
  end.

(** The characters of a C string: those before the terminator. *)
Fixpoint c_chars (tmp : list Z) : list Z :=
  match tmp with
  | [] => []
  | c :: tmp' => if c =? 0 then [] else c :: c_chars tmp'
  end.

(** Messages for the queue examples: one with a terminator in the middle,
    one longer than the queue. *)
Definition short_msg : list Z := [97; 98; 99; 0; 100].

Definition long_msg : list Z := repeat 65 3000.

(** The page test of the internal FLASH algorithm: the address is a multiple
    of 512 and the size is one too. *)
Definition page_ok (addr size : Z) : bool :=
  (Z.land addr 511 =? 0) && (size mod 512 =? 0).

(** ** Sectors of a FLASH bank *)

(** The sector an offset into a bank falls in: eight sectors of 8K, then
    seven of 64K. *)
Definition sector_of (off : Z) : Z :=
  if off <? 65536 then off / 8192 else 7 + off / 65536.

(** The offset one past the last byte of sector [k]. *)
Definition sector_end (k : Z) : Z := sector_offset k + sector_size k.

(** The test both sector loops make on sector [k]. *)
Definition sector_hit (addrbase k a : Z) : bool :=
  (a >=? u32 (addrbase + sector_offset k))
  && (a <=? u32 (u32 (addrbase + sector_offset k) + sector_size k - 1)).

(** The base address of a FLASH bank. *)
Definition bank_base (bank : Z) : Z := region_addr (znth intflash_pregions bank zero_region).

(** ** Lookups in the region registry *)

(** Slot [k] is the first registered region whose test the range passes. *)
Definition first_cover (rl : DFUPROG_REGIONLIST_T) (k addr size : Z) : Prop :=
  0 <= k < num_regions rl
  /\ covers_u32 (region_at rl k) addr size = true
  /\ forall j, 0 <= j < k -> covers_u32 (region_at rl j) addr size = false.

(** The range passes the test of no registered region. *)
Definition no_cover (rl : DFUPROG_REGIONLIST_T) (addr size : Z) : Prop :=
  0 <= num_regions rl
  /\ forall j, 0 <= j < num_regions rl ->
       covers_u32 (region_at rl j) addr size = false.

(** The bytes [memmove] leaves at [start ..] when it copies [size] bytes of
    [buff]. *)
Definition in_window (start size a : Z) : bool :=
  (start <=? a) && (a <? start + size).

(** A flashless part without SPIFI flash: [algo_root_init] registers the
    five SRAM regions only, the first of them in slot 0. *)
Definition lpc1850_regionList : DFUPROG_REGIONLIST_T :=
  mkRegionList 5 (intiram_pregions ++ repeat zero_region 7).

Definition lpc1850_dev : Dev :=
  mkDev lpc1850_regionList (repeat 0 2048) 0 0 true (fun _ => 0) [].

(** ** The endpoint 0 patch (dfu_ops.c) *)

(** The events [EP0_patch] tells apart; every other event code falls
    through its [switch]. *)
Inductive USB_EVT : Type :=
| USB_EVT_SETUP
| USB_EVT_OUT
| USB_EVT_OUT_NAK
| USB_EVT_other (code : Z).

Definition LPC_OK : Z := 0.

(** [g_ep0RxBusy], and the events handed on to [g_Ep0BaseHdlr], latest
    first. *)
Record EP0 : Type := mkEP0 {
  g_ep0RxBusy : Z;
  base_events : list USB_EVT
}.

(** [EP0_patch(hUsb, data, event)]; [g_Ep0BaseHdlr] is the handler of the
    ROM stack, which answers with an error code. *)
Definition EP0_patch (g_Ep0BaseHdlr : list USB_EVT -> USB_EVT -> Z)
    (event : USB_EVT) (st : EP0) : Z * EP0 :=
  let base (busy : Z) :=
    (g_Ep0BaseHdlr (base_events st) event,
     mkEP0 busy (event :: base_events st)) in
  match event with
  | USB_EVT_OUT_NAK =>
      if negb (g_ep0RxBusy st =? 0) then (LPC_OK, st) else base 1
  | USB_EVT_SETUP | USB_EVT_OUT => base 0
  | USB_EVT_other _ => base (g_ep0RxBusy st)
  end.

(** The patch called for one event after the other. *)
Fixpoint EP0_run (g_Ep0BaseHdlr : list USB_EVT -> USB_EVT -> Z)
    (es : list USB_EVT) (st : EP0) : EP0 :=
  match es with
  | [] => st
  | e :: es' => EP0_run g_Ep0BaseHdlr es' (snd (EP0_patch g_Ep0BaseHdlr e st))
  end.

(** ** The SPIFI clock divider (SPIFI algorithm) *)

(** [calculate_divider(baseClock, target)] *)
Definition calculate_divider (baseClock target : Z) : Z :=
  let divider := baseClock / target in
  if negb (baseClock mod target =? 0) then u32 (divider + 1) else divider.

(** ** Discovering the regions: the init functions *)

Definition set_regionList (d : Dev) (rl : DFUPROG_REGIONLIST_T) : Dev :=
  mkDev rl (usbBuff d) (usbStrIn d) (usbStrOut d) (verifyDebug d) (mem d)
        (iap_log d).

(** [reg[i] = r], where [reg] points at slot [base] of
    [dfuRegionList.regionList]. *)
Definition store_region (base i : Z) (r : DFUPROG_REGION_T) : M unit :=
  fun d =>
    (tt, set_regionList d
           (mkRegionList (num_regions (dfuRegionList d))
                         (zupd (regionList (dfuRegionList d)) (base + i) r))).

(** A table entry with its [region_size] replaced. *)
Definition with_region_size (r : DFUPROG_REGION_T) (size : Z)
  : DFUPROG_REGION_T :=
  mkRegion (region_addr r) size (regname r) (pprogalgos r)
           (region_buffer_size r).

Definition FLASHMAXSIZE : Z := 512 * 1024.

(** [IAP_LOCATION], the part ID words, and the window the IAP entry of a
    part with FLASH lies in. *)
Definition IAP_LOCATION_ADDR : Z := 272630016.   (* 0x10400100 *)
Definition PART_ID1_ADDR : Z := 1074024448.      (* 0x40045000 *)
Definition PART_ID2_ADDR : Z := 1074024460.      (* 0x4004500c *)

Definition iap_in_rom (iapTest32 : Z) : bool :=
  (iapTest32 >=? 272629760) && (iapTest32 <? 272695296).

(** [progalgo_iflash_getsize(bank, part_id2)] *)
Definition progalgo_iflash_getsize (bank part_id2 : Z) : Z :=
  let bank_shift := [0; 4] in
  let bank_mask := [15; 240] in
  let flash_size :=
    u32 (Z.shiftr (Z.land part_id2 (znth bank_mask bank 0))
                  (znth bank_shift bank 0) * 65536) in
  if FLASHMAXSIZE <=? flash_size then 0 else FLASHMAXSIZE - flash_size.

(** The regions of the SPIFI algorithm. *)
Definition spiflash_pregions : list DFUPROG_REGION_T :=
  [ mkRegion 335544320 134217728 "SPIFLASH@14" ALGO_SPIFLASH 2048;   (* 0x14000000 *)
    mkRegion 2147483648 134217728 "SPIFLASH@80" ALGO_SPIFLASH 2048 ]. (* 0x80000000 *)

Definition SPIFLASH_BASE_ADDRESS : Z := 335544320.

(** What the SPIFI library answers during [initializeSpifi]: the names of
    the registered families (the pointers handed to [sprintf]), the handle
    memory size, and the size of the device if [spifiInitDevice] finds
    one. *)
Record SPIFILIB : Type := mkSpifiLib {
  spifi_families : list Z;
  spifi_memsize : Z;
  spifi_devsize : option Z
}.

Section Discovery.

Variable sprintf : string -> list Z -> list Z.
Variable iap_rom : list Z -> list Z -> (Z -> Z) -> Z * (Z -> Z).
Variable IAP_CMD_SUCCESS : Z.
Variable EEPROM_PAGE_SIZE : Z.
Variable lib : SPIFILIB.

(** [SPIFIDEBUG] is [DFUDEBUG] with a buffer of its own. *)
Definition SPIFIDEBUG (fmt : string) (args : list Z) : M unit :=
  DFUDEBUG sprintf fmt args.

(** The loop of [initializeSpifi] that shows the families. *)
Fixpoint show_families (names : list Z) : M unit :=
  match names with
  | [] => ret tt
  | n :: names' => SPIFIDEBUG "FAMILY: %s\r\n" [n] ;;; show_families names'
  end.

(** [initializeSpifi()]: the handle is held as the size of the device it
    stands for, [None] is the null pointer. *)
Definition initializeSpifi : M (option Z) :=
  show_families (spifi_families lib) ;;;
  if spifi_memsize lib =? 0 then
    SPIFIDEBUG "SPIFLASH: spifiGetHandleMemSize() failed.\r\n" [] ;;; ret None
  else
    match spifi_devsize lib with
    | None =>
        SPIFIDEBUG "SPIFLASH: spifiInitDevice() failed.\r\n" [] ;;; ret None
    | Some sz => ret (Some sz)
    end.

(** [for (idx = 0; idx < avail; idx++)] of [progalgo_spiflash_init]. *)
Fixpoint spiflash_init_loop (fuel : nat) (base idx avail devsize : Z)
  : M unit :=
  match fuel with
  | O => ret tt
  | S fuel' =>
      if idx <? avail then
        store_region base idx
          (with_region_size (znth spiflash_pregions idx zero_region)
                            (u32 devsize)) ;;;
        spiflash_init_loop fuel' base (idx + 1) avail devsize
      else ret tt
  end.

(** [progalgo_spiflash_init(&dfuRegionList.regionList[base], avail)]: the
    number of regions and [SpiGood] afterwards.  The pin and clock set-up
    goes to the chip library. *)
Definition progalgo_spiflash_init (base avail : Z) : M (Z * Z) :=
  SPIFIDEBUG "SPIFLASH: init()...\r\n" [] ;;;
  pSpifi <- initializeSpifi ;;
  match pSpifi with
  | None =>
      SPIFIDEBUG "SPIFLASH check: initialization failed\r\n" [] ;;;
      ret (0, 0)
  | Some devsize =>
      let avail1 := if avail >? 2 then 2 else avail in
      spiflash_init_loop 2 base 0 avail1 devsize ;;;
      SPIFIDEBUG "SPIFLASH check: initialization complete!\r\n" [] ;;;
      ret (avail1, SPIFLASH_BASE_ADDRESS)
  end.

(** [for (idx = 0; idx < avail; idx++)] of [progalgo_intflash_init], on
    [idx] and [ni]. *)
Fixpoint intflash_init_loop (fuel : nat) (base idx ni avail part_id2 : Z)
  : M Z :=
  match fuel with
  | O => ret ni
  | S fuel' =>
      if idx <? avail then
        let size := progalgo_iflash_getsize idx part_id2 in
        store_region base ni
          (with_region_size (znth intflash_pregions idx zero_region) size) ;;;
        intflash_init_loop fuel' base (idx + 1)
                           (if size >? 0 then ni + 1 else ni) avail part_id2
      else ret ni
  end.

(** [progalgo_intflash_init(&dfuRegionList.regionList[base], avail)] *)
Definition progalgo_intflash_init (base avail : Z) : M Z :=
  fun d =>
    let iapTest32 := mem_load32 (mem d) IAP_LOCATION_ADDR in
    let avail1 := if avail >? 2 then 2 else avail in
    let result1 := mem_load32 (mem d) PART_ID1_ADDR in
    let result2 := mem_load32 (mem d) PART_ID2_ADDR in
    (DFUDEBUG sprintf "FLASHINIT: ID1/2 = 0x%08x/0x%08x\n" [result1; result2] ;;;
     if iap_in_rom iapTest32 then
       r <- iap_entry iap_rom [IAP_INIT] [] ;;
       if r =? IAP_CMD_SUCCESS then
         intflash_init_loop 2 base 0 0 avail1 result2
       else ret 0
     else ret 0) d.

(** [for (i = 0; i < avail; i++) reg[i] = pregions[i];] of
    [progalgo_intiram_init]. *)
Fixpoint intiram_init_loop (fuel : nat) (base i avail : Z) : M unit :=
  match fuel with
  | O => ret tt
  | S fuel' =>
      if i <? avail then
        store_region base i (znth intiram_pregions i zero_region) ;;;
        intiram_init_loop fuel' base (i + 1) avail
      else ret tt
  end.

(** [progalgo_intiram_init(&dfuRegionList.regionList[base], avail)] *)
Definition progalgo_intiram_init (base avail : Z) : M Z :=
  let avail1 := if avail >? 5 then 5 else avail in
  intiram_init_loop 5 base 0 avail1 ;;; ret avail1.

Definition inteeprom_pregion : DFUPROG_REGION_T :=
  mkRegion 537133056 16384 "Internal EEPROM" ALGO_INTEEPROM EEPROM_PAGE_SIZE.

(** [progalgo_inteeprom_init(&dfuRegionList.regionList[base], avail)]; the
    EEPROM block itself is set up by the chip library. *)
Definition progalgo_inteeprom_init (base avail : Z) : M Z :=
  fun d =>
    let iapTest32 := mem_load32 (mem d) IAP_LOCATION_ADDR in
    if iap_in_rom iapTest32 then
      if avail >? 0 then
        (store_region base 0 inteeprom_pregion ;;;
         DFUDEBUG sprintf "EEPROM: 16K available\n" [] ;;;
         ret 1) d
      else (0, d)
    else (0, d).

(** [dfuRegionList.num_regions = regIndex] *)
Definition set_num_regions (n : Z) : M unit :=
  fun d =>
    (tt, set_regionList d (mkRegionList n (regionList (dfuRegionList d)))).

(** [algo_root_init()]: the registry is in the device afterwards; the value
    returned here is [SpiGood]. *)
Definition algo_root_init : M Z :=
  let regIndex := 0 in
  spi <- progalgo_spiflash_init regIndex (MAXREGIONS - regIndex) ;;
  let regIndex := s32 (regIndex + fst spi) in
  n <- progalgo_intflash_init regIndex (MAXREGIONS - regIndex) ;;
  let regIndex := s32 (regIndex + n) in
  n <- progalgo_intiram_init regIndex (MAXREGIONS - regIndex) ;;
  let regIndex := s32 (regIndex + n) in
  n <- progalgo_inteeprom_init regIndex (MAXREGIONS - regIndex) ;;
  let regIndex := s32 (regIndex + n) in
  set_num_regions regIndex ;;;
  ret (snd spi).

End Discovery.

(** The regions [algo_root_init] is to find: those of the SPIFI device if
    there is one, the FLASH banks of a size above 0 if the part has the
    IAP entry and the ROM initialises, the five SRAM regions, and the EEPROM
    if the part has the IAP entry. *)
Definition found_spiflash (lib : SPIFILIB) : list DFUPROG_REGION_T :=
  if spifi_memsize lib =? 0 then []
  else match spifi_devsize lib with
       | None => []
       | Some sz => map (fun r => with_region_size r (u32 sz)) spiflash_pregions
       end.

Definition found_intflash (iap_ok : bool) (part_id2 : Z)
  : list DFUPROG_REGION_T :=
  if iap_ok then
    filter (fun r => region_size r >? 0)
      [ with_region_size (znth intflash_pregions 0 zero_region)
                         (progalgo_iflash_getsize 0 part_id2);
        with_region_size (znth intflash_pregions 1 zero_region)
                         (progalgo_iflash_getsize 1 part_id2) ]
  else [].

Definition found_inteeprom (EEPROM_PAGE_SIZE : Z) (has_iap : bool)
  : list DFUPROG_REGION_T :=
  if has_iap then [inteeprom_pregion EEPROM_PAGE_SIZE] else [].

(** The device as the utility starts: no region registered, twelve zero
    slots, an empty message queue. *)
Definition reset_dev (m : Z -> Z) : Dev :=
  mkDev (mkRegionList 0 (repeat zero_region 12)) (repeat 0 2048) 0 0 true m [].

(** The memory of a part with FLASH, as far as discovery reads it: the IAP
    entry word points into the ROM, the part ID words read 0. *)
Definition lpc1857_mem : Z -> Z :=
  mem_write (fun _ => 0) IAP_LOCATION_ADDR (le32 272630020) 4.  (* 0x10400104 *)

(** A SPIFI library that finds no device. *)
Definition no_spifi : SPIFILIB := mkSpifiLib [] 0 None.

(** A session as START_NEW_SESSION leaves it for a range in FLASH bank A:
    region 0, with its buffer size of 512. *)
Definition flash_idle_session : Session :=
  mkSession 0 512 (Some 0) DFU_OPSTS_IDLE DFU_HOSTCMD_STARTNEWSESS 436207616
            512 (repeat 0 4116) (repeat 0 4096) 0 0 0 0 0 0.

(** A PROGRAM command for three bytes at the second page of bank A. *)
Definition program_page_hdr : DFU_FROMHOST_PACKETHDR_T :=
  mkHdr DFU_HOSTCMD_PROGRAM 436208128 3 DFUPROG_VALIDVAL.

(** [progalgo_spiflash_chk_alt(addr)]; [SpiGood] is 0 until
    [progalgo_spiflash_init] finds a device, [SPIFLASH_BASE_ADDRESS] after. *)
Definition progalgo_spiflash_chk_alt (SpiGood addr : Z) : Z :=
  Z.lor (Z.land addr (u32 (Z.lnot 4278190080))) SpiGood.   (* ~0xFF000000 *)

(** ** What a run of the debug queue has queued and not handed out *)

(** [usbDebug] in verbose mode puts the characters of its message behind
    the bytes held; [usbDebugFill] takes the count it returns off their
    front. *)
Definition queue_unsent_step (d : Dev) (held : list Z) (op : QueueOp)
  : list Z :=
  match op with
  | QEnqueue msg => if verifyDebug d then held ++ c_chars msg else held
  | QDrain max => skipn (Z.to_nat (fst (fst (usbDebugFill max d)))) held
  end.

(** The bytes queued and not handed out after the run [ops] from the queue
    [d] holding [held]. *)
Fixpoint queue_unsent (ops : list QueueOp) (d : Dev) (held : list Z)
  : list Z :=
  match ops with
  | [] => held
  | op :: ops' =>
      queue_unsent ops' (queue_step d op) (queue_unsent_step d held op)
  end.

(** Every call of the run leaves fewer than [USBMSGBUFFSIZE] bytes held.
    The code makes no such test: it is the caller that keeps to it, or does
    not. *)
Fixpoint queue_fits (ops : list QueueOp) (d : Dev) (held : list Z) : bool :=
  match ops with
  | [] => true
  | op :: ops' =>
      (Z.of_nat (length (queue_unsent_step d held op)) <? USBMSGBUFFSIZE)
      && queue_fits ops' (queue_step d op) (queue_unsent_step d held op)
  end.

(** One message of 2048 characters. *)
Definition c9_full_ops : list QueueOp := [QEnqueue (repeat 65 2048)].

(** * Properties *)

(** ** The debug message queue *)

Lemma upd_nat_length {A} (l : list A) n v : length (upd_nat l n v) = length l.
Proof.
  revert n; induction l as [|h t IH]; intros [|n]; simpl; auto.
Qed.

Lemma zupd_length {A} (l : list A) i v : length (zupd l i v) = length l.
Proof.
  unfold zupd; destruct (i <? 0); auto using upd_nat_length.
Qed.

Lemma usbDebug_loop_spec tmp : forall buf i,
  0 <= i < USBMSGBUFFSIZE ->
  snd (usbDebug_loop tmp buf i) = (i + c_strlen tmp) mod USBMSGBUFFSIZE
  /\ length (fst (usbDebug_loop tmp buf i)) = length buf.
Proof.
  unfold USBMSGBUFFSIZE.
  induction tmp as [|c tmp IH]; intros buf i Hi;
    cbn [usbDebug_loop c_strlen fst snd].
  - rewrite Z.add_0_r, Z.mod_small by lia; auto.
  - destruct (c =? 0); cbn [fst snd].
    + rewrite Z.add_0_r, Z.mod_small by lia; auto.
    + unfold USBMSGBUFFSIZE.
      destruct (Z.geb_spec (i + 1) 2048) as [Hge|Hlt].
      * destruct (IH (zupd buf i c) 0 ltac:(lia)) as [E1 E2].
        rewrite E1, E2, zupd_length; split; auto.
        replace (i + (1 + c_strlen tmp)) with (0 + c_strlen tmp + 1 * 2048)
          by lia.
        apply eq_sym, Z.mod_add; lia.
      * destruct (IH (zupd buf i c) (i + 1) ltac:(lia)) as [E1 E2].
        rewrite E1, E2, zupd_length; split; auto.
        f_equal; lia.
Qed.

Lemma usbDebug_index msg d :
  queue_inv d ->
  usbStrIn (snd (usbDebug msg d))
  = (if verifyDebug d then (usbStrIn d + c_strlen msg) mod USBMSGBUFFSIZE
     else usbStrIn d)
  /\ usbStrOut (snd (usbDebug msg d)) = usbStrOut d.
Proof.
  intros (Hi & Ho & Hl); unfold usbDebug.
  destruct (verifyDebug d); simpl; auto.
  destruct (usbDebug_loop_spec msg (usbBuff d) (usbStrIn d) Hi) as [E1 E2].
  destruct (usbDebug_loop msg (usbBuff d) (usbStrIn d)) as [b i]; simpl in *.
  auto.
Qed.

Lemma usbDebug_inv msg d : queue_inv d -> queue_inv (snd (usbDebug msg d)).
Proof.
  intros (Hi & Ho & Hl); unfold usbDebug, queue_inv.
  destruct (verifyDebug d); simpl; auto.
  destruct (usbDebug_loop_spec msg (usbBuff d) (usbStrIn d) Hi) as [E1 E2].
  destruct (usbDebug_loop msg (usbBuff d) (usbStrIn d)) as [b i]; simpl in *.
  rewrite E1, E2; repeat split; try lia;
    apply Z.mod_pos_bound; unfold USBMSGBUFFSIZE; lia.
Qed.

Lemma usbDebugFill_spec max d :
  queue_inv d -> 0 <= max ->
  fst (fst (usbDebugFill max d)) = fill_size max d
  /\ Z.of_nat (length (snd (fst (usbDebugFill max d)))) = fill_size max d
  /\ usbStrIn (snd (usbDebugFill max d)) = usbStrIn d
  /\ usbStrOut (snd (usbDebugFill max d))
     = (usbStrOut d + fill_size max d) mod USBMSGBUFFSIZE
  /\ usbBuff (snd (usbDebugFill max d)) = usbBuff d
  /\ verifyDebug (snd (usbDebugFill max d)) = verifyDebug d.
Proof.
  unfold queue_inv, USBMSGBUFFSIZE.
  intros (Hi & Ho & Hl) Hmax; unfold usbDebugFill, fill_size, USBMSGBUFFSIZE.
  destruct (Z.eqb_spec (usbStrIn d) (usbStrOut d)) as [E|NE];
    cbn [negb fst snd].
  - rewrite E.
    destruct (Z.gtb_spec (usbStrOut d) (usbStrOut d)); try lia.
    rewrite Z.sub_diag, Z.min_r, Z.add_0_r, Z.mod_small by lia.
    repeat split; auto.
  - set (ssize0 := if usbStrOut d >? usbStrIn d then 2048 - usbStrOut d
                   else usbStrIn d - usbStrOut d).
    assert (H0 : 0 < ssize0 /\ usbStrOut d + ssize0 <= 2048).
    { unfold ssize0; destruct (Z.gtb_spec (usbStrOut d) (usbStrIn d)); lia. }
    set (ssize := if ssize0 >? max then max else ssize0).
    assert (Hs : ssize = Z.min max ssize0).
    { unfold ssize; destruct (Z.gtb_spec ssize0 max); lia. }
    cbn [usbStrIn usbStrOut usbBuff verifyDebug set_queue].
    rewrite length_firstn, length_skipn, <- Hs.
    repeat split; auto; try lia.
    destruct (Z.geb_spec (usbStrOut d + ssize) 2048) as [Hge|Hlt].
    + replace (usbStrOut d + ssize) with (0 + 1 * 2048) by lia.
      rewrite Z.mod_add by lia; reflexivity.
    + rewrite Z.mod_small by lia; reflexivity.
Qed.

Lemma usbDebugFill_inv max d :
  queue_inv d -> 0 <= max -> queue_inv (snd (usbDebugFill max d)).
Proof.
  intros Hinv Hmax.
  destruct (usbDebugFill_spec max d Hinv Hmax) as (_ & _ & Ei & Eo & Eb & _).
  destruct Hinv as (Hi & Ho & Hl); unfold queue_inv.
  rewrite Ei, Eo, Eb; repeat split; try lia;
    apply Z.mod_pos_bound; unfold USBMSGBUFFSIZE; lia.
Qed.

Lemma queue_run_inv ops : forall d,
  queue_inv d -> Forall queue_op_ok ops -> queue_inv (queue_run ops d).
Proof.
  induction ops as [|op ops IH]; intros d Hinv Hok; simpl; auto.
  inversion Hok as [|? ? Hop Hops]; subst.
  apply IH; auto.
  destruct op as [msg|max]; simpl in *.
  - now apply usbDebug_inv.
  - now apply usbDebugFill_inv.
Qed.

Lemma fill_size_pending max d :
  queue_inv d -> 0 <= max ->
  0 <= fill_size max d <= queue_pending d
  /\ queue_pending (snd (usbDebugFill max d))
     = queue_pending d - fill_size max d
  /\ (0 < max -> fill_size max d = 0 -> usbStrIn d = usbStrOut d).
Proof.
  intros Hinv Hmax.
  destruct (usbDebugFill_spec max d Hinv Hmax) as (_ & _ & Ei & Eo & _).
  unfold queue_pending; rewrite Ei, Eo; clear Ei Eo.
  destruct Hinv as (Hi & Ho & _).
  unfold fill_size, USBMSGBUFFSIZE in *.
  destruct (Z.gtb_spec (usbStrOut d) (usbStrIn d)) as [Hgt|Hle].
  - repeat split; try (Z.div_mod_to_equations; lia).
  - repeat split; try (Z.div_mod_to_equations; lia).
Qed.

Lemma usbDebugDrainAll_length fuel : forall d,
  queue_inv d -> queue_pending d <= Z.of_nat fuel ->
  Z.of_nat (length (usbDebugDrainAll fuel d)) = queue_pending d.
Proof.
  induction fuel as [|fuel IH]; intros d Hinv Hp.
  - simpl. unfold queue_pending, USBMSGBUFFSIZE in *.
    Z.div_mod_to_equations; lia.
  - cbn [usbDebugDrainAll].
    destruct (usbDebugFill_spec 64 d Hinv ltac:(lia)) as (E1 & E2 & _).
    destruct (fill_size_pending 64 d Hinv ltac:(lia)) as (B & P & Z0).
    pose proof (usbDebugFill_inv 64 d Hinv ltac:(lia)) as Hinv'.
    destruct (usbDebugFill 64 d) as [[n data] d']; cbn [fst snd] in *.
    destruct (Z.eqb_spec n 0) as [En|Nn].
    + assert (E : usbStrIn d = usbStrOut d) by (apply Z0; [lia|congruence]).
      simpl; unfold queue_pending; rewrite E, Z.sub_diag; reflexivity.
    + rewrite length_app, Nat2Z.inj_add, E2, IH; auto; lia.
Qed.

Lemma queue_contents_length d :
  queue_inv d -> Z.of_nat (length (queue_contents d)) = queue_pending d.
Proof.
  intros Hinv; apply usbDebugDrainAll_length; auto.
  unfold queue_pending, USBMSGBUFFSIZE.
  change (Z.of_nat 2048) with 2048.
  Z.div_mod_to_equations; lia.
Qed.

(** ** The registry lookup *)

Section RootFacts.

Variable sprintf : string -> list Z -> list Z.

Lemma usbDebug_fst {A} msg (x : A) d : fst ((usbDebug msg ;;; ret x) d) = x.
Proof.
  unfold bind, ret, usbDebug.
  destruct (verifyDebug d); [destruct (usbDebug_loop _ _ _)|]; reflexivity.
Qed.

Lemma usbDebug_snd {A} msg (x : A) d :
  snd ((usbDebug msg ;;; ret x) d) = snd (usbDebug msg d).
Proof.
  unfold bind, ret, usbDebug.
  destruct (verifyDebug d); [destruct (usbDebug_loop _ _ _)|]; reflexivity.
Qed.

(** Queueing a message touches the queue only. *)
Lemma usbDebug_hw msg d :
  dfuRegionList (snd (usbDebug msg d)) = dfuRegionList d
  /\ mem (snd (usbDebug msg d)) = mem d
  /\ iap_log (snd (usbDebug msg d)) = iap_log d
  /\ verifyDebug (snd (usbDebug msg d)) = verifyDebug d.
Proof.
  unfold usbDebug.
  destruct (verifyDebug d) eqn:E; [destruct (usbDebug_loop _ _ _)|];
    simpl; auto.
Qed.

Lemma isRegionValid_loop_exit fuel rl addr size v k :
  num_regions rl <= k ->
  isRegionValid_loop (S fuel) rl addr size v k = v.
Proof.
  intros Hk; cbn [isRegionValid_loop].
  destruct (Z.ltb_spec k (num_regions rl)); [lia|reflexivity].
Qed.

Lemma isRegionValid_loop_scan fuel : forall rl addr size v k,
  0 <= k <= num_regions rl ->
  num_regions rl - k + 2 <= Z.of_nat fuel ->
  first_match rl (fun r => covers_u32 r addr size) k v
              (isRegionValid_loop fuel rl addr size v k).
Proof.
  induction fuel as [|fuel IH]; intros rl addr size v k Hk Hfuel; [lia|].
  cbn [isRegionValid_loop].
  destruct (Z.ltb_spec k (num_regions rl)) as [Hlt|Hge].
  - fold (covers_u32 (region_at rl k) addr size).
    destruct (covers_u32 (region_at rl k) addr size) eqn:Hc.
    + destruct fuel as [|fuel]; [lia|].
      rewrite isRegionValid_loop_exit by lia.
      right; split; [lia|]; split; [exact Hc|]; intros j Hj; lia.
    + destruct (IH rl addr size v (k + 1) ltac:(lia) ltac:(lia))
        as [[E Hall]|(Hr & Hp & Hall)].
      * left; split; auto. intros j Hj.
        destruct (Z.eq_dec j k); [subst; auto|apply Hall; lia].
      * right; split; [lia|]; split; [exact Hp|]; intros j Hj.
        destruct (Z.eq_dec j k); [subst; auto|apply Hall; lia].
  - left; split; auto. intros j Hj; lia.
Qed.

(** What the lookup computes: the first registered region that passes the
    32-bit test, or -1. *)
Lemma algo_root_isRegionValid_first_match addr size d :
  0 <= num_regions (dfuRegionList d) ->
  first_match (dfuRegionList d) (fun r => covers_u32 r addr size) 0 (-1)
              (fst (algo_root_isRegionValid sprintf addr size d)).
Proof.
  intros Hn. unfold algo_root_isRegionValid.
  set (r := isRegionValid_loop _ _ _ _ _ _).
  assert (H : first_match (dfuRegionList d) (fun r => covers_u32 r addr size)
                          0 (-1) r).
  { apply isRegionValid_loop_scan; lia. }
  destruct (r <? 0); [|exact H].
  unfold DFUDEBUG; rewrite usbDebug_fst; exact H.
Qed.

(** Where nothing wraps, the 32-bit test is the test on the integers. *)
Lemma covers_u32_no_wrap r addr size :
  0 <= region_addr r -> 0 <= region_size r ->
  region_addr r + region_size r < 4294967296 ->
  0 <= addr -> 0 <= size -> addr + size < 4294967296 ->
  (covers_u32 r addr size = true <-> covers r addr size).
Proof.
  intros. unfold covers_u32, covers, u32.
  rewrite !Z.mod_small by lia.
  rewrite andb_true_iff, Z.geb_le, Z.leb_le. tauto.
Qed.

(** C1: the lookup of the one-byte range at the top address 0xFFFFFFFF
    gives index 0 on every registry that has a region, although no
    registered region covers that range: [addr + size] wraps to 0. *)
Theorem algo_root_isRegionValid_top_address_wraps (d : Dev) :
  1 <= num_regions (dfuRegionList d) ->
  0 <= region_addr (region_at (dfuRegionList d) 0) <= 4294967295 ->
  (forall j, 0 <= j < num_regions (dfuRegionList d) ->
     region_addr (region_at (dfuRegionList d) j)
     + region_size (region_at (dfuRegionList d) j) <= 4294967295) ->
  fst (algo_root_isRegionValid sprintf 4294967295 1 d) = 0
  /\ forall j, 0 <= j < num_regions (dfuRegionList d) ->
       ~ covers (region_at (dfuRegionList d) j) 4294967295 1.
Proof.
  intros Hn Hbase Hfit. split.
  - assert (Hc : covers_u32 (region_at (dfuRegionList d) 0) 4294967295 1
                 = true).
    { unfold covers_u32, u32. rewrite andb_true_iff, Z.geb_le, Z.leb_le.
      split; [lia|]. change ((4294967295 + 1) mod 4294967296) with 0.
      apply Z.mod_pos_bound; lia. }
    destruct (algo_root_isRegionValid_first_match 4294967295 1 d ltac:(lia))
      as [[_ Hall]|(Hr & _ & Hall)].
    + rewrite Hall in Hc by lia; discriminate.
    + destruct (Z.eq_dec (fst (algo_root_isRegionValid sprintf 4294967295 1 d))
                         0) as [E|NE]; auto.
      rewrite Hall in Hc by lia; discriminate.
  - intros j Hj [_ Hc]. specialize (Hfit j Hj). lia.
Qed.

End RootFacts.

Lemma mcb1857_region_in_32_bits j :
  0 <= j < 8 ->
  region_addr (region_at mcb1857_regionList j)
  + region_size (region_at mcb1857_regionList j) <= 4294967295.
Proof.
  intros Hj.
  assert (C : j = 0 \/ j = 1 \/ j = 2 \/ j = 3 \/ j = 4 \/ j = 5 \/ j = 6
              \/ j = 7) by lia.
  repeat (destruct C as [C|C]; [subst j; vm_compute; discriminate|]).
  subst j; vm_compute; discriminate.
Qed.

Lemma algo_root_isRegionValid_top_address_wraps_witness :
  fst (algo_root_isRegionValid sprintf_fmt 4294967295 1 (mcb1857_dev 255)) = 0
  /\ forall j, 0 <= j < num_regions (dfuRegionList (mcb1857_dev 255)) ->
       ~ covers (region_at (dfuRegionList (mcb1857_dev 255)) j) 4294967295 1.
Proof.
  apply (algo_root_isRegionValid_top_address_wraps sprintf_fmt
           (mcb1857_dev 255)).
  - simpl; lia.
  - vm_compute; split; discriminate.
  - exact mcb1857_region_in_32_bits.
Defined.

(** ** The FLASH bank of an address *)

Section FlashBankFacts.

Variable sprintf : string -> list Z -> list Z.
Variable oob : DFUPROG_REGION_T.

Lemma findbank_loop_cases addr :
  (findbank_loop oob 3 addr 0 = 0 /\ 436207616 <= addr < 436731904)
  \/ (findbank_loop oob 3 addr 0 = 1 /\ 452984832 <= addr < 453509120)
  \/ (findbank_loop oob 3 addr 0 = 2
      /\ ~ 436207616 <= addr < 436731904
      /\ ~ 452984832 <= addr < 453509120).
Proof.
  cbn [findbank_loop].
  change (0 <? intflash_PROGRAM_REGIONS) with true.
  change (0 + 1 <? intflash_PROGRAM_REGIONS) with true.
  change (0 + 1 + 1 <? intflash_PROGRAM_REGIONS) with false.
  change (intflash_pregion oob 0)
    with (mkRegion 436207616 524288 "FLASH bank A" ALGO_INTFLASH 512).
  change (intflash_pregion oob (0 + 1))
    with (mkRegion 452984832 524288 "FLASH bank B" ALGO_INTFLASH 512).
  cbn [region_addr region_size].
  change (u32 (436207616 + 524288)) with 436731904.
  change (u32 (452984832 + 524288)) with 453509120.
  change (0 + 1 + 1) with 2. change (0 + 1) with 1.
  destruct (Z.geb_spec addr 436207616), (Z.ltb_spec addr 436731904),
    (Z.geb_spec addr 452984832), (Z.ltb_spec addr 453509120);
    cbn [andb]; lia.
Qed.

Lemma progalgo_iflash_findbank_fst addr d :
  fst (progalgo_iflash_findbank sprintf oob addr d) = findbank_loop oob 3 addr 0.
Proof.
  unfold progalgo_iflash_findbank, bind, ret.
  destruct (algo_root_isRegionValid sprintf addr 0 d); reflexivity.
Qed.

(** C10: [progalgo_iflash_findbank] gives 0 or 1, the bank whose address
    range holds the address, or 2 when neither does; the value is never
    negative, so [progalgo_iflash_progaddrvalid] never takes its
    [bank < 0] branch. *)
Theorem progalgo_iflash_findbank_range (addr : Z) (d : Dev) :
  let bank := fst (progalgo_iflash_findbank sprintf oob addr d) in
  ((bank = 0 /\ 436207616 <= addr < 436207616 + 524288)
   \/ (bank = 1 /\ 452984832 <= addr < 452984832 + 524288)
   \/ (bank = intflash_PROGRAM_REGIONS
       /\ ~ 436207616 <= addr < 436207616 + 524288
       /\ ~ 452984832 <= addr < 452984832 + 524288))
  /\ (bank <? 0) = false
  /\ forall size,
       progalgo_iflash_progaddrvalid sprintf oob addr size d
       = progaddrvalid_without_bank_check sprintf oob addr size d.
Proof.
  intros bank.
  assert (Hb : bank = findbank_loop oob 3 addr 0)
    by apply progalgo_iflash_findbank_fst.
  pose proof (findbank_loop_cases addr) as Hc. rewrite <- Hb in Hc.
  assert (Hn : (bank <? 0) = false).
  { apply Z.ltb_ge. destruct Hc as [[E _]|[[E _]|[E _]]]; rewrite E; lia. }
  split; [|split; [exact Hn|]].
  - unfold intflash_PROGRAM_REGIONS.
    destruct Hc as [[E H]|[[E H]|[E H]]]; [left|right; left|right; right];
      split; auto; lia.
  - intros size.
    unfold progalgo_iflash_progaddrvalid, progaddrvalid_without_bank_check.
    unfold bind. subst bank.
    destruct (progalgo_iflash_findbank sprintf oob addr d) as [b d'].
    cbn [fst] in Hn. rewrite Hn. reflexivity.
Qed.

End FlashBankFacts.

(** ** The root dispatcher *)

Section DispatchFacts.

Variable sprintf : string -> list Z -> list Z.
Variable palgos_of : ALGO -> PROGALGOS_T.

Lemma algo_root_isRegionValid_state addr size d :
  snd (algo_root_isRegionValid sprintf addr size d)
  = if fst (algo_root_isRegionValid sprintf addr size d) <? 0
    then snd (DFUDEBUG sprintf
                "Op on invalid region address/size: %p/%p %d\n"
                [addr; size; fst (algo_root_isRegionValid sprintf addr size d)]
                d)
    else d.
Proof.
  unfold algo_root_isRegionValid.
  set (r := isRegionValid_loop _ _ _ _ _ _).
  destruct (r <? 0) eqn:E.
  - unfold DFUDEBUG. rewrite usbDebug_fst, usbDebug_snd, E. reflexivity.
  - cbn [fst snd]. rewrite E. reflexivity.
Qed.

Lemma DFUDEBUG_hw fmt args d :
  hw_untouched d (snd (DFUDEBUG sprintf fmt args d)).
Proof.
  unfold hw_untouched, DFUDEBUG.
  destruct (usbDebug_hw (sprintf fmt args) d) as (A & B & C & _); auto.
Qed.

Lemma hw_untouched_trans d1 d2 d3 :
  hw_untouched d1 d2 -> hw_untouched d2 d3 -> hw_untouched d1 d3.
Proof.
  unfold hw_untouched; intros (A & B & C) (A' & B' & C').
  rewrite A', B', C'; auto.
Qed.

Lemma algo_root_isRegionValid_hw addr size d :
  hw_untouched d (snd (algo_root_isRegionValid sprintf addr size d)).
Proof.
  rewrite algo_root_isRegionValid_state.
  destruct (_ <? 0); [apply DFUDEBUG_hw|unfold hw_untouched; auto].
Qed.

(** The shape every root operation has: look the range up, fail with a
    message, or call the driver. *)
Lemma root_dispatch {A} (addr size : Z) (fmt : string) (args : Z -> list Z)
    (fail : A) (call : Z -> M A) (d : Dev) :
  let idx := fst (algo_root_isRegionValid sprintf addr size d) in
  let op := (regIndex <- algo_root_isRegionValid sprintf addr size ;;
             if regIndex <? 0 then DFUDEBUG sprintf fmt (args regIndex) ;;; ret fail
             else call regIndex) in
  if idx <? 0 then
    op d = (fail,
            snd (DFUDEBUG sprintf fmt (args idx)
                   (snd (algo_root_isRegionValid sprintf addr size d))))
    /\ hw_untouched d (snd (op d))
  else op d = call idx d.
Proof.
  intros idx op.
  pose proof (algo_root_isRegionValid_state addr size d) as Hs.
  pose proof (algo_root_isRegionValid_hw addr size d) as Hh.
  assert (Hop : op d
                = if idx <? 0
                  then (fail,
                        snd (DFUDEBUG sprintf fmt (args idx)
                               (snd (algo_root_isRegionValid sprintf addr size d))))
                  else call idx d).
  { unfold op, bind at 1. subst idx.
    destruct (algo_root_isRegionValid sprintf addr size d) as [i d1].
    cbn [fst snd] in *.
    destruct (i <? 0).
    - unfold DFUDEBUG.
      rewrite (surjective_pairing ((usbDebug _ ;;; ret fail) d1)).
      rewrite usbDebug_fst, usbDebug_snd. reflexivity.
    - subst d1. reflexivity. }
  rewrite Hop. destruct (idx <? 0); [|reflexivity].
  split; [reflexivity|]. cbn [snd].
  eapply hw_untouched_trans; [exact Hh|apply DFUDEBUG_hw].
Qed.

(** C6: each root operation looks the range up first.  When the lookup
    gives no region it queues its diagnostic and returns 0 ([false] for
    close), and registry, memory and IAP log are as before: no driver ran.
    When the lookup gives a region the operation is the call of that
    region's driver function, whose return value it returns ([true] after
    the driver's close, which returns nothing). *)
Theorem algo_root_ops_dispatch (buff : list Z) (addr size : Z) (d : Dev) :
  let idx := fst (algo_root_isRegionValid sprintf addr size d) in
  let idx0 := fst (algo_root_isRegionValid sprintf addr 0 d) in
  let lookup := snd (algo_root_isRegionValid sprintf addr size d) in
  let lookup0 := snd (algo_root_isRegionValid sprintf addr 0 d) in
  let region i := region_at (dfuRegionList d) i in
  let algos i := palgos_of (pprogalgos (region i)) in
  (if idx <? 0 then
     algo_root_erase_region sprintf palgos_of addr size d
     = (0, snd (DFUDEBUG sprintf "erase_region invalid: %p:%p\n"
                         [addr; size] lookup))
     /\ hw_untouched d (snd (algo_root_erase_region sprintf palgos_of
                                                    addr size d))
   else algo_root_erase_region sprintf palgos_of addr size d
        = erase_region (algos idx) addr size d)
  /\ (if idx0 <? 0 then
        algo_root_erase_all sprintf palgos_of addr d
        = (0, snd (DFUDEBUG sprintf "eraseall_region invalid: %p %d\n"
                            [addr; idx0] lookup0))
        /\ hw_untouched d (snd (algo_root_erase_all sprintf palgos_of addr d))
      else algo_root_erase_all sprintf palgos_of addr d
           = erase_all (algos idx0) (region_addr (region idx0))
                       (region_size (region idx0)) d)
  /\ (if idx <? 0 then
        algo_root_write sprintf palgos_of buff addr size d
        = ((0, buff), snd (DFUDEBUG sprintf "write_region invalid: %p:%p\n"
                                    [addr; size] lookup))
        /\ hw_untouched d (snd (algo_root_write sprintf palgos_of buff
                                                addr size d))
      else algo_root_write sprintf palgos_of buff addr size d
           = write (algos idx) buff addr size d)
  /\ (if idx <? 0 then
        algo_root_read sprintf palgos_of buff addr size d
        = ((0, buff), snd (DFUDEBUG sprintf "read_region invalid: %p:%p\n"
                                    [addr; size] lookup))
        /\ hw_untouched d (snd (algo_root_read sprintf palgos_of buff
                                               addr size d))
      else algo_root_read sprintf palgos_of buff addr size d
           = read (algos idx) buff addr size d)
  /\ (if idx0 <? 0 then
        algo_root_close sprintf palgos_of addr d
        = (false, snd (DFUDEBUG sprintf "close_region invalid: %p\n"
                                [addr] lookup0))
        /\ hw_untouched d (snd (algo_root_close sprintf palgos_of addr d))
      else algo_root_close sprintf palgos_of addr d
           = (true, snd (close (algos idx0) addr d))).
Proof.
  intros idx idx0 lookup lookup0 region algos.
  repeat split.
  - exact (root_dispatch addr size "erase_region invalid: %p:%p\n"
             (fun _ => [addr; size]) 0
             (fun i d => erase_region
                           (palgos_of (pprogalgos (region_at (dfuRegionList d) i)))
                           addr size d) d).
  - exact (root_dispatch addr 0 "eraseall_region invalid: %p %d\n"
             (fun i => [addr; i]) 0
             (fun i d =>
                erase_all
                  (palgos_of (pprogalgos (region_at (dfuRegionList d) i)))
                  (region_addr (region_at (dfuRegionList d) i))
                  (region_size (region_at (dfuRegionList d) i)) d) d).
  - exact (root_dispatch addr size "write_region invalid: %p:%p\n"
             (fun _ => [addr; size]) (0, buff)
             (fun i d => write
                           (palgos_of (pprogalgos (region_at (dfuRegionList d) i)))
                           buff addr size d) d).
  - exact (root_dispatch addr size "read_region invalid: %p:%p\n"
             (fun _ => [addr; size]) (0, buff)
             (fun i d => read
                           (palgos_of (pprogalgos (region_at (dfuRegionList d) i)))
                           buff addr size d) d).
  - pose proof (root_dispatch addr 0 "close_region invalid: %p\n"
             (fun _ => [addr]) false
             (fun i => (fun d =>
                close (palgos_of (pprogalgos (region_at (dfuRegionList d) i)))
                      addr d) ;;; ret true) d) as H.
    cbn zeta in H. fold idx0 lookup0 in H.
    destruct (idx0 <? 0); [exact H|].
    unfold algo_root_close. rewrite H. unfold bind, ret.
    destruct (close _ addr d) as [[] d']; reflexivity.
Qed.

End DispatchFacts.

(** ** OUT packets while streaming program data *)

Section StreamFacts.

Variable sprintf : string -> list Z -> list Z.

(** C2, as the code has it: in [DFU_OPSTS_PROG_STREAM] a zero-length OUT
    packet keeps the state, drops what was staged (the staging index goes
    back to 0) and hands nothing to the executor; the state becomes
    [DFU_OPSTS_PROG], with the staged byte count as chunk size, only on a
    packet of non-zero length after which the staging index equals the
    buffer size or the remaining size. *)
Theorem dfu_wr_prog_stream (pOutHdr : DFU_FROMHOST_PACKETHDR_T)
    (pBuff : PBuff) (length : Z) (s : Session) (d : Dev) :
  currStatus s = DFU_OPSTS_PROG_STREAM ->
  let r := dfu_wr sprintf pOutHdr pBuff length s d in
  let pBuff' := fst (fst r) in
  let s' := snd (fst r) in
  let staged := u32 (outPktSizeIdx s + length) in
  snd r = d
  /\ if length =? 0 then
       currStatus s' = DFU_OPSTS_PROG_STREAM
       /\ outPktSizeIdx s' = 0
       /\ progSize s' = progSize s
       /\ currCmdSize s' = currCmdSize s
       /\ pBuff' = mkPBuff BUF_dfuProgBuff 0
     else if (staged =? buffer_size s) || (staged =? currCmdSize s) then
       currStatus s' = DFU_OPSTS_PROG
       /\ progSize s' = staged
       /\ currCmdSize s' = u32 (currCmdSize s - staged)
       /\ outPktSizeIdx s' = 0
       /\ pBuff' = mkPBuff BUF_dfuIn 0
     else
       currStatus s' = DFU_OPSTS_PROG_STREAM
       /\ outPktSizeIdx s' = staged
       /\ progSize s' = progSize s
       /\ currCmdSize s' = currCmdSize s
       /\ pBuff' = pb_add pBuff length.
Proof.
  intros Hst r pBuff' s' staged. subst r pBuff' s' staged.
  unfold dfu_wr.
  destruct (length =? 0) eqn:El; cbn [negb].
  - rewrite Hst. cbn. repeat split; auto.
  - cbn [currStatus set_outPktSizeIdx]. rewrite Hst.
    cbn [outPktSizeIdx buffer_size currCmdSize set_outPktSizeIdx].
    destruct ((u32 (outPktSizeIdx s + length) =? buffer_size s)
              || (u32 (outPktSizeIdx s + length) =? currCmdSize s));
      cbn; repeat split; auto.
Qed.

End StreamFacts.

Lemma dfu_wr_prog_stream_witness :
  let r := dfu_wr sprintf_fmt program_hdr (mkPBuff BUF_dfuProgBuff 100) 200
                  streaming_session (mcb1857_dev 255) in
  snd r = mcb1857_dev 255
  /\ currStatus (snd (fst r)) = DFU_OPSTS_PROG
  /\ progSize (snd (fst r)) = 300
  /\ currCmdSize (snd (fst r)) = 0
  /\ outPktSizeIdx (snd (fst r)) = 0
  /\ fst (fst r) = mkPBuff BUF_dfuIn 0.
Proof.
  exact (dfu_wr_prog_stream sprintf_fmt program_hdr
           (mkPBuff BUF_dfuProgBuff 100) 200 streaming_session
           (mcb1857_dev 255) eq_refl).
Defined.

(** C2, as stated, fails: with 100 bytes staged, a zero-length OUT packet
    leaves the state in [DFU_OPSTS_PROG_STREAM] and the chunk size at 0;
    [dfu_done], the callback for the end of a download, only sets a flag. *)
Lemma dfu_wr_zero_length_not_programming :
  let s' := snd (fst (dfu_wr sprintf_fmt program_hdr
                             (mkPBuff BUF_dfuProgBuff 100) 0
                             streaming_session (mcb1857_dev 255))) in
  currStatus streaming_session = DFU_OPSTS_PROG_STREAM
  /\ outPktSizeIdx streaming_session = 100
  /\ currStatus s' <> DFU_OPSTS_PROG
  /\ progSize s' <> 100
  /\ currStatus (dfu_done s') <> DFU_OPSTS_PROG
  /\ progSize (dfu_done s') <> 100.
Proof.
  cbn. repeat split; discriminate.
Qed.

(** ** The background loop in [DFU_OPSTS_PROG] *)

Section ProgramFacts.

Variable sprintf : string -> list Z -> list Z.
Variable null_region_addr : Z.
Variable palgos_of : ALGO -> PROGALGOS_T.

(** C3: one pass of the background loop in [DFU_OPSTS_PROG].  With a chunk
    size of 0 the state becomes idle.  Otherwise the staged chunk goes to
    [algo_root_write]; a return value other than the chunk size gives
    [DFU_OPSTS_PROGER]; else a chunk below the buffer size, or a remaining
    size of 0, gives idle; else the state is [DFU_OPSTS_PROG_STREAM] again
    and the address has moved on by the chunk size. *)
Theorem dfu_util_process_prog (s : Session) (d : Dev) :
  currStatus s = DFU_OPSTS_PROG ->
  let w := algo_root_write sprintf palgos_of (dfuProgBuff s) (currCmdAddr s)
                           (progSize s) d in
  exists s' d',
    dfu_util_process_step sprintf null_region_addr palgos_of s d
    = Continue s' d'
    /\ if progSize s =? 0 then
         currStatus s' = DFU_OPSTS_IDLE /\ d' = d
       else
         d' = snd w
         /\ if negb (u32 (fst (fst w)) =? progSize s) then
              currStatus s' = DFU_OPSTS_PROGER
            else if (progSize s <? buffer_size s) || (currCmdSize s =? 0) then
              currStatus s' = DFU_OPSTS_IDLE
            else
              currStatus s' = DFU_OPSTS_PROG_STREAM
              /\ currCmdAddr s' = u32 (currCmdAddr s + progSize s).
Proof.
  intros Hst w. subst w. unfold dfu_util_process_step. rewrite Hst.
  destruct (progSize s =? 0).
  - eexists; eexists; split; [reflexivity|]. split; reflexivity.
  - destruct (algo_root_write sprintf palgos_of (dfuProgBuff s)
                (currCmdAddr s) (progSize s) d) as [[n b] d1].
    cbn [fst snd progSize buffer_size currCmdSize set_dfuProgBuff].
    destruct (negb (u32 n =? progSize s));
      [|destruct ((progSize s <? buffer_size s) || (currCmdSize s =? 0))];
      eexists; eexists; (split; [reflexivity|]); repeat split; reflexivity.
Qed.

End ProgramFacts.

Lemma dfu_util_process_prog_witness :
  let s := programming_session in
  let d := mcb1857_dev 0 in
  let w := algo_root_write sprintf_fmt lpc_palgos_of (dfuProgBuff s)
                           (currCmdAddr s) (progSize s) d in
  exists s' d',
    dfu_util_process_step sprintf_fmt 0 lpc_palgos_of s d = Continue s' d'
    /\ if progSize s =? 0 then
         currStatus s' = DFU_OPSTS_IDLE /\ d' = d
       else
         d' = snd w
         /\ if negb (u32 (fst (fst w)) =? progSize s) then
              currStatus s' = DFU_OPSTS_PROGER
            else if (progSize s <? buffer_size s) || (currCmdSize s =? 0) then
              currStatus s' = DFU_OPSTS_IDLE
            else
              currStatus s' = DFU_OPSTS_PROG_STREAM
              /\ currCmdAddr s' = u32 (currCmdAddr s + progSize s).
Proof.
  exact (dfu_util_process_prog sprintf_fmt 0 lpc_palgos_of programming_session
           (mcb1857_dev 0) eq_refl).
Defined.

(** ** The magic value of a command packet *)

Section MagicFacts.

Variable sprintf : string -> list Z -> list Z.

(** C7: a command packet (an OUT packet of non-zero length outside
    [DFU_OPSTS_PROG_STREAM]) whose magic value differs from
    [DFUPROG_VALIDVAL] is dispatched exactly as the same packet with the
    right value would be, after the version warning was handed to
    [usbDebug], the diagnostic sink.  The sink queues the warning: the write
    index moves by its length, and only the queue changes.  A sink that was
    switched to quiet mode drops it, as it drops every text. *)
Theorem dfu_wr_magic_mismatch (pOutHdr : DFU_FROMHOST_PACKETHDR_T)
    (pBuff : PBuff) (length : Z) (s : Session) (d : Dev) :
  currStatus s <> DFU_OPSTS_PROG_STREAM ->
  length <> 0 ->
  hdr_magic pOutHdr <> DFUPROG_VALIDVAL ->
  queue_inv d ->
  let warned := snd (usbDebug (sprintf version_warning []) d) in
  dfu_wr sprintf pOutHdr pBuff length s d
  = dfu_wr sprintf (with_valid_magic pOutHdr) pBuff length s warned
  /\ hw_untouched d warned
  /\ usbStrOut warned = usbStrOut d
  /\ if verifyDebug d then
       usbStrIn warned
       = (usbStrIn d + c_strlen (sprintf version_warning []))
         mod USBMSGBUFFSIZE
     else warned = d.
Proof.
  intros Hst Hlen Hmagic Hinv warned.
  split; [|split; [|split]].
  - unfold dfu_wr.
    destruct (length =? 0) eqn:El; [apply Z.eqb_eq in El; contradiction|].
    cbn [negb currStatus set_outPktSizeIdx].
    assert (E1 : snd (checkMagicHeader sprintf pOutHdr d) = warned).
    { unfold checkMagicHeader.
      destruct (hdr_magic pOutHdr =? DFUPROG_VALIDVAL) eqn:Em;
        [apply Z.eqb_eq in Em; contradiction|].
      cbn [negb andb]. unfold DFUDEBUG. apply usbDebug_snd. }
    assert (E2 : snd (checkMagicHeader sprintf (with_valid_magic pOutHdr)
                                       warned) = warned).
    { unfold checkMagicHeader, with_valid_magic. cbn [hdr_magic].
      rewrite Z.eqb_refl. reflexivity. }
    rewrite E1, E2.
    destruct (currStatus s); try reflexivity. contradiction.
  - destruct (usbDebug_hw (sprintf version_warning []) d) as (A & B & C & _).
    unfold hw_untouched; auto.
  - apply usbDebug_index; exact Hinv.
  - destruct (usbDebug_index (sprintf version_warning []) d Hinv) as [Ei _].
    fold warned in Ei.
    destruct (verifyDebug d) eqn:Ev; [exact Ei|].
    unfold warned, usbDebug. rewrite Ev. reflexivity.
Qed.

End MagicFacts.

Lemma dfu_wr_magic_mismatch_witness :
  let d := mcb1857_dev 255 in
  let warned := snd (usbDebug (sprintf_fmt version_warning []) d) in
  dfu_wr sprintf_fmt old_tool_hdr (mkPBuff BUF_dfuIn 0) 16 idle_session d
  = dfu_wr sprintf_fmt (with_valid_magic old_tool_hdr) (mkPBuff BUF_dfuIn 0)
           16 idle_session warned
  /\ hw_untouched d warned
  /\ usbStrOut warned = usbStrOut d
  /\ if verifyDebug d then
       usbStrIn warned
       = (usbStrIn d + c_strlen (sprintf_fmt version_warning []))
         mod USBMSGBUFFSIZE
     else warned = d.
Proof.
  apply (dfu_wr_magic_mismatch sprintf_fmt old_tool_hdr (mkPBuff BUF_dfuIn 0)
           16 idle_session (mcb1857_dev 255)).
  - simpl; discriminate.
  - lia.
  - vm_compute; discriminate.
  - unfold queue_inv; vm_compute; repeat split; discriminate.
Defined.

(** ** Readback *)

Lemma u32_small x : 0 <= x < 4294967296 -> u32 x = x.
Proof. intros; unfold u32; apply Z.mod_small; lia. Qed.

Lemma u32_s32 x : u32 (s32 x) = u32 x.
Proof.
  unfold s32. destruct (u32 x <? 2147483648) eqn:E.
  - unfold u32. apply Z.mod_mod. lia.
  - unfold u32.
    replace (x mod 4294967296 - 4294967296)
      with (x mod 4294967296 + (-1) * 4294967296) by lia.
    rewrite Z.mod_add by lia. apply Z.mod_mod. lia.
Qed.

Lemma u32_add_u32_r a b : u32 (a + u32 b) = u32 (a + b).
Proof. unfold u32. apply Z.add_mod_idemp_r. lia. Qed.

Lemma total_nonneg ls : Forall in_length ls -> 0 <= total ls.
Proof.
  induction 1 as [|x xs Hx _ IHx]; unfold total in *; cbn; [lia|].
  unfold in_length in Hx. lia.
Qed.

Section ReadbackFacts.

Variable sprintf : string -> list Z -> list Z.
Variable null_region_addr : Z.
Variable palgos_of : ALGO -> PROGALGOS_T.

(** One pass of the background loop in [DFU_OPSTS_READBUSY]. *)
Lemma dfu_util_process_readbusy s d :
  currStatus s = DFU_OPSTS_READBUSY ->
  0 <= currCmdSize s < 4294967296 ->
  0 <= buffer_size s < 4294967296 ->
  let blks := Z.min (currCmdSize s) (buffer_size s) in
  let r := algo_root_read sprintf palgos_of (dfuProgBuff s) (currCmdAddr s)
                          blks d in
  exists s',
    dfu_util_process_step sprintf null_region_addr palgos_of s d
    = Continue s' (snd r)
    /\ dfuProgBuff s' = snd (fst r)
    /\ currCmdSize s' = currCmdSize s
    /\ if fst (fst r) =? 0 then
         currStatus s' = DFU_OPSTS_READER /\ currCmdAddr s' = currCmdAddr s
       else
         currStatus s' = DFU_OPSTS_READTRIG
         /\ currCmdAddr s' = u32 (currCmdAddr s + blks).
Proof.
  intros Hst Hn Hbs blks r.
  unfold dfu_util_process_step. rewrite Hst.
  set (b := if u32 (s32 (currCmdSize s)) >? buffer_size s
            then s32 (buffer_size s) else s32 (currCmdSize s)).
  assert (Hb : u32 b = blks).
  { unfold b, blks. rewrite u32_s32, (u32_small (currCmdSize s)) by lia.
    destruct (Z.gtb_spec (currCmdSize s) (buffer_size s)).
    - rewrite u32_s32, u32_small by lia. lia.
    - rewrite u32_s32, u32_small by lia. lia. }
  rewrite Hb. fold r.
  assert (Ha : u32 (currCmdAddr s + b) = u32 (currCmdAddr s + blks)).
  { rewrite <- Hb. symmetry. apply u32_add_u32_r. }
  destruct r as [[n buf] d1]. cbn [fst snd].
  destruct (n =? 0).
  - eexists; split; [reflexivity|]. cbn. auto.
  - eexists; split; [reflexivity|]. cbn. rewrite Ha. auto.
Qed.

(** The status packet is never empty. *)
Lemma usbDFUReturnStatus_size s d :
  u32 (fst (fst (usbDFUReturnStatus s d))) <> 0.
Proof.
  unfold usbDFUReturnStatus, usbDFUBuildStatus, bind, ret.
  destruct (usbDebugFill 64 d) as [[n data] d']. cbn [fst snd].
  destruct (negb (n =? 0)); vm_compute; discriminate.
Qed.

(** An IN request in [DFU_OPSTS_READTRIG]. *)
(** The status packet has 16 bytes, or 80 with debug text. *)
Lemma usbDFUReturnStatus_16_80 s d :
  fst (fst (usbDFUReturnStatus s d)) = 16
  \/ fst (fst (usbDFUReturnStatus s d)) = 80.
Proof.
  unfold usbDFUReturnStatus, usbDFUBuildStatus, bind, ret.
  destruct (usbDebugFill 64 d) as [[n data] d']. cbn [fst snd].
  destruct (negb (n =? 0)); [right|left]; reflexivity.
Qed.

Lemma dfu_rd_readtrig length s d :
  currStatus s = DFU_OPSTS_READTRIG ->
  currStatus (snd (fst (dfu_rd sprintf length s d))) = DFU_OPSTS_READREADY
  /\ currCmdSize (snd (fst (dfu_rd sprintf length s d))) = currCmdSize s
  /\ currCmdAddr (snd (fst (dfu_rd sprintf length s d))) = currCmdAddr s.
Proof.
  intros Hst. unfold dfu_rd.
  set (s0 := if length =? 0 then set_inPktSize s 0 else s).
  assert (Hs0 : currStatus s0 = DFU_OPSTS_READTRIG
                /\ currCmdSize s0 = currCmdSize s
                /\ currCmdAddr s0 = currCmdAddr s).
  { unfold s0; destruct (length =? 0); cbn; auto. }
  destruct Hs0 as (H1 & H2 & H3). rewrite H1. unfold dfu_rd_status.
  destruct (inPktSize s0 =? 0) eqn:E0.
  - pose proof (usbDFUReturnStatus_size s0 d) as Hsz.
    destruct (usbDFUReturnStatus s0 d) as [[n out] d']. cbn [fst snd] in *.
    cbn [inPktSize set_inPktSizeIdx set_inPktSize].
    destruct (u32 n =? 0) eqn:En; [apply Z.eqb_eq in En; contradiction|].
    cbn. rewrite H1. cbn. auto.
  - rewrite E0. cbn [negb]. rewrite H1. cbn. auto.
Qed.

(** The first IN request for a chunk in [DFU_OPSTS_READREADY]. *)
Lemma dfu_rd_readready_first l s d n bs :
  draining s n 0 bs ->
  0 <= n < 4294967296 -> 0 <= bs < 4294967296 -> 0 <= l < 4294967296 ->
  let chunk := Z.min n bs in
  let s' := snd (fst (dfu_rd sprintf l s d)) in
  snd (dfu_rd sprintf l s d) = d
  /\ fst (fst (fst (dfu_rd sprintf l s d))) = (if chunk =? 0 then l else Z.min l chunk)
  /\ currCmdSize s' = n - chunk
  /\ inPktSize s' = chunk - Z.min l chunk
  /\ buffer_size s' = bs
  /\ currCmdAddr s' = currCmdAddr s
  /\ currStatus s'
     = if chunk - Z.min l chunk =? 0
       then (if n - chunk =? 0 then DFU_OPSTS_IDLE else DFU_OPSTS_READBUSY)
       else DFU_OPSTS_READREADY.
Proof.
  intros (Hst & Hn & Hk & Hbs) Rn Rbs Rl chunk s'. subst s'.
  unfold dfu_rd.
  set (s0 := if l =? 0 then set_inPktSize s 0 else s).
  assert (Hs0 : currStatus s0 = DFU_OPSTS_READREADY /\ currCmdSize s0 = n
                /\ inPktSize s0 = 0 /\ buffer_size s0 = bs
                /\ currCmdAddr s0 = currCmdAddr s).
  { unfold s0; destruct (l =? 0); cbn; auto. }
  destruct Hs0 as (H1 & H2 & H3 & H4 & H5). rewrite H1.
  unfold dfu_rd_readready. rewrite H3. cbn [Z.eqb].
  cbn [inPktSize set_inPktSize buffer_size currCmdSize set_currCmdSize
       set_inPktSizeIdx inPktSizeIdx].
  rewrite H2, H4.
  assert (Hc : inPktSize (if n >? bs
                          then set_inPktSize (set_inPktSize s0 n) bs
                          else set_inPktSize s0 n) = chunk
               /\ currCmdSize (if n >? bs
                               then set_inPktSize (set_inPktSize s0 n) bs
                               else set_inPktSize s0 n) = n
               /\ buffer_size (if n >? bs
                               then set_inPktSize (set_inPktSize s0 n) bs
                               else set_inPktSize s0 n) = bs
               /\ currCmdAddr (if n >? bs
                               then set_inPktSize (set_inPktSize s0 n) bs
                               else set_inPktSize s0 n) = currCmdAddr s).
  { unfold chunk. destruct (Z.gtb_spec n bs); cbn; repeat split; auto; lia. }
  set (t := if n >? bs then set_inPktSize (set_inPktSize s0 n) bs
            else set_inPktSize s0 n) in *.
  destruct Hc as (C1 & C2 & C3 & C4).
  cbn [inPktSize set_inPktSize buffer_size currCmdSize set_currCmdSize
       set_inPktSizeIdx inPktSizeIdx dfuProgBuff].
  rewrite C1, C2.
  assert (Hch : 0 <= chunk <= n) by (unfold chunk; lia).
  rewrite (u32_small (n - chunk)) by lia.
  destruct (Z.eqb_spec chunk 0) as [E|NE].
  - cbn [negb]. cbn [inPktSize set_inPktSize buffer_size currCmdSize
                     set_currCmdSize set_inPktSizeIdx inPktSizeIdx
                     currStatus set_currStatus].
    rewrite C1. rewrite E. cbn [Z.eqb].
    replace (0 - Z.min l 0) with 0 by lia. cbn [Z.eqb].
    destruct (n - 0 =? 0); cbn; rewrite ?C3, ?C4; repeat split; auto; lia.
  - cbn [negb].
    set (l1 := if l >? chunk then chunk else l).
    assert (Hl1 : l1 = Z.min l chunk)
      by (unfold l1; destruct (Z.gtb_spec l chunk); lia).
    cbn [inPktSize set_inPktSize buffer_size currCmdSize set_currCmdSize
         set_inPktSizeIdx inPktSizeIdx currStatus set_currStatus].
    rewrite (u32_small (chunk - l1)) by lia. rewrite <- Hl1.
    destruct (chunk - l1 =? 0); [destruct (n - chunk =? 0)|];
      cbn; rewrite ?C3, ?C4, ?H1; repeat split; auto;
      unfold t; destruct (n >? bs); cbn; auto.
Qed.

(** A further IN request for a chunk that is partly handed out. *)
Lemma dfu_rd_readready_next l s d n k bs :
  draining s n k bs ->
  0 < k < 4294967296 -> in_length l ->
  let s' := snd (fst (dfu_rd sprintf l s d)) in
  snd (dfu_rd sprintf l s d) = d
  /\ currCmdSize s' = n
  /\ inPktSize s' = k - Z.min l k
  /\ buffer_size s' = bs
  /\ currCmdAddr s' = currCmdAddr s
  /\ currStatus s'
     = if k - Z.min l k =? 0
       then (if n =? 0 then DFU_OPSTS_IDLE else DFU_OPSTS_READBUSY)
       else DFU_OPSTS_READREADY.
Proof.
  intros (Hst & Hn & Hk & Hbs) Rk Rl s'. subst s'. unfold in_length in Rl.
  unfold dfu_rd.
  destruct (Z.eqb_spec l 0) as [E|_]; [lia|].
  rewrite Hst. unfold dfu_rd_readready. rewrite Hk.
  destruct (Z.eqb_spec k 0) as [E|_]; [lia|]. rewrite Hk.
  destruct (Z.eqb_spec k 0) as [E|_]; [lia|]. cbn [negb].
  set (l1 := if l >? k then k else l).
  assert (Hl1 : l1 = Z.min l k)
    by (unfold l1; destruct (Z.gtb_spec l k); lia).
  cbn [inPktSize set_inPktSize buffer_size currCmdSize set_currCmdSize
       set_inPktSizeIdx inPktSizeIdx currStatus set_currStatus].
  rewrite Hn, (u32_small (k - l1)) by lia. rewrite <- Hl1.
  destruct (k - l1 =? 0); [destruct (n =? 0)|];
    cbn; rewrite ?Hst; repeat split; auto.
Qed.

(** Requests that together stay below what is left of the chunk leave the
    session draining. *)
Lemma dfu_rd_run_draining ls : forall s d n k bs,
  draining s n k bs ->
  0 < k < 4294967296 ->
  Forall in_length ls ->
  total ls < k ->
  draining (fst (dfu_rd_run sprintf ls s d)) n (k - total ls) bs
  /\ snd (dfu_rd_run sprintf ls s d) = d.
Proof.
  induction ls as [|l ls IH]; intros s d n k bs Hd Rk Hls Ht.
  - cbn. rewrite Z.sub_0_r. auto.
  - inversion Hls as [|? ? Hl Hls']; subst.
    pose proof (total_nonneg ls Hls') as Hnn.
    cbn [total fold_right] in Ht. fold (total ls) in Ht.
    pose proof Hl as Hl'. unfold in_length in Hl'.
    destruct (dfu_rd_readready_next l s d n k bs Hd Rk Hl)
      as (Ed & E1 & E2 & E3 & _ & E5).
    rewrite Z.min_l in E2, E5 by lia.
    destruct (Z.eqb_spec (k - l) 0) as [E|_]; [lia|].
    cbn [dfu_rd_run]. rewrite Ed.
    destruct (IH (snd (fst (dfu_rd sprintf l s d))) d n (k - l) bs)
      as [Hd' Ed']; auto; try lia.
    { unfold draining; auto. }
    split; [|exact Ed'].
    cbn [total fold_right]. fold (total ls).
    replace (k - (l + total ls)) with (k - l - total ls) by lia.
    exact Hd'.
Qed.

Lemma dfu_rd_run_app ls1 : forall ls2 s d,
  dfu_rd_run sprintf (ls1 ++ ls2) s d
  = dfu_rd_run sprintf ls2 (fst (dfu_rd_run sprintf ls1 s d))
                       (snd (dfu_rd_run sprintf ls1 s d)).
Proof.
  induction ls1 as [|l ls1 IH]; intros ls2 s d; cbn; auto.
Qed.

(** IN requests that hand out one chunk, the last of them completing it. *)
Lemma dfu_rd_run_chunk ls l s d n bs :
  draining s n 0 bs ->
  0 <= n < 4294967296 -> 0 <= bs < 4294967296 ->
  Forall in_length ls -> 0 <= l < 4294967296 ->
  ls = [] \/ total ls < Z.min n bs ->
  Z.min n bs <= total ls + l ->
  let chunk := Z.min n bs in
  let mid := fst (dfu_rd_run sprintf ls s d) in
  let s' := fst (dfu_rd_run sprintf (ls ++ [l]) s d) in
  currStatus mid = DFU_OPSTS_READREADY
  /\ currCmdSize s' = n - chunk
  /\ inPktSize s' = 0
  /\ currStatus s'
     = if n - chunk =? 0 then DFU_OPSTS_IDLE else DFU_OPSTS_READBUSY.
Proof.
  intros Hd Rn Rbs Hls Rl Hbelow Hreach chunk mid s'. subst mid s'.
  rewrite dfu_rd_run_app. cbn [dfu_rd_run fst snd].
  destruct ls as [|l0 ls].
  - cbn [dfu_rd_run fst snd total fold_right] in *.
    destruct (dfu_rd_readready_first l s d n bs Hd Rn Rbs Rl)
      as (_ & _ & E1 & E2 & _ & E4 & E5).
    fold chunk in E1, E2, E5, Hreach.
    assert (Hch : 0 <= chunk) by (unfold chunk; lia).
    rewrite Z.min_r in E2, E5 by lia.
    rewrite Z.sub_diag in E2, E5. cbn [Z.eqb] in E5.
    destruct Hd as (Hst & _). auto.
  - destruct Hbelow as [Hnil|Hbelow]; [discriminate|].
    inversion Hls as [|? ? Hl0 Hls']; subst.
    pose proof (total_nonneg ls Hls') as Hnn.
    cbn [total fold_right] in Hbelow, Hreach. fold (total ls) in Hbelow, Hreach.
    fold chunk in Hbelow, Hreach.
    pose proof Hl0 as Hl0'. unfold in_length in Hl0'.
    destruct (dfu_rd_readready_first l0 s d n bs Hd Rn Rbs ltac:(lia))
      as (Ed & _ & E1 & E2 & E3 & E4 & E5).
    fold chunk in E1, E2, E5.
    rewrite Z.min_l in E2, E5 by lia.
    destruct (Z.eqb_spec (chunk - l0) 0) as [E|_]; [lia|].
    assert (Hch : chunk <= n) by (unfold chunk; lia).
    cbn [dfu_rd_run]. rewrite Ed.
    destruct (dfu_rd_run_draining ls (snd (fst (dfu_rd sprintf l0 s d))) d
                (n - chunk) (chunk - l0) bs) as [Hmid Edm]; auto; try lia.
    { unfold draining; auto. }
    rewrite Edm.
    destruct (dfu_rd_readready_next l
                (fst (dfu_rd_run sprintf ls (snd (fst (dfu_rd sprintf l0 s d))) d))
                d (n - chunk) (chunk - l0 - total ls) bs Hmid)
      as (_ & F1 & F2 & _ & F4 & F5); try lia.
    { unfold in_length; lia. }
    rewrite Z.min_r in F2, F5 by lia.
    rewrite Z.sub_diag in F2, F5. cbn [Z.eqb] in F5.
    destruct Hmid as (Hst & _ & _ & _).
    repeat split; auto.
Qed.

(** The readback states when no status packet is under way and every IN
    request asks for at least one byte.  In [DFU_OPSTS_READBUSY] the
    background loop reads [min (remaining, buffer_size)] bytes into the
    staging buffer through the registry; a return value of 0 gives
    [DFU_OPSTS_READER], anything else [DFU_OPSTS_READTRIG] with the address
    moved on by the bytes read.  An IN request in [DFU_OPSTS_READTRIG] gives
    [DFU_OPSTS_READREADY].  In [DFU_OPSTS_READREADY], IN requests count the
    chunk down; until it is complete the state stays, and with the request
    that completes it the remaining size is down by the chunk size and the
    state is idle when nothing remains, [DFU_OPSTS_READBUSY] otherwise. *)
Lemma readback_states (sb st sr : Session) (d : Dev) (len : Z)
    (ls : list Z) (l : Z) :
  currStatus sb = DFU_OPSTS_READBUSY ->
  0 <= currCmdSize sb < 4294967296 ->
  0 <= buffer_size sb < 4294967296 ->
  currStatus st = DFU_OPSTS_READTRIG ->
  currStatus sr = DFU_OPSTS_READREADY ->
  inPktSize sr = 0 ->
  0 <= currCmdSize sr < 4294967296 ->
  0 <= buffer_size sr < 4294967296 ->
  Forall in_length ls ->
  0 <= l < 4294967296 ->
  ls = [] \/ total ls < Z.min (currCmdSize sr) (buffer_size sr) ->
  Z.min (currCmdSize sr) (buffer_size sr) <= total ls + l ->
  (let blks := Z.min (currCmdSize sb) (buffer_size sb) in
   let r := algo_root_read sprintf palgos_of (dfuProgBuff sb) (currCmdAddr sb)
                           blks d in
   exists s',
     dfu_util_process_step sprintf null_region_addr palgos_of sb d
     = Continue s' (snd r)
     /\ dfuProgBuff s' = snd (fst r)
     /\ currCmdSize s' = currCmdSize sb
     /\ if fst (fst r) =? 0 then
          currStatus s' = DFU_OPSTS_READER /\ currCmdAddr s' = currCmdAddr sb
        else
          currStatus s' = DFU_OPSTS_READTRIG
          /\ currCmdAddr s' = u32 (currCmdAddr sb + blks))
  /\ currStatus (snd (fst (dfu_rd sprintf len st d))) = DFU_OPSTS_READREADY
  /\ (let chunk := Z.min (currCmdSize sr) (buffer_size sr) in
      let mid := fst (dfu_rd_run sprintf ls sr d) in
      let s' := fst (dfu_rd_run sprintf (ls ++ [l]) sr d) in
      currStatus mid = DFU_OPSTS_READREADY
      /\ currCmdSize s' = currCmdSize sr - chunk
      /\ inPktSize s' = 0
      /\ currStatus s'
         = if currCmdSize sr - chunk =? 0 then DFU_OPSTS_IDLE
           else DFU_OPSTS_READBUSY).
Proof.
  intros Hb Rnb Rbb Ht Hr Hk Rn Rbs Hls Rl Hbelow Hreach.
  split; [|split].
  - apply dfu_util_process_readbusy; auto.
  - apply dfu_rd_readtrig; auto.
  - apply dfu_rd_run_chunk; auto.
    unfold draining; auto.
Qed.

(** C4 on a short status poll.  The bytes still to hand out are counted in
    one variable, [inPktSize], for the status packet and for the chunk, and
    [DFU_OPSTS_READTRIG] gives way to [DFU_OPSTS_READREADY] with the first
    bytes of the status packet, where the comment in the code has it on
    transfer completion.  So when the host polls for fewer bytes than the
    status packet has, the rest of it is still counted in
    [DFU_OPSTS_READREADY]: the next IN request hands out that many bytes,
    read through [ptrCurr], which this call has not set, and not the
    staged chunk; the state goes to [DFU_OPSTS_READBUSY] with the remaining
    size, the address and the staging buffer as they were.  The chunk was
    never handed out, and the remaining size still counts it. *)
Theorem readback_short_poll_skips_chunk (l1 l2 : Z) (s : Session)
    (d : Dev) :
  currStatus s = DFU_OPSTS_READTRIG ->
  inPktSize s = 0 ->
  currCmdSize s <> 0 ->
  0 < l1 < 16 ->
  80 <= l2 ->
  let r1 := dfu_rd sprintf l1 s d in
  let s1 := snd (fst r1) in
  let r2 := dfu_rd sprintf l2 s1 (snd r1) in
  let s2 := snd (fst r2) in
  (fst (fst (fst r1)) = l1
   /\ currStatus s1 = DFU_OPSTS_READREADY
   /\ inPktSize s1 = fst (fst (usbDFUReturnStatus s d)) - l1
   /\ 0 < inPktSize s1)
  /\ (fst (fst (fst r2)) = inPktSize s1
      /\ snd (fst (fst r2)) = None
      /\ currStatus s2 = DFU_OPSTS_READBUSY
      /\ currCmdSize s2 = currCmdSize s
      /\ currCmdAddr s2 = currCmdAddr s
      /\ dfuProgBuff s2 = dfuProgBuff s).
Proof.
  intros Hst Hk Hn0 Hl1 Hl2 r1 s1 r2 s2.
  pose proof (usbDFUReturnStatus_16_80 s d) as Hn.
  destruct (usbDFUReturnStatus s d) as [[m out] d'] eqn:Er.
  cbn [fst snd] in *.
  assert (Hm : u32 m = m) by (apply u32_small; lia).
  assert (E1 : r1
               = (l1, Some (firstn (Z.to_nat l1) (skipn (Z.to_nat 0) out)),
                  set_inPktSizeIdx
                    (set_inPktSize
                       (set_currStatus
                          (set_inPktSizeIdx
                             (set_inPktSize (set_dfuOut s out) m) 0)
                          DFU_OPSTS_READREADY)
                       (m - l1)) l1,
                  d')).
  { subst r1. unfold dfu_rd.
    destruct (Z.eqb_spec l1 0) as [E|_]; [lia|].
    rewrite Hst. unfold dfu_rd_status. rewrite Hk. cbn [Z.eqb].
    rewrite Er. cbn [fst snd].
    cbn [inPktSize set_inPktSize set_inPktSizeIdx set_dfuOut currStatus
         inPktSizeIdx].
    rewrite Hm, Hst.
    destruct (Z.eqb_spec m 0) as [E|_]; [lia|]. cbn [negb].
    destruct (Z.gtb_spec l1 m) as [E|_]; [lia|].
    cbn [inPktSize set_inPktSize set_inPktSizeIdx set_dfuOut currStatus
         set_currStatus inPktSizeIdx in_copy].
    rewrite (u32_small (m - l1)), (u32_small (0 + l1)) by lia.
    reflexivity. }
  clearbody r1. subst r1. subst s1. cbn [fst snd] in *.
  split.
  { cbn [inPktSize currStatus set_inPktSize set_inPktSizeIdx set_currStatus].
    repeat split; lia. }
  subst s2 r2. unfold dfu_rd.
  destruct (Z.eqb_spec l2 0) as [E|_]; [lia|].
  cbn [currStatus set_inPktSize set_inPktSizeIdx set_currStatus].
  unfold dfu_rd_readready.
  cbn [inPktSize set_inPktSize set_inPktSizeIdx set_currStatus].
  cbn [in_copy inPktSize set_inPktSize set_inPktSizeIdx inPktSizeIdx].
  destruct (Z.eqb_spec (m - l1) 0) as [E|_]; [lia|]. cbn [negb].
  cbn [in_copy inPktSize set_inPktSize set_inPktSizeIdx inPktSizeIdx].
  destruct (Z.eqb_spec (m - l1) 0) as [E|_]; [lia|]. cbn [negb].
  destruct (Z.gtb_spec l2 (m - l1)) as [_|E]; [|lia].
  cbn [in_copy inPktSize set_inPktSize set_inPktSizeIdx inPktSizeIdx].
  rewrite Z.sub_diag. change (u32 0) with 0. cbn [Z.eqb].
  cbn [currCmdSize set_inPktSize set_inPktSizeIdx set_currStatus set_dfuOut].
  destruct (Z.eqb_spec (currCmdSize s) 0) as [E|_]; [contradiction|].
  cbn. repeat split; reflexivity.
Qed.

End ReadbackFacts.

Lemma readback_states_witness :
  let sb := readbusy_session in
  let st := readtrig_session in
  let sr := readready_session in
  let d := mcb1857_dev 255 in
  let ls := [200; 200] in
  let l := 200 in
  (let blks := Z.min (currCmdSize sb) (buffer_size sb) in
   let r := algo_root_read sprintf_fmt lpc_palgos_of (dfuProgBuff sb)
                           (currCmdAddr sb) blks d in
   exists s',
     dfu_util_process_step sprintf_fmt 0 lpc_palgos_of sb d
     = Continue s' (snd r)
     /\ dfuProgBuff s' = snd (fst r)
     /\ currCmdSize s' = currCmdSize sb
     /\ if fst (fst r) =? 0 then
          currStatus s' = DFU_OPSTS_READER /\ currCmdAddr s' = currCmdAddr sb
        else
          currStatus s' = DFU_OPSTS_READTRIG
          /\ currCmdAddr s' = u32 (currCmdAddr sb + blks))
  /\ currStatus (snd (fst (dfu_rd sprintf_fmt 80 st d))) = DFU_OPSTS_READREADY
  /\ (let chunk := Z.min (currCmdSize sr) (buffer_size sr) in
      let mid := fst (dfu_rd_run sprintf_fmt ls sr d) in
      let s' := fst (dfu_rd_run sprintf_fmt (ls ++ [l]) sr d) in
      currStatus mid = DFU_OPSTS_READREADY
      /\ currCmdSize s' = currCmdSize sr - chunk
      /\ inPktSize s' = 0
      /\ currStatus s'
         = if currCmdSize sr - chunk =? 0 then DFU_OPSTS_IDLE
           else DFU_OPSTS_READBUSY).
Proof.
  intros sb st sr d ls l.
  apply (readback_states sprintf_fmt 0 lpc_palgos_of sb st sr d 80 ls l).
  - reflexivity.
  - simpl; lia.
  - simpl; lia.
  - reflexivity.
  - reflexivity.
  - reflexivity.
  - simpl; lia.
  - simpl; lia.
  - repeat constructor.
  - lia.
  - right. vm_compute. reflexivity.
  - vm_compute. discriminate.
Defined.

(** A readback of 1000 bytes with a chunk of 512 staged: the host polls for
    8 of the 16 status bytes and then asks for the chunk. *)
Lemma readback_short_poll_skips_chunk_witness :
  let s := readtrig_session in
  let d := mcb1857_dev 255 in
  let r1 := dfu_rd sprintf_fmt 8 s d in
  let s1 := snd (fst r1) in
  let r2 := dfu_rd sprintf_fmt 512 s1 (snd r1) in
  let s2 := snd (fst r2) in
  (fst (fst (fst r1)) = 8
   /\ currStatus s1 = DFU_OPSTS_READREADY
   /\ inPktSize s1 = fst (fst (usbDFUReturnStatus s d)) - 8
   /\ 0 < inPktSize s1)
  /\ (fst (fst (fst r2)) = inPktSize s1
      /\ snd (fst (fst r2)) = None
      /\ currStatus s2 = DFU_OPSTS_READBUSY
      /\ currCmdSize s2 = currCmdSize s
      /\ currCmdAddr s2 = currCmdAddr s
      /\ dfuProgBuff s2 = dfuProgBuff s).
Proof.
  apply (readback_short_poll_skips_chunk sprintf_fmt 8 512 readtrig_session
           (mcb1857_dev 255)).
  - reflexivity.
  - reflexivity.
  - vm_compute; discriminate.
  - lia.
  - lia.
Defined.

(** ** Erasing a FLASH range that starts inside a sector *)

(** C5 at that command: the range lies in a registered internal FLASH
    region and its start is on no sector boundary, yet the sector range
    lookup reports it as aligned (the flag set for the start is overwritten
    by the one for the end), the ROM is asked to prepare, erase and
    blank-check sector 0, the erase path returns the size, and the session
    goes to [DFU_OPSTS_ERASE], not to [DFU_OPSTS_ERRER]. *)
Theorem erase_region_unaligned_start_erases :
  let d := mcb1857_dev 0 in
  currStatus erase_session = DFU_OPSTS_ERASE_ST
  /\ fst (algo_root_isRegionValid sprintf_fmt 436208128 7680 d) = 0
  /\ pprogalgos (region_at (dfuRegionList d) 0) = ALGO_INTFLASH
  /\ ~ In (436208128 - region_addr (region_at (dfuRegionList d) 0))
          (map fst intflash_sectorinfo)
  /\ sr_aligned (fst (progalgo_iflash_find_sectorrange
                        sprintf_fmt zero_region 436208128 7680 d)) = 1
  /\ fst (algo_root_erase_region sprintf_fmt lpc_palgos_of 436208128 7680 d)
     = 7680
  /\ match dfu_util_process_step sprintf_fmt 0 lpc_palgos_of erase_session d
     with
     | Continue s' d' =>
         currStatus s' = DFU_OPSTS_ERASE
         /\ iap_log d' = [ [IAP_BLANK_CHECK_SECS; 0; 0; 0];
                           [IAP_ERASE_SECS; 0; 0; 180000; 0];
                           [IAP_PREP_SECS; 0; 0; 0] ]
     | _ => False
     end.
Proof.
  intros d.
  split; [reflexivity|]. split; [vm_compute; reflexivity|].
  split; [reflexivity|]. split.
  { vm_compute. intros H.
    repeat (destruct H as [H|H]; [discriminate|]). exact H. }
  split; [vm_compute; reflexivity|]. split; [vm_compute; reflexivity|].
  vm_compute. split; reflexivity.
Qed.

(** ** Padding a short write *)

Lemma upd_nat_app {A} (l1 : list A) x l2 v :
  upd_nat (l1 ++ x :: l2) (length l1) v = l1 ++ v :: l2.
Proof.
  induction l1 as [|h t IH]; cbn; [reflexivity|]. now rewrite IH.
Qed.

(** The padding loop fills [fbuff[wsize .. limit)] with 0xFF and leaves the
    rest of the buffer as it was. *)
Lemma pad_loop_spec fuel : forall (pre post : list Z) (gap : list Z) limit,
  Z.of_nat (length pre + length gap) = limit ->
  (length gap <= fuel)%nat ->
  pad_loop fuel (pre ++ gap ++ post) (Z.of_nat (length pre)) limit
  = (limit, pre ++ repeat 255 (length gap) ++ post).
Proof.
  induction fuel as [|fuel IH]; intros pre post gap limit Hl Hf.
  - destruct gap; [|cbn in Hf; lia]. cbn in *.
    rewrite Nat.add_0_r in Hl. now rewrite Hl.
  - cbn [pad_loop].
    destruct gap as [|g gap].
    + cbn in *. rewrite Nat.add_0_r in Hl. rewrite Hl, Z.ltb_irrefl.
      reflexivity.
    + destruct (Z.ltb_spec (Z.of_nat (length pre)) limit) as [_|Hge];
        [|cbn [length] in Hl; lia].
      unfold zupd.
      destruct (Z.ltb_spec (Z.of_nat (length pre)) 0) as [Hneg|_]; [lia|].
      rewrite Nat2Z.id. cbn [app].
      rewrite upd_nat_app.
      specialize (IH (pre ++ [255]) post gap limit).
      rewrite length_app in IH. cbn [length] in IH, Hl, Hf.
      rewrite <- !app_assoc in IH. cbn [app] in IH.
      replace (Z.of_nat (length pre) + 1)
        with (Z.of_nat (length pre + 1)) by lia.
      rewrite IH by lia. cbn [repeat app]. reflexivity.
Qed.

(** ** Writing less than a program unit *)

(** The internal FLASH path on the board: a 2-byte write to the start
    of bank A pads the buffer to 512 bytes with 0xFF, programs and compares
    512 bytes and returns 2; the two bytes read back, the rest of the page
    reads 0xFF; with a ROM whose compare fails the write returns 0. *)
Lemma intflash_write_short_round_trip :
  let d := mcb1857_dev 0 in
  let w := algo_root_write sprintf_fmt lpc_palgos_of two_bytes 436207616 2 d in
  let r := algo_root_read sprintf_fmt lpc_palgos_of (repeat 0 4096)
                          436207616 2 (snd w) in
  fst (fst w) = 2
  /\ firstn 512 (snd (fst w)) = [17; 34] ++ repeat 255 510
  /\ iap_log (snd w) = [ [IAP_COMPARE; 436207616; 268435456; 512];
                         [IAP_RAM_TO_FLASH; 436207616; 268435456; 512; 180000];
                         [IAP_PREP_SECS; 0; 0; 0] ]
  /\ fst (fst r) = 2
  /\ firstn 2 (snd (fst r)) = [17; 34]
  /\ mem_read (mem (snd w)) (436207616 + 2) 510 = repeat 255 510
  /\ fst (fst (progalgo_intflash_write sprintf_fmt lpc_iap_rom_badverify 0
                 180000000 zero_region 268435456 two_bytes 436207616 2 d))
     = 0.
Proof.
  vm_compute. repeat split; reflexivity.
Qed.

(** C8 on the internal EEPROM path: a 2-byte write to the start of the
    EEPROM pads the buffer with 0xFF and returns 2, but the page is written
    one 32-bit word per buffer byte: byte [i] of the buffer lands, zero
    extended, in word [i] of the page.  Reading the two bytes back gives
    17, 0 instead of 17, 34, and the bytes after them do not read 0xFF. *)
Theorem inteeprom_write_short_reads_back_wrong :
  let d := mcb1857_dev 255 in
  let w := algo_root_write sprintf_fmt lpc_palgos_of two_bytes 537133056 2 d in
  let r := algo_root_read sprintf_fmt lpc_palgos_of (repeat 0 4096)
                          537133056 2 (snd w) in
  pprogalgos (region_at (dfuRegionList d)
                (fst (algo_root_isRegionValid sprintf_fmt 537133056 2 d)))
  = ALGO_INTEEPROM
  /\ fst (fst w) = 2
  /\ firstn 128 (snd (fst w)) = [17; 34] ++ repeat 255 126
  /\ fst (fst r) = 2
  /\ firstn 2 (snd (fst r)) = [17; 0]
  /\ firstn 2 (snd (fst r)) <> firstn 2 two_bytes
  /\ mem_read (mem (snd w)) (537133056 + 2) 6 = [0; 0; 34; 0; 0; 0]
  /\ mem_read (mem (snd w)) (537133056 + 2) 6 <> repeat 255 6.
Proof.
  vm_compute. repeat split; try reflexivity; discriminate.
Qed.

(** ** More on the registry lookup *)

Section LookupFacts.

Variable sprintf : string -> list Z -> list Z.

(** The lookup gives -1 or the index of a registered region, and where no
    sum leaves the 32-bit range that region is the first one, in
    registration order, that covers the whole range; -1 means that no
    registered region covers it. *)
Theorem algo_root_isRegionValid_in_range (addr size : Z) (d : Dev) :
  0 <= num_regions (dfuRegionList d) ->
  (forall j, 0 <= j < num_regions (dfuRegionList d) ->
     0 <= region_addr (region_at (dfuRegionList d) j)
     /\ 0 <= region_size (region_at (dfuRegionList d) j)
     /\ region_addr (region_at (dfuRegionList d) j)
        + region_size (region_at (dfuRegionList d) j) < 4294967296) ->
  0 <= addr -> 0 <= size -> addr + size < 4294967296 ->
  let r := fst (algo_root_isRegionValid sprintf addr size d) in
  -1 <= r < num_regions (dfuRegionList d)
  /\ ((r = -1
       /\ forall j, 0 <= j < num_regions (dfuRegionList d) ->
            ~ covers (region_at (dfuRegionList d) j) addr size)
      \/ (0 <= r
          /\ covers (region_at (dfuRegionList d) r) addr size
          /\ forall j, 0 <= j < r ->
               ~ covers (region_at (dfuRegionList d) j) addr size)).
Proof.
  intros Hn Hreg Ha Hs Has r.
  assert (Hiff : forall j, 0 <= j < num_regions (dfuRegionList d) ->
            (covers_u32 (region_at (dfuRegionList d) j) addr size = true
             <-> covers (region_at (dfuRegionList d) j) addr size)).
  { intros j Hj. destruct (Hreg j Hj) as (A & B & C).
    apply covers_u32_no_wrap; auto. }
  destruct (algo_root_isRegionValid_first_match sprintf addr size d Hn)
    as [[E Hall]|(Hr & Hp & Hall)]; fold r in E || fold r in Hr, Hp, Hall.
  - split; [lia|]. left. split; [exact E|].
    intros j Hj Hc. apply Hiff in Hc; [|exact Hj].
    rewrite Hall in Hc by exact Hj. discriminate.
  - split; [lia|]. right. split; [lia|]. split.
    + apply Hiff; [lia|exact Hp].
    + intros j Hj Hc. apply Hiff in Hc; [|lia].
      rewrite Hall in Hc by lia. discriminate.
Qed.

End LookupFacts.

Lemma mcb1857_regions_fit j :
  0 <= j < num_regions (dfuRegionList (mcb1857_dev 255)) ->
  0 <= region_addr (region_at (dfuRegionList (mcb1857_dev 255)) j)
  /\ 0 <= region_size (region_at (dfuRegionList (mcb1857_dev 255)) j)
  /\ region_addr (region_at (dfuRegionList (mcb1857_dev 255)) j)
     + region_size (region_at (dfuRegionList (mcb1857_dev 255)) j)
     < 4294967296.
Proof.
  cbn [num_regions dfuRegionList mcb1857_dev mcb1857_regionList].
  intros Hj.
  assert (C : j = 0 \/ j = 1 \/ j = 2 \/ j = 3 \/ j = 4 \/ j = 5 \/ j = 6
              \/ j = 7) by lia.
  repeat (destruct C as [C|C];
          [subst j; vm_compute; repeat split; discriminate|]).
  subst j; vm_compute; repeat split; discriminate.
Qed.

Lemma algo_root_isRegionValid_in_range_witness :
  let d := mcb1857_dev 255 in
  let r := fst (algo_root_isRegionValid sprintf_fmt 537133056 128 d) in
  -1 <= r < num_regions (dfuRegionList d)
  /\ ((r = -1
       /\ forall j, 0 <= j < num_regions (dfuRegionList d) ->
            ~ covers (region_at (dfuRegionList d) j) 537133056 128)
      \/ (0 <= r
          /\ covers (region_at (dfuRegionList d) r) 537133056 128
          /\ forall j, 0 <= j < r ->
               ~ covers (region_at (dfuRegionList d) j) 537133056 128)).
Proof.
  intros d.
  apply (algo_root_isRegionValid_in_range sprintf_fmt 537133056 128 d).
  - vm_compute; discriminate.
  - exact mcb1857_regions_fit.
  - lia.
  - lia.
  - lia.
Defined.

(** ** Command packets *)

Section CommandFacts.

Variable sprintf : string -> list Z -> list Z.

Lemma checkMagicHeader_hw h d :
  hw_untouched d (snd (checkMagicHeader sprintf h d)).
Proof.
  unfold checkMagicHeader.
  destruct (negb (hdr_magic h =? DFUPROG_VALIDVAL) && negb false).
  - unfold DFUDEBUG. rewrite usbDebug_snd. apply DFUDEBUG_hw.
  - unfold hw_untouched; cbn; auto.
Qed.

(** A command packet with a code that has no [case] (READ_IDS and
    START_ENC_SESSION among them) sets the state to [DFU_OPSTS_ERRUN] and
    changes nothing else of the session: the echoed command, address, size
    and region stay those of the command before.  Only the debug queue of
    the device is written. *)
Theorem dfu_wr_unknown_command (pOutHdr : DFU_FROMHOST_PACKETHDR_T)
    (pBuff : PBuff) (length : Z) (s : Session) (d : Dev) :
  currStatus s <> DFU_OPSTS_PROG_STREAM ->
  length <> 0 ->
  handled_command (hdr_hostCmd pOutHdr) = false ->
  let r := dfu_wr sprintf pOutHdr pBuff length s d in
  snd (fst r) = set_outPktSizeIdx (set_currStatus s DFU_OPSTS_ERRUN) 0
  /\ fst (fst r) = mkPBuff BUF_dfuIn 0
  /\ hw_untouched d (snd r).
Proof.
  intros Hst Hlen Hcmd r. subst r. unfold dfu_wr.
  destruct (length =? 0) eqn:El; [apply Z.eqb_eq in El; contradiction|].
  cbn [negb currStatus set_outPktSizeIdx].
  unfold handled_command in Hcmd.
  repeat (apply orb_false_iff in Hcmd;
          let H := fresh "Hc" in destruct Hcmd as [Hcmd H]).
  rewrite Hcmd, Hc, Hc0, Hc1, Hc2, Hc3, Hc4, Hc5, Hc6, Hc7.
  cbn [orb].
  destruct (currStatus s) eqn:Es; try contradiction;
    cbn [fst snd]; (split; [|split]); try reflexivity;
    (eapply hw_untouched_trans;
     [apply checkMagicHeader_hw|apply DFUDEBUG_hw]).
Qed.

(** ERASE_ALL takes nothing from its packet but the command code: the state
    becomes [DFU_OPSTS_ERASE_ALL_ST] and the recorded address and size stay
    what an earlier command left, so the background loop erases the region
    of that earlier address. *)
Theorem dfu_wr_erase_all_keeps_address (pOutHdr : DFU_FROMHOST_PACKETHDR_T)
    (pBuff : PBuff) (length : Z) (s : Session) (d : Dev) :
  currStatus s <> DFU_OPSTS_PROG_STREAM ->
  length <> 0 ->
  hdr_hostCmd pOutHdr = DFU_HOSTCMD_ERASE_ALL ->
  let s' := snd (fst (dfu_wr sprintf pOutHdr pBuff length s d)) in
  s' = set_outPktSizeIdx
         (set_hostCmd (set_currStatus s DFU_OPSTS_ERASE_ALL_ST)
                      DFU_HOSTCMD_ERASE_ALL) 0
  /\ currCmdAddr s' = currCmdAddr s
  /\ currCmdSize s' = currCmdSize s.
Proof.
  intros Hst Hlen Hcmd s'. subst s'. unfold dfu_wr.
  destruct (length =? 0) eqn:El; [apply Z.eqb_eq in El; contradiction|].
  cbn [negb currStatus set_outPktSizeIdx]. rewrite Hcmd.
  destruct (currStatus s) eqn:Es; try contradiction;
    cbn; repeat split; reflexivity.
Qed.

(** START_NEW_SESSION never leaves the session without a region: when the
    lookup of the packet's range finds no region, region 0 is taken.  The
    buffer size reported to the host is that of the region taken, the state
    is idle, and the packet's address and size are recorded as they came. *)
Theorem dfu_wr_start_session (pOutHdr : DFU_FROMHOST_PACKETHDR_T)
    (pBuff : PBuff) (length : Z) (s : Session) (d : Dev) :
  currStatus s <> DFU_OPSTS_PROG_STREAM ->
  length <> 0 ->
  hdr_hostCmd pOutHdr = DFU_HOSTCMD_STARTNEWSESS ->
  0 <= num_regions (dfuRegionList d) ->
  let r := dfu_wr sprintf pOutHdr pBuff length s d in
  let s' := snd (fst r) in
  let found := fst (algo_root_isRegionValid sprintf (hdr_addr pOutHdr)
                      (hdr_size pOutHdr)
                      (snd (checkMagicHeader sprintf pOutHdr d))) in
  currStatus s' = DFU_OPSTS_IDLE
  /\ currentRegion s' = (if found <? 0 then 0 else found)
  /\ 0 <= currentRegion s' < Z.max 1 (num_regions (dfuRegionList d))
  /\ currRegionData s' = Some (currentRegion s')
  /\ buffer_size s'
     = region_buffer_size (region_at (dfuRegionList d) (currentRegion s'))
  /\ currCmdAddr s' = hdr_addr pOutHdr
  /\ currCmdSize s' = hdr_size pOutHdr
  /\ hw_untouched d (snd r).
Proof.
  intros Hst Hlen Hcmd Hn r s' found. subst r s'. unfold dfu_wr.
  destruct (length =? 0) eqn:El; [apply Z.eqb_eq in El; contradiction|].
  cbn [negb currStatus set_outPktSizeIdx]. rewrite Hcmd.
  pose proof (checkMagicHeader_hw pOutHdr d) as Hm.
  set (d1 := snd (checkMagicHeader sprintf pOutHdr d)) in *.
  assert (Hn1 : 0 <= num_regions (dfuRegionList d1)).
  { destruct Hm as (E & _). rewrite E. exact Hn. }
  pose proof (algo_root_isRegionValid_first_match sprintf
                (hdr_addr pOutHdr) (hdr_size pOutHdr) d1 Hn1) as Hf.
  pose proof (algo_root_isRegionValid_hw sprintf (hdr_addr pOutHdr)
                (hdr_size pOutHdr) d1) as Hl.
  fold found in Hf.
  assert (Hrl : dfuRegionList
                  (snd (algo_root_isRegionValid sprintf (hdr_addr pOutHdr)
                          (hdr_size pOutHdr) d1)) = dfuRegionList d).
  { destruct Hl as (E & _). destruct Hm as (E' & _). congruence. }
  assert (Hrange : 0 <= (if found <? 0 then 0 else found)
                   < Z.max 1 (num_regions (dfuRegionList d))).
  { destruct Hm as (E' & _). rewrite E' in Hf.
    destruct Hf as [[E _]|(Hr & _)].
    - rewrite E. cbn. lia.
    - destruct (Z.ltb_spec found 0); lia. }
  destruct (currStatus s) eqn:Es; try contradiction;
    cbn [fst snd]; unfold usbDFUStartSession;
    destruct (algo_root_isRegionValid sprintf (hdr_addr pOutHdr)
                (hdr_size pOutHdr) d1) as [i d2] eqn:Ei;
    cbn [fst snd] in *; subst found;
    cbn; rewrite ?Hrl;
    (repeat split; try reflexivity; try lia;
     try (eapply hw_untouched_trans; [exact Hm|exact Hl])).
Qed.

End CommandFacts.

Lemma dfu_wr_unknown_command_witness :
  let r := dfu_wr sprintf_fmt read_ids_hdr (mkPBuff BUF_dfuIn 0) 16
                  readtrig_session (mcb1857_dev 255) in
  snd (fst r)
  = set_outPktSizeIdx (set_currStatus readtrig_session DFU_OPSTS_ERRUN) 0
  /\ fst (fst r) = mkPBuff BUF_dfuIn 0
  /\ hw_untouched (mcb1857_dev 255) (snd r).
Proof.
  apply (dfu_wr_unknown_command sprintf_fmt read_ids_hdr (mkPBuff BUF_dfuIn 0)
           16 readtrig_session (mcb1857_dev 255)).
  - simpl; discriminate.
  - lia.
  - reflexivity.
Defined.

Lemma dfu_wr_erase_all_keeps_address_witness :
  let s' := snd (fst (dfu_wr sprintf_fmt erase_all_hdr (mkPBuff BUF_dfuIn 0)
                             16 readtrig_session (mcb1857_dev 255))) in
  s' = set_outPktSizeIdx
         (set_hostCmd (set_currStatus readtrig_session DFU_OPSTS_ERASE_ALL_ST)
                      DFU_HOSTCMD_ERASE_ALL) 0
  /\ currCmdAddr s' = currCmdAddr readtrig_session
  /\ currCmdSize s' = currCmdSize readtrig_session.
Proof.
  apply (dfu_wr_erase_all_keeps_address sprintf_fmt erase_all_hdr
           (mkPBuff BUF_dfuIn 0) 16 readtrig_session (mcb1857_dev 255)).
  - simpl; discriminate.
  - lia.
  - reflexivity.
Defined.

Lemma dfu_wr_start_session_witness :
  let d := mcb1857_dev 255 in
  let r := dfu_wr sprintf_fmt start_nowhere_hdr (mkPBuff BUF_dfuIn 0) 16
                  idle_session d in
  let s' := snd (fst r) in
  let found := fst (algo_root_isRegionValid sprintf_fmt
                      (hdr_addr start_nowhere_hdr)
                      (hdr_size start_nowhere_hdr)
                      (snd (checkMagicHeader sprintf_fmt start_nowhere_hdr d)))
  in
  currStatus s' = DFU_OPSTS_IDLE
  /\ currentRegion s' = (if found <? 0 then 0 else found)
  /\ 0 <= currentRegion s' < Z.max 1 (num_regions (dfuRegionList d))
  /\ currRegionData s' = Some (currentRegion s')
  /\ buffer_size s'
     = region_buffer_size (region_at (dfuRegionList d) (currentRegion s'))
  /\ currCmdAddr s' = hdr_addr start_nowhere_hdr
  /\ currCmdSize s' = hdr_size start_nowhere_hdr
  /\ hw_untouched d (snd r).
Proof.
  intros d.
  apply (dfu_wr_start_session sprintf_fmt start_nowhere_hdr
           (mkPBuff BUF_dfuIn 0) 16 idle_session d).
  - simpl; discriminate.
  - lia.
  - reflexivity.
  - vm_compute; discriminate.
Defined.

(** ** The background loop while erasing *)

Section EraseFacts.

Variable sprintf : string -> list Z -> list Z.
Variable null_region_addr : Z.
Variable palgos_of : ALGO -> PROGALGOS_T.

(** A pass in [DFU_OPSTS_ERASE_ST] changes only the state of the session.
    A range that no region covers gives [DFU_OPSTS_ERRER] with registry,
    memory and IAP log untouched; otherwise the range goes to
    [algo_root_erase_region] once, and a return value of 0 gives
    [DFU_OPSTS_ERRER], any other [DFU_OPSTS_ERASE].  The pass after that, in
    [DFU_OPSTS_ERASE], gives idle without touching the device. *)
Theorem dfu_util_process_erase_region (s : Session) (d : Dev) :
  currStatus s = DFU_OPSTS_ERASE_ST ->
  let lookup := algo_root_isRegionValid sprintf (currCmdAddr s)
                                        (currCmdSize s) d in
  let e := algo_root_erase_region sprintf palgos_of (currCmdAddr s)
                                  (currCmdSize s) d in
  let o := dfu_util_process_step sprintf null_region_addr palgos_of s d in
  (if fst lookup <? 0 then
     o = Continue (set_currStatus s DFU_OPSTS_ERRER) (snd lookup)
     /\ hw_untouched d (outcome_dev o)
   else
     o = Continue (set_currStatus s (if fst e =? 0 then DFU_OPSTS_ERRER
                                     else DFU_OPSTS_ERASE)) (snd e))
  /\ forall d',
       dfu_util_process_step sprintf null_region_addr palgos_of
         (set_currStatus s DFU_OPSTS_ERASE) d'
       = Continue (set_currStatus s DFU_OPSTS_IDLE) d'.
Proof.
  intros Hst lookup e o. split; [|reflexivity].
  subst o. unfold dfu_util_process_step. rewrite Hst.
  cbn [currCmdAddr currCmdSize set_currStatus].
  pose proof (algo_root_isRegionValid_state sprintf (currCmdAddr s)
                (currCmdSize s) d) as Hs.
  pose proof (algo_root_isRegionValid_hw sprintf (currCmdAddr s)
                (currCmdSize s) d) as Hh.
  fold lookup in Hs, Hh |- *.
  destruct lookup as [v d1]. cbn [fst snd] in *.
  destruct (v <? 0).
  - split; [reflexivity|exact Hh].
  - subst d1. fold e. destruct e as [n d2]. cbn [fst snd].
    destruct (n =? 0); reflexivity.
Qed.

(** A pass in [DFU_OPSTS_ERASE_ALL_ST] looks up the recorded address alone
    (size 0).  No region gives [DFU_OPSTS_ERRER] with the device untouched
    but for the debug queue; otherwise [algo_root_erase_all] is called with
    the base address of the region found, so that, where that base address
    resolves to the same region, the driver is asked to erase the whole
    region: its base and its size. *)
Theorem dfu_util_process_erase_all (s : Session) (d : Dev) :
  currStatus s = DFU_OPSTS_ERASE_ALL_ST ->
  let lookup := algo_root_isRegionValid sprintf (currCmdAddr s) 0 d in
  let region := region_at (dfuRegionList d) (fst lookup) in
  let o := dfu_util_process_step sprintf null_region_addr palgos_of s d in
  if fst lookup <? 0 then
    o = Continue (set_currStatus s DFU_OPSTS_ERRER) (snd lookup)
    /\ hw_untouched d (outcome_dev o)
  else if fst (algo_root_isRegionValid sprintf (region_addr region) 0 d)
          =? fst lookup then
    let e := erase_all (palgos_of (pprogalgos region)) (region_addr region)
                       (region_size region) d in
    o = Continue (set_currStatus s (if fst e =? 0 then DFU_OPSTS_ERRER
                                    else DFU_OPSTS_ERASE)) (snd e)
  else True.
Proof.
  intros Hst lookup region o.
  subst o. unfold dfu_util_process_step. rewrite Hst.
  cbn [currCmdAddr currCmdSize set_currStatus].
  pose proof (algo_root_isRegionValid_state sprintf (currCmdAddr s) 0 d) as Hs.
  pose proof (algo_root_isRegionValid_hw sprintf (currCmdAddr s) 0 d) as Hh.
  subst region. fold lookup in Hs, Hh |- *.
  destruct lookup as [v d1]. cbn [fst snd] in *.
  destruct (v <? 0) eqn:Ev.
  - split; [reflexivity|exact Hh].
  - subst d1.
    destruct (Z.eqb_spec
                (fst (algo_root_isRegionValid sprintf
                        (region_addr (region_at (dfuRegionList d) v)) 0 d)) v)
      as [Hsame|_]; [|exact I].
    pose proof (root_dispatch sprintf
                  (region_addr (region_at (dfuRegionList d) v)) 0
                  "eraseall_region invalid: %p %d\n"
                  (fun i => [region_addr (region_at (dfuRegionList d) v); i]) 0
                  (fun i d =>
                     erase_all
                       (palgos_of (pprogalgos (region_at (dfuRegionList d) i)))
                       (region_addr (region_at (dfuRegionList d) i))
                       (region_size (region_at (dfuRegionList d) i)) d) d)
      as Hall.
    cbn zeta in Hall. rewrite Hsame, Ev in Hall.
    unfold algo_root_erase_all. rewrite Hall.
    destruct (erase_all _ _ _ d) as [n d2]. cbn [fst snd].
    destruct (n =? 0); reflexivity.
Qed.

End EraseFacts.

Lemma dfu_util_process_erase_region_witness :
  let s := erase_session in
  let d := mcb1857_dev 0 in
  let lookup := algo_root_isRegionValid sprintf_fmt (currCmdAddr s)
                                        (currCmdSize s) d in
  let e := algo_root_erase_region sprintf_fmt lpc_palgos_of (currCmdAddr s)
                                  (currCmdSize s) d in
  let o := dfu_util_process_step sprintf_fmt 0 lpc_palgos_of s d in
  (if fst lookup <? 0 then
     o = Continue (set_currStatus s DFU_OPSTS_ERRER) (snd lookup)
     /\ hw_untouched d (outcome_dev o)
   else
     o = Continue (set_currStatus s (if fst e =? 0 then DFU_OPSTS_ERRER
                                     else DFU_OPSTS_ERASE)) (snd e))
  /\ forall d',
       dfu_util_process_step sprintf_fmt 0 lpc_palgos_of
         (set_currStatus s DFU_OPSTS_ERASE) d'
       = Continue (set_currStatus s DFU_OPSTS_IDLE) d'.
Proof.
  exact (dfu_util_process_erase_region sprintf_fmt 0 lpc_palgos_of
           erase_session (mcb1857_dev 0) eq_refl).
Defined.

Lemma dfu_util_process_erase_all_witness :
  let s := erase_all_session in
  let d := mcb1857_dev 0 in
  let lookup := algo_root_isRegionValid sprintf_fmt (currCmdAddr s) 0 d in
  let region := region_at (dfuRegionList d) (fst lookup) in
  let o := dfu_util_process_step sprintf_fmt 0 lpc_palgos_of s d in
  if fst lookup <? 0 then
    o = Continue (set_currStatus s DFU_OPSTS_ERRER) (snd lookup)
    /\ hw_untouched d (outcome_dev o)
  else if fst (algo_root_isRegionValid sprintf_fmt (region_addr region) 0 d)
          =? fst lookup then
    let e := erase_all (lpc_palgos_of (pprogalgos region)) (region_addr region)
                       (region_size region) d in
    o = Continue (set_currStatus s (if fst e =? 0 then DFU_OPSTS_ERRER
                                    else DFU_OPSTS_ERASE)) (snd e)
  else True.
Proof.
  exact (dfu_util_process_erase_all sprintf_fmt 0 lpc_palgos_of
           erase_all_session (mcb1857_dev 0) eq_refl).
Defined.

(** ** Status packets *)

Lemma le32_decode_le32 x : le32_decode (le32 x) = u32 x.
Proof.
  unfold le32, le32_decode, znth. cbn [Z.ltb Z.compare Z.to_nat nth].
  change (Pos.to_nat 1) with 1%nat. change (Pos.to_nat 2) with 2%nat.
  change (Pos.to_nat 3) with 3%nat. cbn [nth].
  assert (H : 0 <= u32 x < 4294967296)
    by (unfold u32; apply Z.mod_pos_bound; lia).
  set (y := u32 x) in *. Z.div_mod_to_equations. lia.
Qed.

Lemma fill_size_bounds max d :
  queue_inv d -> 0 <= max -> 0 <= fill_size max d <= max.
Proof.
  intros (Hi & Ho & _) Hmax. unfold fill_size, USBMSGBUFFSIZE in *.
  destruct (usbStrOut d >? usbStrIn d) eqn:E.
  - lia.
  - destruct (Z.gtb_spec (usbStrOut d) (usbStrIn d)); [discriminate|]. lia.
Qed.

Section StatusFacts.

Variable sprintf : string -> list Z -> list Z.

Lemma usbDFUBuildStatus_run (s : Session) (d : Dev) :
  queue_inv d ->
  80 <= Z.of_nat (length (dfuOut s)) ->
  let fill := usbDebugFill 64 d in
  let k := fst (fst fill) in
  let r := usbDFUBuildStatus s d in
  let out := snd (fst r) in
  snd r = snd fill
  /\ 0 <= k <= 64
  /\ fst (fst r) = (if k =? 0 then 16 else 80)
  /\ length out = length (dfuOut s)
  /\ decode_status out
     = mkToHost (u32 (hostCmd s)) (opsts_code (currStatus s)) k
                (u32 (buffer_size s))
  /\ firstn (Z.to_nat k) (skipn 16 out) = snd (fst fill)
  /\ skipn (Z.to_nat (16 + k)) out = skipn (Z.to_nat (16 + k)) (dfuOut s).
Proof.
  intros Hinv Hlen fill k r out.
  destruct (usbDebugFill_spec 64 d Hinv ltac:(lia)) as (E1 & E2 & _).
  pose proof (fill_size_bounds 64 d Hinv ltac:(lia)) as Hb.
  fold fill in E1, E2. fold k in E1. rewrite <- E1 in Hb, E2.
  assert (Hr : fst (fst r) = (if k =? 0 then 16 else 80) /\ snd r = snd fill).
  { subst r k. unfold usbDFUBuildStatus, bind, ret. fold fill.
    destruct fill as [[k' data] d']. cbn [fst snd].
    destruct (k' =? 0); split; reflexivity. }
  assert (Hout : out = le32 (hostCmd s) ++ le32 (opsts_code (currStatus s))
                       ++ le32 k ++ le32 (s32 (buffer_size s))
                       ++ snd (fst fill)
                       ++ skipn (Z.to_nat (16 + k)) (dfuOut s)).
  { subst out r k. unfold usbDFUBuildStatus, bind, ret. fold fill.
    destruct fill as [[k' data] d']. cbn [fst snd] in *.
    remember (dfuOut s) as l eqn:El. clear El.
    do 16 (destruct l as [|? l]; [cbn [length] in Hlen; lia|]).
    unfold buf_store_at at 5.
    change (Z.to_nat 16) with 16%nat.
    rewrite (Z2Nat.inj_add 16 k') by lia. change (Z.to_nat 16) with 16%nat.
    cbn [firstn skipn Nat.add app].
    rewrite (firstn_all2 (n := Z.to_nat k') data) by lia.
    unfold buf_store_at, le32.
    change (Z.to_nat 0) with 0%nat. change (Z.to_nat 4) with 4%nat.
    change (Z.to_nat (0 + 4)) with 4%nat. change (Z.to_nat (4 + 4)) with 8%nat.
    change (Z.to_nat 8) with 8%nat. change (Z.to_nat (8 + 4)) with 12%nat.
    change (Z.to_nat 12) with 12%nat. change (Z.to_nat (12 + 4)) with 16%nat.
    cbn [firstn skipn app]. reflexivity. }
  clearbody out. subst out.
  destruct Hr as [Hn Hd']. clearbody r.
  set (data := snd (fst fill)) in *. clearbody data. clearbody k.
  split; [exact Hd'|]. split; [exact Hb|]. split; [exact Hn|].
  set (tl := skipn (Z.to_nat (16 + k)) (dfuOut s)).
  assert (Htl : length tl = (length (dfuOut s) - Z.to_nat (16 + k))%nat)
    by apply length_skipn.
  split.
  { unfold le32. cbn [length app]. rewrite length_app. lia. }
  split.
  { unfold decode_status.
    assert (F : forall a rest, firstn 4 (le32 a ++ rest) = le32 a)
      by reflexivity.
    assert (S4 : forall a rest, skipn 4 (le32 a ++ rest) = rest)
      by reflexivity.
    rewrite F.
    assert (S8 : forall a b rest, skipn 8 (le32 a ++ le32 b ++ rest) = rest)
      by reflexivity.
    assert (S12 : forall a b c rest,
               skipn 12 (le32 a ++ le32 b ++ le32 c ++ rest) = rest)
      by reflexivity.
    rewrite S4, S8, S12, !F.
    rewrite !le32_decode_le32, u32_s32.
    rewrite (u32_small k) by lia.
    rewrite (u32_small (opsts_code (currStatus s)))
      by (destruct (currStatus s); cbn; lia).
    reflexivity. }
  assert (S16 : forall a b c e rest,
             skipn 16 (le32 a ++ le32 b ++ le32 c ++ le32 e ++ rest) = rest)
    by reflexivity.
  split.
  { rewrite S16, firstn_app.
    replace (Z.to_nat k - length data)%nat with 0%nat by lia.
    cbn [firstn]. rewrite firstn_all2 by lia. apply app_nil_r. }
  { replace (Z.to_nat (16 + k)) with (Z.to_nat k + 16)%nat by lia.
    rewrite <- (skipn_skipn (Z.to_nat k) 16).
    rewrite S16, skipn_app.
    rewrite (skipn_all2 data) by lia. cbn [app].
    replace (Z.to_nat k - length data)%nat with 0%nat by lia.
    reflexivity. }
Qed.

(** [usbDFUBuildStatus] takes up to 64 bytes out of the debug queue and
    writes a packet that decodes to the echoed command, the code of the
    state, the count of debug bytes and the buffer size, followed by the
    debug bytes.  Its size is 16 without debug bytes and 80 with any, and
    the buffer beyond the debug bytes is left as it was. *)
Theorem usbDFUBuildStatus_packet (s : Session) (d : Dev) :
  queue_inv d ->
  80 <= Z.of_nat (length (dfuOut s)) ->
  let fill := usbDebugFill 64 d in
  let k := fst (fst fill) in
  let r := usbDFUBuildStatus s d in
  let out := snd (fst r) in
  snd r = snd fill
  /\ 0 <= k <= 64
  /\ fst (fst r) = (if k =? 0 then 16 else 80)
  /\ length out = length (dfuOut s)
  /\ decode_status out
     = mkToHost (u32 (hostCmd s)) (opsts_code (currStatus s)) k
                (u32 (buffer_size s))
  /\ firstn (Z.to_nat k) (skipn 16 out) = snd (fst fill)
  /\ skipn (Z.to_nat (16 + k)) out = skipn (Z.to_nat (16 + k)) (dfuOut s).
Proof.
  intros Hq Hlen. exact (usbDFUBuildStatus_run s d Hq Hlen).
Qed.

End StatusFacts.

(** ** Status polls *)

Lemma decode_status_firstn n b :
  (16 <= n)%nat -> decode_status (firstn n b) = decode_status b.
Proof.
  intros Hn. unfold decode_status.
  assert (H4 : forall l : list Z, firstn 4 (firstn n l) = firstn 4 l).
  { intros l. rewrite firstn_firstn. f_equal. lia. }
  assert (Hs : forall k (l : list Z), (k + 4 <= n)%nat ->
             firstn 4 (skipn k (firstn n l)) = firstn 4 (skipn k l)).
  { intros k l Hk. rewrite skipn_firstn_comm, firstn_firstn. f_equal. lia. }
  rewrite H4, !Hs by lia. reflexivity.
Qed.

Section PollFacts.

Variable sprintf : string -> list Z -> list Z.

Lemma after_poll_set s :
  match currStatus s with
  | DFU_OPSTS_READTRIG => set_currStatus s DFU_OPSTS_READREADY
  | _ => s
  end = set_currStatus s (after_poll (currStatus s)).
Proof. destruct s as [? ? ? st ? ? ? ? ? ? ? ? ? ? ?]; destruct st; reflexivity. Qed.

Lemma dfu_rd_status_whole length s d :
  inPktSize s = 0 ->
  queue_inv d ->
  80 <= Z.of_nat (List.length (dfuOut s)) ->
  80 <= length ->
  let b := usbDFUBuildStatus s d in
  let n := fst (fst b) in
  dfu_rd_status length s d
  = (n, Some (firstn (Z.to_nat n) (snd (fst b))),
     set_inPktSizeIdx
       (set_inPktSize
          (set_currStatus (set_dfuOut s (snd (fst b)))
                          (after_poll (currStatus s))) 0) n,
     snd b).
Proof.
  intros Hk Hinv Hlen Hl b n.
  destruct (usbDFUBuildStatus_run s d Hinv Hlen) as (_ & _ & Hn & _).
  fold b in Hn. fold n in Hn.
  assert (Hn' : n = 16 \/ n = 80)
    by (rewrite Hn; destruct (_ =? 0); auto).
  unfold dfu_rd_status. rewrite Hk. cbn [Z.eqb].
  unfold usbDFUReturnStatus. fold b. subst n.
  destruct b as [[n out] d']. cbn [fst snd] in *.
  rewrite after_poll_set.
  cbn [inPktSize set_inPktSize set_inPktSizeIdx set_currStatus set_dfuOut
       inPktSizeIdx currStatus].
  rewrite (u32_small n) by lia.
  destruct (Z.eqb_spec n 0) as [E|_]; [lia|]. cbn [negb].
  assert (Hmin : (if length >? n then n else length) = n)
    by (destruct (Z.gtb_spec length n); lia).
  rewrite Hmin, Z.sub_diag, Z.add_0_l, (u32_small n) by lia.
  reflexivity.
Qed.

(** A status poll that asks for at least 80 bytes, with no packet under
    way, gets the whole status packet at once: 16 or 80 bytes that decode to
    the echoed command, the state as it was when the poll came, the count of
    debug bytes and the buffer size.  Nothing of the packet is left over, a
    triggered read moves to [DFU_OPSTS_READREADY], every other state stays,
    and the address and the remaining size are not touched. *)
Theorem dfu_rd_status_poll (length : Z) (s : Session) (d : Dev) :
  status_only (currStatus s) = true ->
  inPktSize s = 0 ->
  queue_inv d ->
  80 <= Z.of_nat (List.length (dfuOut s)) ->
  80 <= length ->
  let r := dfu_rd sprintf length s d in
  let s' := snd (fst r) in
  let k := fst (fst (usbDebugFill 64 d)) in
  exists data,
    snd (fst (fst r)) = Some data
    /\ fst (fst (fst r)) = Z.of_nat (List.length data)
    /\ fst (fst (fst r)) = (if k =? 0 then 16 else 80)
    /\ decode_status data
       = mkToHost (u32 (hostCmd s)) (opsts_code (currStatus s)) k
                  (u32 (buffer_size s))
    /\ firstn (Z.to_nat k) (skipn 16 data) = snd (fst (usbDebugFill 64 d))
    /\ snd r = snd (usbDebugFill 64 d)
    /\ inPktSize s' = 0
    /\ currStatus s' = after_poll (currStatus s)
    /\ currCmdAddr s' = currCmdAddr s
    /\ currCmdSize s' = currCmdSize s.
Proof.
  intros Hso Hk Hinv Hlen Hl r s' k.
  destruct (usbDFUBuildStatus_run s d Hinv Hlen)
    as (Hd & Hkb & Hn & Hlo & Hdec & Hdbg & _).
  fold k in Hkb, Hn, Hdec, Hdbg.
  pose proof (dfu_rd_status_whole length s d Hk Hinv Hlen Hl) as Hw.
  cbn zeta in Hw.
  assert (Hr : r = dfu_rd_status length s d).
  { subst r. unfold dfu_rd.
    destruct (Z.eqb_spec length 0) as [E|_]; [lia|].
    destruct (currStatus s); try discriminate; reflexivity. }
  subst s'. rewrite Hr, Hw. cbn [fst snd].
  set (b := usbDFUBuildStatus s d) in *.
  set (n := fst (fst b)) in *.
  assert (Hn' : 16 <= n <= 80)
    by (rewrite Hn; destruct (_ =? 0); lia).
  exists (firstn (Z.to_nat n) (snd (fst b))).
  split; [reflexivity|]. split.
  { rewrite length_firstn, Hlo. lia. }
  split; [exact Hn|]. split.
  { rewrite decode_status_firstn by lia. exact Hdec. }
  split.
  { rewrite skipn_firstn_comm, firstn_firstn.
    replace (Init.Nat.min (Z.to_nat k) (Z.to_nat n - 16)) with (Z.to_nat k).
    - exact Hdbg.
    - rewrite Hn. destruct (Z.eqb_spec k 0); lia. }
  split; [exact Hd|].
  cbn. auto.
Qed.

(** A status poll leaves a state other than [DFU_OPSTS_READTRIG] as it
    is. *)
Lemma dfu_rd_status_keeps_state length s d :
  currStatus s <> DFU_OPSTS_READTRIG ->
  currStatus (snd (fst (dfu_rd_status length s d))) = currStatus s.
Proof.
  intros Hst. unfold dfu_rd_status.
  destruct (inPktSize s =? 0).
  - destruct (usbDFUReturnStatus s d) as [[n out] d'].
    cbn [fst snd inPktSize set_inPktSize set_inPktSizeIdx set_dfuOut].
    destruct (negb (u32 n =? 0)); cbn [fst snd]; [|reflexivity].
    cbn [currStatus set_inPktSize set_inPktSizeIdx set_dfuOut].
    destruct (currStatus s) eqn:E;
      cbn [currStatus set_inPktSize set_inPktSizeIdx set_dfuOut
           set_currStatus];
      try exact E. contradiction.
  - destruct (negb (inPktSize s =? 0)); cbn [fst snd]; [|reflexivity].
    destruct (currStatus s) eqn:E;
      cbn [currStatus set_inPktSize set_inPktSizeIdx set_currStatus];
      try exact E. contradiction.
Qed.

(** In the two states [dfu_rd] has no [case] for, a poll of any length hands
    a message to [usbDebug] and forces [DFU_OPSTS_ERRUN], and then answers as
    [dfu_rd] answers in that state; the session is left in
    [DFU_OPSTS_ERRUN].  When no packet is under way and the host asks for at
    least 80 bytes, with the queue indices in range and 80 bytes of room in
    [dfuOut], the packet the host gets reports [DFU_OPSTS_ERRUN] and echoes
    the last command. *)
Theorem dfu_rd_unknown_state (length : Z) (s : Session) (d : Dev) :
  currStatus s = DFU_OPSTS_VERERR \/ currStatus s = DFU_OPSTS_PROG_RSVD ->
  let r := dfu_rd sprintf length s d in
  let d1 := snd (DFUDEBUG sprintf "UNKNOWN STATE (%d)\n"
                          [opsts_code (currStatus s)] d) in
  r = dfu_rd sprintf length (set_currStatus s DFU_OPSTS_ERRUN) d1
  /\ currStatus (snd (fst r)) = DFU_OPSTS_ERRUN
  /\ (inPktSize s = 0 ->
      queue_inv d ->
      80 <= Z.of_nat (List.length (dfuOut s)) ->
      80 <= length ->
      exists data,
        snd (fst (fst r)) = Some data
        /\ progStatus (decode_status data) = opsts_code DFU_OPSTS_ERRUN
        /\ cmdResponse (decode_status data) = u32 (hostCmd s)
        /\ currStatus (snd (fst r)) = DFU_OPSTS_ERRUN
        /\ snd r = snd (usbDebugFill 64 d1)).
Proof.
  intros Hst r d1.
  set (s1 := set_currStatus s DFU_OPSTS_ERRUN).
  set (s2 := if length =? 0 then set_inPktSize s1 0 else s1).
  assert (Hr : r = dfu_rd_status length s2 d1).
  { subst r d1 s2 s1. unfold dfu_rd.
    destruct s as [f1 f2 f3 st f5 f6 f7 f8 f9 f10 f11 f12 f13 f14 f15].
    cbn [currStatus] in Hst.
    destruct (length =? 0);
      destruct Hst as [E|E]; rewrite E;
      cbn [currStatus set_inPktSize set_currStatus]; reflexivity. }
  assert (Hs2 : currStatus s2 = DFU_OPSTS_ERRUN).
  { subst s2 s1. destruct (length =? 0); reflexivity. }
  split; [|split].
  - rewrite Hr. subst s2 s1. unfold dfu_rd.
    destruct (length =? 0); reflexivity.
  - rewrite Hr, dfu_rd_status_keeps_state; rewrite Hs2; [reflexivity|].
    discriminate.
  - intros Hk Hinv Hlen Hl.
    assert (Hinv1 : queue_inv d1) by (apply usbDebug_inv; exact Hinv).
    assert (E2 : s2 = s1).
    { subst s2. destruct (Z.eqb_spec length 0) as [E|_]; [lia|reflexivity]. }
    rewrite E2 in Hr.
    destruct (usbDFUBuildStatus_run s1 d1 Hinv1 Hlen)
      as (Hd & Hkb & Hn & Hlo & Hdec & _).
    pose proof (dfu_rd_status_whole length s1 d1 Hk Hinv1 Hlen Hl) as Hw.
    cbn zeta in Hw. rewrite Hr, Hw. cbn [fst snd].
    set (b := usbDFUBuildStatus s1 d1) in *.
    assert (Hn' : 16 <= fst (fst b) <= 80).
    { rewrite Hn.
      match goal with |- context [if ?c then _ else _] => destruct c end;
        lia. }
    exists (firstn (Z.to_nat (fst (fst b))) (snd (fst b))).
    split; [reflexivity|].
    rewrite decode_status_firstn by lia. rewrite Hdec. cbn.
    repeat split; auto.
Qed.

End PollFacts.

Lemma banner_dev_inv : queue_inv banner_dev.
Proof. unfold queue_inv. vm_compute. repeat split; discriminate. Qed.

Lemma usbDFUBuildStatus_packet_witness :
  let s := readtrig_session in
  let d := banner_dev in
  let fill := usbDebugFill 64 d in
  let k := fst (fst fill) in
  let r := usbDFUBuildStatus s d in
  let out := snd (fst r) in
  snd r = snd fill
  /\ 0 <= k <= 64
  /\ fst (fst r) = (if k =? 0 then 16 else 80)
  /\ length out = length (dfuOut s)
  /\ decode_status out
     = mkToHost (u32 (hostCmd s)) (opsts_code (currStatus s)) k
                (u32 (buffer_size s))
  /\ firstn (Z.to_nat k) (skipn 16 out) = snd (fst fill)
  /\ skipn (Z.to_nat (16 + k)) out = skipn (Z.to_nat (16 + k)) (dfuOut s).
Proof.
  apply (usbDFUBuildStatus_packet readtrig_session banner_dev).
  - exact banner_dev_inv.
  - vm_compute; discriminate.
Defined.

Lemma dfu_rd_status_poll_witness :
  let s := readtrig_session in
  let d := banner_dev in
  let r := dfu_rd sprintf_fmt 80 s d in
  let s' := snd (fst r) in
  let k := fst (fst (usbDebugFill 64 d)) in
  exists data,
    snd (fst (fst r)) = Some data
    /\ fst (fst (fst r)) = Z.of_nat (List.length data)
    /\ fst (fst (fst r)) = (if k =? 0 then 16 else 80)
    /\ decode_status data
       = mkToHost (u32 (hostCmd s)) (opsts_code (currStatus s)) k
                  (u32 (buffer_size s))
    /\ firstn (Z.to_nat k) (skipn 16 data) = snd (fst (usbDebugFill 64 d))
    /\ snd r = snd (usbDebugFill 64 d)
    /\ inPktSize s' = 0
    /\ currStatus s' = after_poll (currStatus s)
    /\ currCmdAddr s' = currCmdAddr s
    /\ currCmdSize s' = currCmdSize s.
Proof.
  apply (dfu_rd_status_poll sprintf_fmt 80 readtrig_session banner_dev).
  - reflexivity.
  - reflexivity.
  - exact banner_dev_inv.
  - vm_compute; discriminate.
  - lia.
Defined.

Lemma dfu_rd_unknown_state_witness :
  let s := vererr_session in
  let d := mcb1857_dev 255 in
  let r := dfu_rd sprintf_fmt 80 s d in
  let d1 := snd (DFUDEBUG sprintf_fmt "UNKNOWN STATE (%d)\n"
                          [opsts_code (currStatus s)] d) in
  r = dfu_rd sprintf_fmt 80 (set_currStatus s DFU_OPSTS_ERRUN) d1
  /\ currStatus (snd (fst r)) = DFU_OPSTS_ERRUN
  /\ exists data,
       snd (fst (fst r)) = Some data
       /\ progStatus (decode_status data) = opsts_code DFU_OPSTS_ERRUN
       /\ cmdResponse (decode_status data) = u32 (hostCmd s)
       /\ currStatus (snd (fst r)) = DFU_OPSTS_ERRUN
       /\ snd r = snd (usbDebugFill 64 d1).
Proof.
  destruct (dfu_rd_unknown_state sprintf_fmt 80 vererr_session
              (mcb1857_dev 255)) as (A & B & C).
  - left; reflexivity.
  - split; [exact A|]. split; [exact B|]. apply C.
    + reflexivity.
    + unfold queue_inv. vm_compute. repeat split; discriminate.
    + vm_compute; discriminate.
    + lia.
Defined.

(** ** The debug queue is first in, first out *)

Lemma ring_next_range i :
  0 <= i < USBMSGBUFFSIZE ->
  0 <= ring_next i < USBMSGBUFFSIZE
  /\ ring_next i = (i + 1) mod USBMSGBUFFSIZE.
Proof.
  unfold ring_next, USBMSGBUFFSIZE. intros Hi.
  destruct (Z.geb_spec (i + 1) 2048).
  - replace (i + 1) with (0 + 1 * 2048) by lia.
    rewrite Z.mod_add by lia. cbn. lia.
  - rewrite Z.mod_small by lia. lia.
Qed.

Lemma ring_adv_range i n :
  0 <= i < USBMSGBUFFSIZE ->
  0 <= ring_adv i n < USBMSGBUFFSIZE
  /\ ring_adv i n = (i + Z.of_nat n) mod USBMSGBUFFSIZE.
Proof.
  intros Hi. induction n as [|n [IH1 IH2]].
  - cbn. rewrite Z.add_0_r, Z.mod_small by lia. lia.
  - change (ring_adv i (S n)) with (ring_next (ring_adv i n)).
    destruct (ring_next_range _ IH1) as [R1 R2]. split; [exact R1|].
    rewrite R2, IH2. unfold USBMSGBUFFSIZE.
    rewrite Z.add_mod_idemp_l by lia. f_equal. lia.
Qed.

Lemma ring_adv_succ_r i n : ring_adv i (S n) = ring_adv (ring_next i) n.
Proof. unfold ring_adv. apply Nat.iter_succ_r. Qed.

Lemma ring_app buf n : forall i m,
  ring buf i (n + m) = ring buf i n ++ ring buf (ring_adv i n) m.
Proof.
  induction n as [|n IH]; intros i m; [reflexivity|].
  cbn [Nat.add ring app]. rewrite IH, <- ring_adv_succ_r. reflexivity.
Qed.

Lemma ring_length buf n : forall i, length (ring buf i n) = n.
Proof. induction n as [|n IH]; intros i; cbn; auto. Qed.

Lemma skipn_nth_cons {A} (l : list A) : forall n d,
  (n < length l)%nat -> skipn n l = nth n l d :: skipn (S n) l.
Proof.
  induction l as [|h t IH]; intros [|n] d Hn; cbn in *; try lia; auto.
  apply IH. lia.
Qed.

Lemma firstn_skipn_ring buf n : forall i,
  Z.of_nat (length buf) = USBMSGBUFFSIZE ->
  0 <= i -> i + Z.of_nat n <= USBMSGBUFFSIZE ->
  firstn n (skipn (Z.to_nat i) buf) = ring buf i n.
Proof.
  unfold USBMSGBUFFSIZE.
  induction n as [|n IH]; intros i Hl Hi Hn; [reflexivity|].
  rewrite (skipn_nth_cons buf (Z.to_nat i) 0) by lia.
  cbn [firstn ring]. f_equal.
  - unfold znth. destruct (Z.ltb_spec i 0); [lia|reflexivity].
  - destruct n as [|n]; [reflexivity|].
    unfold ring_next, USBMSGBUFFSIZE.
    destruct (Z.geb_spec (i + 1) 2048); [lia|].
    rewrite <- IH by (unfold USBMSGBUFFSIZE; lia).
    do 2 f_equal. lia.
Qed.

Lemma upd_nat_nth_same {A} (l : list A) : forall n v d,
  (n < length l)%nat -> nth n (upd_nat l n v) d = v.
Proof.
  induction l as [|h t IH]; intros [|n] v d Hn; cbn in *; try lia; auto.
  apply IH. lia.
Qed.

Lemma upd_nat_nth_other {A} (l : list A) : forall n m v d,
  n <> m -> nth m (upd_nat l n v) d = nth m l d.
Proof.
  induction l as [|h t IH]; intros [|n] [|m] v d Hn; cbn in *;
    try congruence; auto.
Qed.

Lemma znth_zupd_same buf i v :
  0 <= i < Z.of_nat (length buf) -> znth (zupd buf i v) i 0 = v.
Proof.
  intros Hi. unfold znth, zupd.
  destruct (Z.ltb_spec i 0); [lia|]. apply upd_nat_nth_same. lia.
Qed.

Lemma znth_zupd_other buf i j (v : Z) :
  0 <= i -> 0 <= j -> i <> j -> znth (zupd buf i v) j 0 = znth buf j 0.
Proof.
  intros Hi Hj Hne. unfold znth, zupd.
  destruct (Z.ltb_spec i 0), (Z.ltb_spec j 0); try lia.
  apply upd_nat_nth_other. lia.
Qed.

Lemma ring_zupd_other buf i v n : forall out,
  0 <= i -> 0 <= out < USBMSGBUFFSIZE ->
  (forall k, (k < n)%nat -> ring_adv out k <> i) ->
  ring (zupd buf i v) out n = ring buf out n.
Proof.
  induction n as [|n IH]; intros out Hi Ho Hall; [reflexivity|].
  cbn [ring]. f_equal.
  - apply znth_zupd_other; try lia.
    specialize (Hall 0%nat ltac:(lia)). cbn in Hall. congruence.
  - apply IH; auto.
    + apply ring_next_range; exact Ho.
    + intros k Hk. rewrite <- ring_adv_succ_r. apply Hall. lia.
Qed.

Lemma c_chars_length tmp : Z.of_nat (length (c_chars tmp)) = c_strlen tmp.
Proof.
  induction tmp as [|c t IH]; cbn [c_chars c_strlen length]; [reflexivity|].
  destruct (c =? 0); cbn [length]; lia.
Qed.

(** Queueing characters behind [p] held ones, with room for all of them. *)
Lemma usbDebug_loop_ring tmp : forall buf out p,
  Z.of_nat (length buf) = USBMSGBUFFSIZE ->
  0 <= out < USBMSGBUFFSIZE ->
  Z.of_nat p + c_strlen tmp <= USBMSGBUFFSIZE ->
  ring (fst (usbDebug_loop tmp buf (ring_adv out p))) out
       (p + length (c_chars tmp))
  = ring buf out p ++ c_chars tmp.
Proof.
  induction tmp as [|c t IH]; intros buf out p Hl Ho Hroom;
    cbn [usbDebug_loop c_chars c_strlen] in *.
  - cbn. rewrite Nat.add_0_r, app_nil_r. reflexivity.
  - destruct (c =? 0) eqn:Ec.
    + cbn. rewrite Nat.add_0_r, app_nil_r. reflexivity.
    + pose proof (c_chars_length t) as Hc.
      destruct (ring_adv_range out p Ho) as [Rp Ep].
      fold (ring_next (ring_adv out p)).
      change (ring_next (ring_adv out p)) with (ring_adv out (S p)).
      cbn [length].
      replace (p + S (length (c_chars t)))%nat
        with (S p + length (c_chars t))%nat by lia.
      rewrite IH; try (rewrite ?zupd_length; auto; lia).
      replace (S p) with (p + 1)%nat by lia.
      rewrite ring_app. cbn [ring].
      rewrite znth_zupd_same by lia.
      rewrite ring_zupd_other; try lia.
      * rewrite <- app_assoc. reflexivity.
      * intros k Hk.
        destruct (ring_adv_range out k Ho) as [_ Ek].
        rewrite Ek, Ep. unfold USBMSGBUFFSIZE in *.
        Z.div_mod_to_equations. lia.
Qed.

Lemma usbDebugDrainAll_ring fuel : forall d,
  queue_inv d -> queue_pending d <= Z.of_nat fuel ->
  usbDebugDrainAll fuel d
  = ring (usbBuff d) (usbStrOut d) (Z.to_nat (queue_pending d)).
Proof.
  induction fuel as [|fuel IH]; intros d Hinv Hp.
  - assert (E : queue_pending d = 0).
    { unfold queue_pending, USBMSGBUFFSIZE in *.
      Z.div_mod_to_equations; lia. }
    rewrite E. reflexivity.
  - cbn [usbDebugDrainAll].
    destruct (usbDebugFill_spec 64 d Hinv ltac:(lia))
      as (E1 & E2 & Ei & Eo & Eb & _).
    destruct (fill_size_pending 64 d Hinv ltac:(lia)) as (B & P & Z0).
    pose proof (usbDebugFill_inv 64 d Hinv ltac:(lia)) as Hinv'.
    assert (Hdata : snd (fst (usbDebugFill 64 d))
                    = ring (usbBuff d) (usbStrOut d)
                           (Z.to_nat (fill_size 64 d))).
    { destruct Hinv as (Hi & Ho & Hl).
      unfold usbDebugFill, fill_size, USBMSGBUFFSIZE in *.
      destruct (Z.eqb_spec (usbStrIn d) (usbStrOut d)) as [E|NE];
        cbn [negb fst snd].
      - rewrite E.
        destruct (Z.gtb_spec (usbStrOut d) (usbStrOut d)); try lia.
        rewrite Z.sub_diag, Z.min_r by lia. reflexivity.
      - set (ssize0 := if usbStrOut d >? usbStrIn d then 2048 - usbStrOut d
                       else usbStrIn d - usbStrOut d) in *.
        assert (H0 : 0 < ssize0 /\ usbStrOut d + ssize0 <= 2048).
        { unfold ssize0;
            destruct (Z.gtb_spec (usbStrOut d) (usbStrIn d)); lia. }
        assert (Hs : (if ssize0 >? 64 then 64 else ssize0) = Z.min 64 ssize0).
        { destruct (Z.gtb_spec ssize0 64); lia. }
        rewrite Hs.
        apply firstn_skipn_ring; unfold USBMSGBUFFSIZE; lia. }
    destruct (usbDebugFill 64 d) as [[n data] d']; cbn [fst snd] in *.
    destruct (Z.eqb_spec n 0) as [En|Nn].
    + assert (E : usbStrIn d = usbStrOut d)
        by (apply Z0; [lia|congruence]).
      unfold queue_pending. rewrite E, Z.sub_diag. reflexivity.
    + rewrite IH by (auto; lia).
      rewrite Hdata, Eb, Eo.
      destruct Hinv as (Hi & Ho & Hl).
      destruct (ring_adv_range (usbStrOut d) (Z.to_nat (fill_size 64 d)) Ho)
        as [_ Ea].
      rewrite Z2Nat.id in Ea by lia. rewrite <- Ea, <- ring_app.
      f_equal. rewrite P. lia.
Qed.

Lemma queue_contents_ring d :
  queue_inv d ->
  queue_contents d
  = ring (usbBuff d) (usbStrOut d) (Z.to_nat (queue_pending d)).
Proof.
  intros Hinv. apply usbDebugDrainAll_ring; auto.
  unfold queue_pending, USBMSGBUFFSIZE. change (Z.of_nat 2048) with 2048.
  Z.div_mod_to_equations; lia.
Qed.

Lemma usbDebugFill_data_ring max d :
  queue_inv d -> 0 <= max ->
  snd (fst (usbDebugFill max d))
  = ring (usbBuff d) (usbStrOut d) (Z.to_nat (fill_size max d)).
Proof.
  intros (Hi & Ho & Hl) Hmax.
  unfold usbDebugFill, fill_size, USBMSGBUFFSIZE in *.
  destruct (Z.eqb_spec (usbStrIn d) (usbStrOut d)) as [E|NE];
    cbn [negb fst snd].
  - rewrite E.
    destruct (Z.gtb_spec (usbStrOut d) (usbStrOut d)); try lia.
    rewrite Z.sub_diag, Z.min_r by lia. reflexivity.
  - set (ssize0 := if usbStrOut d >? usbStrIn d then 2048 - usbStrOut d
                   else usbStrIn d - usbStrOut d) in *.
    assert (H0 : 0 < ssize0 /\ usbStrOut d + ssize0 <= 2048).
    { unfold ssize0; destruct (Z.gtb_spec (usbStrOut d) (usbStrIn d)); lia. }
    assert (Hs : (if ssize0 >? max then max else ssize0) = Z.min max ssize0).
    { destruct (Z.gtb_spec ssize0 max); lia. }
    rewrite Hs. apply firstn_skipn_ring; unfold USBMSGBUFFSIZE; lia.
Qed.

Lemma usbDebugFill_front_run (max : Z) (d : Dev) :
  queue_inv d -> 0 <= max ->
  queue_contents d
  = snd (fst (usbDebugFill max d)) ++ queue_contents (snd (usbDebugFill max d)).
Proof.
  intros Hinv Hmax.
  pose proof (usbDebugFill_inv max d Hinv Hmax) as Hinv'.
  rewrite (queue_contents_ring d Hinv), (queue_contents_ring _ Hinv').
  rewrite (usbDebugFill_data_ring max d Hinv Hmax).
  destruct (usbDebugFill_spec max d Hinv Hmax) as (_ & _ & _ & Eo & Eb & _).
  destruct (fill_size_pending max d Hinv Hmax) as (B & P & _).
  rewrite Eb, Eo, P.
  destruct Hinv as (Hi & Ho & Hl).
  destruct (ring_adv_range (usbStrOut d) (Z.to_nat (fill_size max d)) Ho)
    as [_ Ea].
  rewrite Z2Nat.id in Ea by lia. rewrite <- Ea, <- ring_app.
  f_equal. lia.
Qed.

(** What [usbDebugFill] hands out is the front of what the queue holds, in
    order, and the rest stays queued. *)
Theorem usbDebugFill_takes_front (max : Z) (d : Dev) :
  queue_inv d -> 0 <= max ->
  queue_contents d
  = snd (fst (usbDebugFill max d)) ++ queue_contents (snd (usbDebugFill max d)).
Proof.
  intros Hinv Hmax. exact (usbDebugFill_front_run max d Hinv Hmax).
Qed.

Lemma usbDebug_appends_run (msg : list Z) (d : Dev) :
  queue_inv d ->
  Z.of_nat (length (queue_contents d)) + c_strlen msg < USBMSGBUFFSIZE ->
  queue_contents (snd (usbDebug msg d))
  = queue_contents d ++ (if verifyDebug d then c_chars msg else []).
Proof.
  intros Hinv Hroom.
  rewrite (queue_contents_length d Hinv) in Hroom.
  pose proof (usbDebug_inv msg d Hinv) as Hinv'.
  destruct (usbDebug_index msg d Hinv) as [Ei Eo].
  rewrite (queue_contents_ring _ Hinv'), (queue_contents_ring d Hinv).
  assert (Hp : 0 <= queue_pending d < USBMSGBUFFSIZE)
    by (unfold queue_pending, USBMSGBUFFSIZE; apply Z.mod_pos_bound; lia).
  assert (Hlen : 0 <= c_strlen msg)
    by (rewrite <- c_chars_length; lia).
  unfold queue_pending at 1. rewrite Ei, Eo.
  destruct (verifyDebug d) eqn:Ev.
  - destruct Hinv as (Hi & Ho & Hl).
    assert (Hin : usbStrIn d
                  = ring_adv (usbStrOut d) (Z.to_nat (queue_pending d))).
    { destruct (ring_adv_range (usbStrOut d) (Z.to_nat (queue_pending d)) Ho)
        as [_ Ea].
      rewrite Ea, Z2Nat.id by lia.
      unfold queue_pending, USBMSGBUFFSIZE in *.
      Z.div_mod_to_equations. lia. }
    assert (Hbuf : usbBuff (snd (usbDebug msg d))
                   = fst (usbDebug_loop msg (usbBuff d) (usbStrIn d))).
    { unfold usbDebug. rewrite Ev.
      destruct (usbDebug_loop msg (usbBuff d) (usbStrIn d)); reflexivity. }
    rewrite Hbuf.
    replace (Z.to_nat (((usbStrIn d + c_strlen msg) mod USBMSGBUFFSIZE
                        - usbStrOut d) mod USBMSGBUFFSIZE))
      with (Z.to_nat (queue_pending d) + length (c_chars msg))%nat.
    + rewrite Hin at 1. apply usbDebug_loop_ring; auto.
      rewrite Z2Nat.id by lia. lia.
    + pose proof (c_chars_length msg) as Hc.
      unfold queue_pending, USBMSGBUFFSIZE in *.
      Z.div_mod_to_equations. lia.
  - rewrite app_nil_r.
    assert (Hd : snd (usbDebug msg d) = d)
      by (unfold usbDebug; rewrite Ev; reflexivity).
    rewrite Hd. reflexivity.
Qed.

(** With room for the whole message, [usbDebug] puts its characters, up to
    the terminator, behind what the queue holds; in quiet mode the queue is
    as before. *)
Theorem usbDebug_appends (msg : list Z) (d : Dev) :
  queue_inv d ->
  Z.of_nat (length (queue_contents d)) + c_strlen msg < USBMSGBUFFSIZE ->
  queue_contents (snd (usbDebug msg d))
  = queue_contents d ++ (if verifyDebug d then c_chars msg else []).
Proof.
  intros Hinv Hroom. exact (usbDebug_appends_run msg d Hinv Hroom).
Qed.

(** [usbDebug] never refuses: the count of bytes held moves on by the
    message length modulo 2048, so a message that does not fit overwrites
    what is queued and 2048 bytes or more are lost to the host. *)
Theorem usbDebug_wraps_without_limit (msg : list Z) (d : Dev) :
  queue_inv d ->
  Z.of_nat (length (queue_contents (snd (usbDebug msg d))))
  = (Z.of_nat (length (queue_contents d))
     + (if verifyDebug d then c_strlen msg else 0)) mod USBMSGBUFFSIZE.
Proof.
  intros Hinv.
  pose proof (usbDebug_inv msg d Hinv) as Hinv'.
  rewrite (queue_contents_length _ Hinv'), (queue_contents_length d Hinv).
  destruct (usbDebug_index msg d Hinv) as [Ei Eo].
  unfold queue_pending. rewrite Ei, Eo.
  destruct Hinv as (Hi & Ho & _). unfold USBMSGBUFFSIZE in *.
  destruct (verifyDebug d).
  - rewrite Zminus_mod_idemp_l, Zplus_mod_idemp_l. f_equal. lia.
  - rewrite Z.add_0_r, Z.mod_mod by lia. reflexivity.
Qed.

Lemma usbDebugFill_takes_front_witness :
  queue_contents banner_dev
  = snd (fst (usbDebugFill 10 banner_dev))
    ++ queue_contents (snd (usbDebugFill 10 banner_dev)).
Proof.
  apply (usbDebugFill_takes_front 10 banner_dev).
  - exact banner_dev_inv.
  - lia.
Defined.

Lemma usbDebug_appends_witness :
  queue_contents (snd (usbDebug short_msg banner_dev))
  = queue_contents banner_dev
    ++ (if verifyDebug banner_dev then c_chars short_msg else []).
Proof.
  apply (usbDebug_appends short_msg banner_dev).
  - exact banner_dev_inv.
  - vm_compute; reflexivity.
Defined.

Lemma usbDebug_wraps_without_limit_witness :
  Z.of_nat (length (queue_contents (snd (usbDebug long_msg banner_dev))))
  = (Z.of_nat (length (queue_contents banner_dev))
     + (if verifyDebug banner_dev then c_strlen long_msg else 0))
    mod USBMSGBUFFSIZE.
Proof.
  apply (usbDebug_wraps_without_limit long_msg banner_dev).
  exact banner_dev_inv.
Defined.

(** ** The indices of the debug queue over a run *)

Lemma queue_unsent_pending ops : forall d held,
  queue_inv d -> Forall queue_op_ok ops ->
  queue_pending d = Z.of_nat (length held) mod USBMSGBUFFSIZE ->
  queue_pending (queue_run ops d)
  = Z.of_nat (length (queue_unsent ops d held)) mod USBMSGBUFFSIZE.
Proof.
  induction ops as [|op ops IH]; intros d held Hinv Hok Hp;
    cbn [queue_unsent]; [exact Hp|].
  inversion Hok as [|? ? Hop Hops]; subst.
  change (queue_run (op :: ops) d) with (queue_run ops (queue_step d op)).
  destruct op as [msg|max]; cbn [queue_step queue_unsent_step queue_op_ok]
    in *.
  - apply IH; [now apply usbDebug_inv|exact Hops|].
    destruct (usbDebug_index msg d Hinv) as [Ei Eo].
    pose proof (c_chars_length msg) as Hc.
    unfold queue_pending in *. rewrite Ei, Eo.
    destruct (verifyDebug d); [|exact Hp].
    rewrite length_app, Nat2Z.inj_add, Hc.
    unfold USBMSGBUFFSIZE in *. Z.div_mod_to_equations. lia.
  - apply IH; [now apply usbDebugFill_inv|exact Hops|].
    destruct (usbDebugFill_spec max d Hinv Hop) as (E1 & _).
    destruct (fill_size_pending max d Hinv Hop) as (B & P & _).
    rewrite P, E1, length_skipn.
    assert (Hb : 0 <= queue_pending d < USBMSGBUFFSIZE)
      by (unfold queue_pending, USBMSGBUFFSIZE; apply Z.mod_pos_bound; lia).
    assert (Hle : fill_size max d <= Z.of_nat (length held)).
    { unfold USBMSGBUFFSIZE in *. Z.div_mod_to_equations. lia. }
    rewrite Nat2Z.inj_sub by lia. rewrite Z2Nat.id by lia.
    unfold USBMSGBUFFSIZE in *. Z.div_mod_to_equations. lia.
Qed.

Lemma queue_unsent_fifo ops : forall d held,
  queue_inv d -> Forall queue_op_ok ops ->
  queue_contents d = held ->
  queue_fits ops d held = true ->
  queue_contents (queue_run ops d) = queue_unsent ops d held.
Proof.
  induction ops as [|op ops IH]; intros d held Hinv Hok Hc Hfit;
    cbn [queue_unsent queue_fits] in *; [exact Hc|].
  inversion Hok as [|? ? Hop Hops]; subst.
  apply andb_prop in Hfit. destruct Hfit as [Hroom Hfit].
  apply Z.ltb_lt in Hroom.
  change (queue_run (op :: ops) d) with (queue_run ops (queue_step d op)).
  destruct op as [msg|max]; cbn [queue_step queue_unsent_step queue_op_ok]
    in *.
  - apply IH; [now apply usbDebug_inv|exact Hops| |exact Hfit].
    destruct (verifyDebug d) eqn:Ev.
    + rewrite usbDebug_appends_run, Ev; [reflexivity|exact Hinv|].
      rewrite length_app, Nat2Z.inj_add, c_chars_length in Hroom. exact Hroom.
    + unfold usbDebug. rewrite Ev. reflexivity.
  - apply IH; [now apply usbDebugFill_inv|exact Hops| |exact Hfit].
    destruct (usbDebugFill_spec max d Hinv Hop) as (E1 & E2 & _).
    rewrite (usbDebugFill_front_run max d Hinv Hop), E1, <- E2, Nat2Z.id.
    rewrite skipn_app, skipn_all, Nat.sub_diag. reflexivity.
Qed.

(** C9, as the code has it: from the queue as [usbDebugSetup] leaves it,
    after any sequence of [usbDebug] and [usbDebugFill] calls (the latter
    with a count that is not negative), both indices lie in [0, 2048) and
    each call moves its index modulo 2048; the distance from the read index
    to the write index is, modulo 2048, the number of bytes queued and not
    handed out.  [usbDebug] makes no test for room.  As long as every call
    of the run leaves fewer than 2048 bytes held, the indices are equal
    exactly when nothing is held, at most 2047 bytes are held, and they are
    the bytes [usbDebugFill] hands out, in the order they were queued. *)
Theorem debug_queue_indices_bounded (d0 : Dev) (ops : list QueueOp) :
  Z.of_nat (length (usbBuff d0)) = USBMSGBUFFSIZE ->
  Forall queue_op_ok ops ->
  let d := queue_run ops (usbDebugSetup d0) in
  let held := queue_unsent ops (usbDebugSetup d0) [] in
  (0 <= usbStrIn d < USBMSGBUFFSIZE /\ 0 <= usbStrOut d < USBMSGBUFFSIZE)
  /\ (forall msg,
         usbStrIn (snd (usbDebug msg d))
         = if verifyDebug d
           then (usbStrIn d + c_strlen msg) mod USBMSGBUFFSIZE
           else usbStrIn d)
  /\ (forall max, 0 <= max ->
         usbStrOut (snd (usbDebugFill max d))
         = (usbStrOut d + fst (fst (usbDebugFill max d))) mod USBMSGBUFFSIZE)
  /\ (usbStrIn d - usbStrOut d) mod USBMSGBUFFSIZE
     = Z.of_nat (length held) mod USBMSGBUFFSIZE
  /\ (queue_fits ops (usbDebugSetup d0) [] = true ->
      (usbStrIn d = usbStrOut d <-> held = [])
      /\ Z.of_nat (length held) <= USBMSGBUFFSIZE - 1
      /\ queue_contents d = held).
Proof.
  intros Hlen Hok d held.
  assert (Hinv0 : queue_inv (usbDebugSetup d0)).
  { unfold queue_inv, usbDebugSetup, USBMSGBUFFSIZE in *; simpl; lia. }
  assert (Hinv : queue_inv d) by (apply queue_run_inv; auto).
  pose proof (queue_contents_length d Hinv) as Hc.
  pose proof Hinv as (Hi & Ho & _).
  split; [auto|]. split.
  { intros msg; apply usbDebug_index; auto. }
  split.
  { intros max Hmax.
    destruct (usbDebugFill_spec max d Hinv Hmax) as (E1 & _ & _ & Eo & _).
    rewrite Eo, E1; reflexivity. }
  split.
  { apply (queue_unsent_pending ops (usbDebugSetup d0) [] Hinv0 Hok).
    reflexivity. }
  intros Hfit.
  assert (Hq : queue_contents d = held).
  { apply (queue_unsent_fifo ops (usbDebugSetup d0) [] Hinv0 Hok);
      [|exact Hfit].
    vm_compute. reflexivity. }
  rewrite Hq in Hc.
  unfold queue_pending, USBMSGBUFFSIZE in *.
  split; [split|split; [|exact Hq]].
  - intros E. rewrite E, Z.sub_diag in Hc.
    destruct held; [reflexivity|discriminate].
  - intros E. rewrite E in Hc; simpl in Hc.
    Z.div_mod_to_equations; lia.
  - rewrite Hc. Z.div_mod_to_equations; lia.
Qed.

Lemma debug_queue_indices_bounded_witness :
  let d := queue_run c9_ops (usbDebugSetup (mcb1857_dev 255)) in
  let held := queue_unsent c9_ops (usbDebugSetup (mcb1857_dev 255)) [] in
  (0 <= usbStrIn d < USBMSGBUFFSIZE /\ 0 <= usbStrOut d < USBMSGBUFFSIZE)
  /\ (forall msg,
         usbStrIn (snd (usbDebug msg d))
         = if verifyDebug d
           then (usbStrIn d + c_strlen msg) mod USBMSGBUFFSIZE
           else usbStrIn d)
  /\ (forall max, 0 <= max ->
         usbStrOut (snd (usbDebugFill max d))
         = (usbStrOut d + fst (fst (usbDebugFill max d))) mod USBMSGBUFFSIZE)
  /\ (usbStrIn d - usbStrOut d) mod USBMSGBUFFSIZE
     = Z.of_nat (length held) mod USBMSGBUFFSIZE
  /\ (usbStrIn d = usbStrOut d <-> held = [])
  /\ Z.of_nat (length held) <= USBMSGBUFFSIZE - 1
  /\ queue_contents d = held.
Proof.
  destruct (debug_queue_indices_bounded (mcb1857_dev 255) c9_ops)
    as (A & B & C & D & E).
  - vm_compute; reflexivity.
  - repeat constructor; simpl; lia.
  - split; [exact A|]. split; [exact B|]. split; [exact C|].
    split; [exact D|]. apply E. vm_compute. reflexivity.
Defined.

(** C9, as stated, fails: one message of 2048 characters fills the whole
    buffer and brings the write index back onto the read index.  The 2048
    bytes are queued and none was handed out, yet the indices are equal and
    [usbDebugFill] hands out nothing. *)
Lemma debug_queue_full_reads_empty :
  let d := queue_run c9_full_ops (usbDebugSetup (mcb1857_dev 255)) in
  let held := queue_unsent c9_full_ops (usbDebugSetup (mcb1857_dev 255)) [] in
  held = repeat 65 2048
  /\ usbBuff d = repeat 65 2048
  /\ usbStrIn d = usbStrOut d
  /\ fst (fst (usbDebugFill 64 d)) = 0
  /\ ~ ((usbStrIn d = usbStrOut d -> held = [])
        /\ Z.of_nat (length held) <= USBMSGBUFFSIZE - 1).
Proof.
  cbv zeta.
  split; [vm_compute; reflexivity|].
  split; [vm_compute; reflexivity|].
  split; [vm_compute; reflexivity|].
  split; [vm_compute; reflexivity|].
  intros [H _]. specialize (H ltac:(vm_compute; reflexivity)).
  vm_compute in H. discriminate H.
Qed.

(** ** Internal FLASH: what is refused before the ROM is asked *)

Section FlashGuardFacts.

Variable sprintf : string -> list Z -> list Z.
Variable iap_rom : list Z -> list Z -> (Z -> Z) -> Z * (Z -> Z).
Variable IAP_CMD_SUCCESS : Z.
Variable SystemCoreClock : Z.
Variable oob : DFUPROG_REGION_T.
Variable dfuProgBuff_addr : Z.

Lemma progalgo_iflash_findbank_hw addr d :
  hw_untouched d (snd (progalgo_iflash_findbank sprintf oob addr d)).
Proof.
  unfold progalgo_iflash_findbank, bind, ret.
  pose proof (algo_root_isRegionValid_hw sprintf addr 0 d) as H.
  destruct (algo_root_isRegionValid sprintf addr 0 d); exact H.
Qed.

Lemma DFUDEBUG_ret_fst {A} fmt args (x : A) d :
  fst ((DFUDEBUG sprintf fmt args ;;; ret x) d) = x.
Proof. unfold DFUDEBUG. apply usbDebug_fst. Qed.

Lemma DFUDEBUG_ret_hw {A} fmt args (x : A) d :
  hw_untouched d (snd ((DFUDEBUG sprintf fmt args ;;; ret x) d)).
Proof.
  unfold DFUDEBUG. rewrite usbDebug_snd. apply (DFUDEBUG_hw sprintf fmt args).
Qed.

Lemma progalgo_iflash_progaddrvalid_spec addr size d :
  0 <= size < 4294967296 ->
  fst (progalgo_iflash_progaddrvalid sprintf oob addr size d)
  = (if page_ok addr size then s32 size else 0)
  /\ hw_untouched d (snd (progalgo_iflash_progaddrvalid sprintf oob addr size d)).
Proof.
  intros Hs.
  remember (progalgo_iflash_progaddrvalid sprintf oob addr size d) as r eqn:Er.
  unfold progalgo_iflash_progaddrvalid, bind at 1 in Er.
  pose proof (progalgo_iflash_findbank_fst sprintf oob addr d) as Hb.
  pose proof (progalgo_iflash_findbank_hw addr d) as Hh.
  destruct (progalgo_iflash_findbank sprintf oob addr d) as [b d1].
  cbn [fst snd] in *.
  assert (Hn : (b <? 0) = false).
  { apply Z.ltb_ge. rewrite Hb.
    destruct (findbank_loop_cases oob addr) as [[E _]|[[E _]|[E _]]];
      rewrite E; lia. }
  rewrite Hn in Er. unfold page_ok. unfold PAGE_SIZE in Er.
  change (512 - 1) with 511 in Er.
  destruct (Z.land addr 511 =? 0); cbn [negb andb] in *.
  - assert (Hsg : s32 (size / 512) = size / 512).
    { unfold s32, u32.
      assert (0 <= size / 512 < 8388608) by (Z.div_mod_to_equations; lia).
      rewrite Z.mod_small by lia.
      destruct (Z.ltb_spec (size / 512) 2147483648); lia. }
    rewrite Hsg in Er.
    assert (Hm : u32 (512 * (size / 512)) = 512 * (size / 512)).
    { apply u32_small. Z.div_mod_to_equations; lia. }
    rewrite Hm in Er.
    destruct (Z.eqb_spec size (512 * (size / 512))) as [E|NE];
      destruct (Z.eqb_spec (size mod 512) 0) as [E'|NE'];
      try (exfalso; Z.div_mod_to_equations; lia); cbn [negb] in Er;
      subst r.
    + split; [reflexivity|exact Hh].
    + split; [apply DFUDEBUG_ret_fst|].
      eapply hw_untouched_trans; [exact Hh|apply DFUDEBUG_ret_hw].
  - subst r. split; [apply DFUDEBUG_ret_fst|].
    eapply hw_untouched_trans; [exact Hh|apply DFUDEBUG_ret_hw].
Qed.

Lemma s32_zero_iff x : 0 <= x < 4294967296 -> (s32 x = 0 <-> x = 0).
Proof.
  intros Hx. unfold s32. rewrite (u32_small x) by lia.
  destruct (Z.ltb_spec x 2147483648); lia.
Qed.

(** An erase whose start is not a multiple of 512, or whose size is 0 or
    not a multiple of 512, returns 0 without a call of the boot ROM: the
    IAP log and the memory are as before. *)
Theorem progalgo_intflash_erase_region_refuses (start size : Z) (d : Dev) :
  0 <= size < 4294967296 ->
  page_ok start size = false \/ size = 0 ->
  let r := progalgo_intflash_erase_region sprintf iap_rom IAP_CMD_SUCCESS
             SystemCoreClock oob start size d in
  fst r = 0 /\ hw_untouched d (snd r).
Proof.
  intros Hs Hbad r. subst r.
  remember (progalgo_intflash_erase_region sprintf iap_rom IAP_CMD_SUCCESS
              SystemCoreClock oob start size d) as r eqn:Er.
  unfold progalgo_intflash_erase_region, bind at 1 in Er.
  pose proof (DFUDEBUG_hw sprintf "FLASHERASE: %p with size %p\n"
                [start; size] d) as H0.
  destruct (DFUDEBUG sprintf "FLASHERASE: %p with size %p\n" [start; size] d)
    as [[] d0]. cbn [snd] in H0.
  unfold bind at 1 in Er.
  destruct (progalgo_iflash_progaddrvalid_spec start size d0 Hs) as [Ev Hv].
  destruct (progalgo_iflash_progaddrvalid sprintf oob start size d0)
    as [v d1]. cbn [fst snd] in *.
  assert (Hz : v = 0).
  { rewrite Ev. destruct Hbad as [Hp|Hz].
    - rewrite Hp. reflexivity.
    - subst size. destruct (page_ok start 0); reflexivity. }
  rewrite Hz in Er. cbn [Z.eqb] in Er. subst r.
  split; [apply DFUDEBUG_ret_fst|].
  eapply hw_untouched_trans; [exact H0|].
  eapply hw_untouched_trans; [exact Hv|apply DFUDEBUG_ret_hw].
Qed.

(** A write of more than 512 bytes returns 0 at once: the buffer is not
    padded and the boot ROM is not called. *)
Theorem progalgo_intflash_write_too_big (buff : list Z) (start size : Z)
    (d : Dev) :
  512 < size ->
  let r := progalgo_intflash_write sprintf iap_rom IAP_CMD_SUCCESS
             SystemCoreClock oob dfuProgBuff_addr buff start size d in
  fst r = (0, buff) /\ hw_untouched d (snd r).
Proof.
  intros Hs r. subst r.
  remember (progalgo_intflash_write sprintf iap_rom IAP_CMD_SUCCESS
              SystemCoreClock oob dfuProgBuff_addr buff start size d)
    as r eqn:Er.
  unfold progalgo_intflash_write, PAGE_SIZE, bind at 1 in Er.
  pose proof (DFUDEBUG_hw sprintf "FLASHWRITE: %p with size %p\n"
                [start; size] d) as H0.
  destruct (DFUDEBUG sprintf "FLASHWRITE: %p with size %p\n" [start; size] d)
    as [[] d0]. cbn [snd] in H0.
  destruct (Z.gtb_spec size 512); [|lia]. subst r.
  split; [apply DFUDEBUG_ret_fst|].
  eapply hw_untouched_trans; [exact H0|apply DFUDEBUG_ret_hw].
Qed.

End FlashGuardFacts.

(** ** Internal FLASH: the sector range of an address range *)

Lemma sector_table k :
  0 <= k < 15 ->
  sector_offset k = (if k <? 8 then 8192 * k else 65536 * (k - 7))
  /\ sector_size k = (if k <? 8 then 8192 else 65536).
Proof.
  intros Hk.
  assert (C : k = 0 \/ k = 1 \/ k = 2 \/ k = 3 \/ k = 4 \/ k = 5 \/ k = 6
              \/ k = 7 \/ k = 8 \/ k = 9 \/ k = 10 \/ k = 11 \/ k = 12
              \/ k = 13 \/ k = 14) by lia.
  repeat (destruct C as [C|C]; [subst k; split; reflexivity|]).
  subst k; split; reflexivity.
Qed.

Lemma sector_of_range off :
  0 <= off < 524288 ->
  0 <= sector_of off < 15
  /\ sector_offset (sector_of off) <= off < sector_end (sector_of off).
Proof.
  intros Ho. unfold sector_end.
  assert (Hr : 0 <= sector_of off < 15).
  { unfold sector_of. destruct (Z.ltb_spec off 65536);
      Z.div_mod_to_equations; lia. }
  destruct (sector_table _ Hr) as [E1 E2]. rewrite E1, E2.
  split; [exact Hr|].
  unfold sector_of in *.
  destruct (Z.ltb_spec off 65536).
  - destruct (Z.ltb_spec (off / 8192) 8);
      Z.div_mod_to_equations; lia.
  - destruct (Z.ltb_spec (7 + off / 65536) 8);
      Z.div_mod_to_equations; lia.
Qed.

Lemma sector_before k off :
  0 <= off < 524288 -> 0 <= k < sector_of off -> sector_end k <= off.
Proof.
  intros Ho Hk.
  destruct (sector_of_range off Ho) as [Hr [Hlo _]].
  destruct (sector_table (sector_of off) Hr) as [E1 _].
  destruct (sector_table k ltac:(lia)) as [F1 F2].
  unfold sector_end. rewrite F1, F2. rewrite E1 in Hlo.
  destruct (Z.ltb_spec k 8), (Z.ltb_spec (sector_of off) 8); lia.
Qed.

Lemma sector_of_mono a b :
  0 <= a <= b -> b < 524288 -> sector_of a <= sector_of b.
Proof.
  intros Ha Hb. unfold sector_of.
  destruct (Z.ltb_spec a 65536), (Z.ltb_spec b 65536);
    Z.div_mod_to_equations; lia.
Qed.

Lemma sector_hit_spec base k a :
  0 <= base -> base + 524288 <= 4294967296 -> 0 <= k < 15 ->
  sector_hit base k a
  = (base + sector_offset k <=? a) && (a <? base + sector_end k).
Proof.
  intros Hb Hb' Hk. unfold sector_hit, sector_end.
  destruct (sector_table k Hk) as [E1 E2].
  assert (Hr : 0 <= sector_offset k /\ 0 < sector_size k
               /\ sector_offset k + sector_size k <= 524288).
  { rewrite E1, E2. destruct (Z.ltb_spec k 8); lia. }
  rewrite (u32_small (base + sector_offset k)) by lia.
  rewrite (u32_small (base + sector_offset k + sector_size k - 1)) by lia.
  destruct (Z.geb_spec a (base + sector_offset k)),
    (Z.leb_spec (base + sector_offset k) a),
    (Z.leb_spec a (base + sector_offset k + sector_size k - 1)),
    (Z.ltb_spec a (base + (sector_offset k + sector_size k)));
    try lia; reflexivity.
Qed.

Lemma sector_offset_not_end k : 0 <= k < 15 -> sector_offset k <> 4294967295.
Proof.
  intros Hk. destruct (sector_table k Hk) as [E _]. rewrite E.
  destruct (Z.ltb_spec k 8); lia.
Qed.

(** The first loop stops at the first sector, from [idx] on, that holds the
    address. *)
Lemma find_secstart_scan fuel : forall a base idx j al,
  0 <= idx <= j -> j < 15 ->
  j - idx + 2 <= Z.of_nat fuel ->
  (forall k, idx <= k < j -> sector_hit base k a = false) ->
  sector_hit base j a = true ->
  find_secstart fuel a base idx 4294967295 al
  = (j, j, if a =? u32 (base + sector_offset j) then 1 else 0).
Proof.
  induction fuel as [|fuel IH]; intros a base idx j al Hi Hj Hf Hmiss Hhit;
    [lia|].
  cbn [find_secstart]. rewrite Z.eqb_refl.
  destruct (Z.eqb_spec idx (-1)) as [E|_]; [lia|]. cbn [negb andb].
  destruct (Z.eqb_spec (sector_offset idx) 4294967295) as [E|_];
    [exfalso; revert E; apply sector_offset_not_end; lia|].
  fold (sector_hit base idx a).
  destruct (Z.eq_dec idx j) as [->|Hne].
  - rewrite Hhit. destruct fuel as [|fuel]; [lia|].
    cbn [find_secstart].
    destruct (Z.eqb_spec j 4294967295) as [E|_]; [lia|]. reflexivity.
  - rewrite Hmiss by lia. apply IH; auto; try lia.
    intros k Hk. apply Hmiss. lia.
Qed.

(** The second loop does the same for the last address of the range. *)
Lemma find_secend_scan fuel : forall a base idx j al,
  0 <= idx <= j -> j < 15 ->
  j - idx + 2 <= Z.of_nat fuel ->
  (forall k, idx <= k < j -> sector_hit base k a = false) ->
  sector_hit base j a = true ->
  find_secend fuel a base idx 4294967295 al
  = (j, j, if a =? u32 (u32 (base + sector_offset j) + sector_size j - 1)
           then 1 else 0).
Proof.
  induction fuel as [|fuel IH]; intros a base idx j al Hi Hj Hf Hmiss Hhit;
    [lia|].
  cbn [find_secend]. rewrite Z.eqb_refl.
  destruct (Z.eqb_spec idx (-1)) as [E|_]; [lia|]. cbn [negb andb].
  destruct (Z.eqb_spec (sector_offset idx) 4294967295) as [E|_];
    [exfalso; revert E; apply sector_offset_not_end; lia|].
  fold (sector_hit base idx a).
  destruct (Z.eq_dec idx j) as [->|Hne].
  - rewrite Hhit. destruct fuel as [|fuel]; [lia|].
    cbn [find_secend].
    destruct (Z.eqb_spec j 4294967295) as [E|_]; [lia|]. reflexivity.
  - rewrite Hmiss by lia. apply IH; auto; try lia.
    intros k Hk. apply Hmiss. lia.
Qed.

Lemma sector_hit_of base off :
  0 <= base -> base + 524288 <= 4294967296 -> 0 <= off < 524288 ->
  sector_hit base (sector_of off) (base + off) = true
  /\ forall k, 0 <= k < sector_of off ->
       sector_hit base k (base + off) = false.
Proof.
  intros Hb Hb' Ho.
  destruct (sector_of_range off Ho) as [Hr [Hlo Hhi]].
  split.
  - rewrite sector_hit_spec by auto.
    apply andb_true_iff. split; [apply Z.leb_le|apply Z.ltb_lt]; lia.
  - intros k Hk. rewrite sector_hit_spec by (auto; lia).
    pose proof (sector_before k off Ho Hk).
    apply andb_false_iff. right. apply Z.ltb_ge. lia.
Qed.

Section SectorRangeFacts.

Variable sprintf : string -> list Z -> list Z.
Variable oob : DFUPROG_REGION_T.

(** For a range inside one bank, [progalgo_iflash_find_sectorrange] gives
    the bank, the sector of the first byte and the sector of the last byte;
    the aligned flag it returns tells whether the range ends on the last
    byte of a sector, whatever the start is. *)
Lemma progalgo_iflash_find_sectorrange_spec bank off size d :
  bank = 0 \/ bank = 1 ->
  0 <= off -> 0 < size -> off + size <= 524288 ->
  fst (progalgo_iflash_find_sectorrange sprintf oob (bank_base bank + off)
                                        size d)
  = mkSectorRange (s32 size) bank (sector_of off)
                  (sector_of (off + size - 1))
                  (if off + size =? sector_end (sector_of (off + size - 1))
                   then 1 else 0)
  /\ hw_untouched d
       (snd (progalgo_iflash_find_sectorrange sprintf oob
               (bank_base bank + off) size d)).
Proof.
  intros Hbank Ho Hs Hfit.
  remember (progalgo_iflash_find_sectorrange sprintf oob
              (bank_base bank + off) size d) as r eqn:Er.
  unfold progalgo_iflash_find_sectorrange, bind at 1 in Er.
  pose proof (progalgo_iflash_findbank_fst sprintf oob (bank_base bank + off) d)
    as Hb.
  pose proof (progalgo_iflash_findbank_hw sprintf oob (bank_base bank + off) d)
    as Hh.
  destruct (progalgo_iflash_findbank sprintf oob (bank_base bank + off) d)
    as [b d1]. cbn [fst snd] in *.
  assert (Hbase : 0 <= bank_base bank
                  /\ bank_base bank + 524288 <= 4294967296
                  /\ region_addr (intflash_pregion oob bank) = bank_base bank).
  { destruct Hbank; subst bank; vm_compute; repeat split; discriminate. }
  destruct Hbase as (Hb0 & Hb1 & Hreg).
  assert (Hbb : b = bank).
  { rewrite Hb.
    destruct (findbank_loop_cases oob (bank_base bank + off))
      as [[E R]|[[E R]|[E [R1 R2]]]]; rewrite E;
      destruct Hbank; subst bank; unfold bank_base in *;
      cbn [znth Z.ltb Z.compare Z.to_nat nth intflash_pregions region_addr]
        in *;
      change (Pos.to_nat 1) with 1%nat in *; cbn [nth region_addr] in *; lia. }
  clear Hb. subst b. rewrite Hreg in Er.
  set (i := sector_of off).
  set (j := sector_of (off + size - 1)).
  destruct (sector_of_range off ltac:(lia)) as [Hi _]. fold i in Hi.
  destruct (sector_of_range (off + size - 1) ltac:(lia)) as [Hj [Hjlo Hjhi]].
  fold j in Hj, Hjlo, Hjhi.
  assert (Hij : i <= j) by (apply sector_of_mono; lia).
  destruct (sector_hit_of (bank_base bank) off Hb0 Hb1 ltac:(lia))
    as [Hhit Hmiss]. fold i in Hhit, Hmiss.
  rewrite (find_secstart_scan 17 (bank_base bank + off) (bank_base bank)
             0 i 0) in Er; auto; try lia.
  destruct (Z.eqb_spec i (-1)) as [E|_]; [lia|].
  assert (Hend : u32 (bank_base bank + off + size - 1)
                 = bank_base bank + (off + size - 1))
    by (rewrite u32_small; lia).
  rewrite Hend in Er.
  destruct (sector_hit_of (bank_base bank) (off + size - 1) Hb0 Hb1
              ltac:(lia)) as [Hhit' Hmiss']. fold j in Hhit', Hmiss'.
  rewrite (find_secend_scan 17 (bank_base bank + (off + size - 1))
             (bank_base bank) i j) in Er; auto; try lia.
  2:{ intros k Hk. apply Hmiss'. lia. }
  destruct (Z.eqb_spec j (-1)) as [E|_]; [lia|].
  subst r. cbn [fst snd ret]. split; [|exact Hh].
  f_equal.
  destruct (sector_table j Hj) as [T1 T2].
  assert (Hr : 0 <= sector_offset j /\ 0 < sector_size j
               /\ sector_offset j + sector_size j <= 524288).
  { rewrite T1, T2. destruct (Z.ltb_spec j 8); lia. }
  rewrite (u32_small (bank_base bank + sector_offset j)) by lia.
  rewrite (u32_small (bank_base bank + sector_offset j + sector_size j - 1))
    by lia.
  unfold sector_end.
  destruct (Z.eqb_spec (bank_base bank + (off + size - 1))
              (bank_base bank + sector_offset j + sector_size j - 1)),
    (Z.eqb_spec (off + size) (sector_offset j + sector_size j));
    try lia; reflexivity.
Qed.

End SectorRangeFacts.

(** ** Internal FLASH: erasing *)

Lemma bind_run {A B} (m : M A) (k : A -> M B) d :
  bind m k d = k (fst (m d)) (snd (m d)).
Proof. unfold bind. destruct (m d); reflexivity. Qed.

Section FlashEraseFacts.

Variable sprintf : string -> list Z -> list Z.
Variable iap_rom : list Z -> list Z -> (Z -> Z) -> Z * (Z -> Z).
Variable IAP_CMD_SUCCESS : Z.
Variable SystemCoreClock : Z.
Variable oob : DFUPROG_REGION_T.

(** An erase of a range inside one bank that does not end on the last byte
    of a sector returns 0 without a call of the boot ROM, wherever the range
    starts. *)
Theorem progalgo_intflash_erase_region_end_unaligned (bank off size : Z)
    (d : Dev) :
  bank = 0 \/ bank = 1 ->
  0 <= off -> 0 < size -> off + size <= 524288 ->
  off + size <> sector_end (sector_of (off + size - 1)) ->
  let r := progalgo_intflash_erase_region sprintf iap_rom IAP_CMD_SUCCESS
             SystemCoreClock oob (bank_base bank + off) size d in
  fst r = 0 /\ hw_untouched d (snd r).
Proof.
  intros Hbank Ho Hs Hfit Hend r. subst r.
  unfold progalgo_intflash_erase_region.
  rewrite bind_run.
  pose proof (DFUDEBUG_hw sprintf "FLASHERASE: %p with size %p\n"
                [bank_base bank + off; size] d) as H0.
  set (d0 := snd (DFUDEBUG sprintf "FLASHERASE: %p with size %p\n"
                           [bank_base bank + off; size] d)) in *.
  rewrite bind_run.
  destruct (progalgo_iflash_progaddrvalid_spec sprintf oob
              (bank_base bank + off) size d0 ltac:(lia)) as [Ev Hv].
  set (d1 := snd (progalgo_iflash_progaddrvalid sprintf oob
                    (bank_base bank + off) size d0)) in *.
  destruct (fst (progalgo_iflash_progaddrvalid sprintf oob
                   (bank_base bank + off) size d0) =? 0).
  - split; [apply DFUDEBUG_ret_fst|].
    eapply hw_untouched_trans; [exact H0|].
    eapply hw_untouched_trans; [exact Hv|apply DFUDEBUG_ret_hw].
  - rewrite bind_run.
    destruct (progalgo_iflash_find_sectorrange_spec sprintf oob bank off size
                d1 Hbank Ho Hs Hfit) as [Esr Hsr].
    set (d2 := snd (progalgo_iflash_find_sectorrange sprintf oob
                      (bank_base bank + off) size d1)) in *.
    rewrite Esr. cbn [sr_ret sr_aligned].
    destruct (Z.eqb_spec (off + size)
                (sector_end (sector_of (off + size - 1)))) as [E|_];
      [contradiction|].
    cbn [Z.eqb].
    destruct (s32 size =? 0).
    + split; [apply DFUDEBUG_ret_fst|].
      eapply hw_untouched_trans; [exact H0|].
      eapply hw_untouched_trans; [exact Hv|].
      eapply hw_untouched_trans; [exact Hsr|apply DFUDEBUG_ret_hw].
    + split; [apply DFUDEBUG_ret_fst|].
      eapply hw_untouched_trans; [exact H0|].
      eapply hw_untouched_trans; [exact Hv|].
      eapply hw_untouched_trans; [exact Hsr|apply DFUDEBUG_ret_hw].
Qed.

(** One call of the boot ROM: its result, the memory it leaves, and the
    command in the log. *)
Lemma iap_entry_any command ram d :
  let r := iap_entry iap_rom command ram d in
  fst r = fst (iap_rom command ram (mem d))
  /\ mem (snd r) = snd (iap_rom command ram (mem d))
  /\ iap_log (snd r) = command :: iap_log d
  /\ dfuRegionList (snd r) = dfuRegionList d.
Proof.
  cbv zeta. unfold iap_entry.
  destruct (iap_rom command ram (mem d)) as [x m']. cbn. auto.
Qed.

Lemma progalgo_iflash_prepwrite_any bank secstart secend d :
  let c := [IAP_PREP_SECS; secstart; secend; bank] in
  let r := progalgo_iflash_prepwrite sprintf iap_rom IAP_CMD_SUCCESS
             bank secstart secend d in
  fst r = fst (iap_rom c [] (mem d))
  /\ mem (snd r) = snd (iap_rom c [] (mem d))
  /\ iap_log (snd r) = c :: iap_log d
  /\ dfuRegionList (snd r) = dfuRegionList d.
Proof.
  cbv zeta. unfold progalgo_iflash_prepwrite. rewrite !bind_run.
  destruct (iap_entry_any [IAP_PREP_SECS; secstart; secend; bank] [] d)
    as (A & B & C & D).
  set (d1 := snd (iap_entry iap_rom [IAP_PREP_SECS; secstart; secend; bank]
                            [] d)) in *.
  set (x := fst (iap_entry iap_rom [IAP_PREP_SECS; secstart; secend; bank]
                           [] d)) in *.
  destruct (negb (x =? IAP_CMD_SUCCESS)).
  - destruct (DFUDEBUG_hw sprintf
                "FLASH: Error preparing sectors %d-%d (bank %d), error=%d\n"
                [secstart; secend; bank; x] d1) as (H1 & H2 & H3).
    cbn [ret fst snd]. rewrite H1, H2, H3. auto.
  - cbn [ret fst snd]. auto.
Qed.

Lemma progalgo_iflash_erasesectors_any bank secstart secend d :
  let c := [IAP_ERASE_SECS; secstart; secend; SystemCoreClock / 1000; bank] in
  let r := progalgo_iflash_erasesectors sprintf iap_rom IAP_CMD_SUCCESS
             SystemCoreClock bank secstart secend d in
  fst r = fst (iap_rom c [] (mem d))
  /\ mem (snd r) = snd (iap_rom c [] (mem d))
  /\ iap_log (snd r) = c :: iap_log d
  /\ dfuRegionList (snd r) = dfuRegionList d.
Proof.
  cbv zeta. unfold progalgo_iflash_erasesectors. rewrite !bind_run.
  destruct (iap_entry_any [IAP_ERASE_SECS; secstart; secend;
                           CPUCLOCKFRQINKHZ SystemCoreClock; bank] [] d)
    as (A & B & C & D).
  set (d1 := snd (iap_entry iap_rom [IAP_ERASE_SECS; secstart; secend;
                            CPUCLOCKFRQINKHZ SystemCoreClock; bank] [] d))
    in *.
  set (x := fst (iap_entry iap_rom [IAP_ERASE_SECS; secstart; secend;
                           CPUCLOCKFRQINKHZ SystemCoreClock; bank] [] d))
    in *.
  destruct (negb (x =? IAP_CMD_SUCCESS)).
  - destruct (DFUDEBUG_hw sprintf
                "FLASH: Error erasing sectors %d-%d (bank %d)\n"
                [secstart; secend; bank] d1) as (H1 & H2 & H3).
    cbn [ret fst snd]. rewrite H1, H2, H3. auto.
  - cbn [ret fst snd]. auto.
Qed.

(** The erase of a page-aligned range inside one bank that ends on the last
    byte of a sector, with any boot ROM: the sectors are prepared; they are
    erased when the prepare succeeded, and blank-checked when the erase
    succeeded; the size comes back when the three commands succeeded, and 0
    otherwise. *)
Lemma progalgo_intflash_erase_region_trace (bank off size : Z) (d : Dev) :
  bank = 0 \/ bank = 1 ->
  0 <= off -> 0 < size -> off + size <= 524288 ->
  page_ok (bank_base bank + off) size = true ->
  off + size = sector_end (sector_of (off + size - 1)) ->
  let r := progalgo_intflash_erase_region sprintf iap_rom IAP_CMD_SUCCESS
             SystemCoreClock oob (bank_base bank + off) size d in
  let i := sector_of off in
  let j := sector_of (off + size - 1) in
  let prep := [IAP_PREP_SECS; i; j; bank] in
  let erase := [IAP_ERASE_SECS; i; j; SystemCoreClock / 1000; bank] in
  let blank := [IAP_BLANK_CHECK_SECS; i; j; bank] in
  let rp := iap_rom prep [] (mem d) in
  let re := iap_rom erase [] (snd rp) in
  let rb := iap_rom blank [] (snd re) in
  iap_log (snd r)
  = (if fst rp =? IAP_CMD_SUCCESS then
       if fst re =? IAP_CMD_SUCCESS then [blank; erase; prep]
       else [erase; prep]
     else [prep]) ++ iap_log d
  /\ fst r
     = (if (fst rp =? IAP_CMD_SUCCESS) && (fst re =? IAP_CMD_SUCCESS)
           && (fst rb =? IAP_CMD_SUCCESS)
        then size else 0)
  /\ mem (snd r)
     = (if fst rp =? IAP_CMD_SUCCESS then
          if fst re =? IAP_CMD_SUCCESS then snd rb else snd re
        else snd rp)
  /\ dfuRegionList (snd r) = dfuRegionList d.
Proof.
  intros Hbank Ho Hs Hfit Hpage Hend r i j prep erase blank rp re rb.
  subst r.
  assert (Hs32 : s32 size = size).
  { unfold s32. rewrite u32_small by lia.
    destruct (Z.ltb_spec size 2147483648); lia. }
  assert (Hu : u32 bank = bank) by (apply u32_small; lia).
  unfold progalgo_intflash_erase_region.
  rewrite bind_run.
  pose proof (DFUDEBUG_hw sprintf "FLASHERASE: %p with size %p\n"
                [bank_base bank + off; size] d) as H0.
  set (d0 := snd (DFUDEBUG sprintf "FLASHERASE: %p with size %p\n"
                           [bank_base bank + off; size] d)) in *.
  rewrite bind_run.
  destruct (progalgo_iflash_progaddrvalid_spec sprintf oob
              (bank_base bank + off) size d0 ltac:(lia)) as [Ev Hv].
  set (d1 := snd (progalgo_iflash_progaddrvalid sprintf oob
                    (bank_base bank + off) size d0)) in *.
  rewrite Ev, Hpage, Hs32.
  destruct (Z.eqb_spec size 0) as [E|_]; [lia|].
  rewrite bind_run.
  destruct (progalgo_iflash_find_sectorrange_spec sprintf oob bank off size
              d1 Hbank Ho Hs Hfit) as [Esr Hsr].
  set (d2 := snd (progalgo_iflash_find_sectorrange sprintf oob
                    (bank_base bank + off) size d1)) in *.
  rewrite Esr. cbn [sr_ret sr_aligned sr_bank sr_secstart sr_secend].
  fold i j. rewrite Hs32, Hu.
  destruct (Z.eqb_spec size 0) as [E|_]; [lia|].
  destruct (Z.eqb_spec (off + size) (sector_end j)) as [_|NE];
    [|contradiction].
  cbn [Z.eqb].
  rewrite bind_run.
  pose proof (DFUDEBUG_hw sprintf
                "FLASHERASE: Bank %d, Start sec %d, End sec %d\n"
                [bank; i; j] d2) as H3.
  set (d3 := snd (DFUDEBUG sprintf
                    "FLASHERASE: Bank %d, Start sec %d, End sec %d\n"
                    [bank; i; j] d2)) in *.
  assert (Hd3 : hw_untouched d d3).
  { eapply hw_untouched_trans; [exact H0|].
    eapply hw_untouched_trans; [exact Hv|].
    eapply hw_untouched_trans; [exact Hsr|exact H3]. }
  destruct Hd3 as (R3 & M3 & L3).
  (* prepare *)
  rewrite bind_run.
  destruct (progalgo_iflash_prepwrite_any bank i j d3) as (P1 & P2 & P3 & P4).
  set (d4 := snd (progalgo_iflash_prepwrite sprintf iap_rom IAP_CMD_SUCCESS
                    bank i j d3)) in *.
  rewrite M3 in P1, P2. fold prep rp in P1, P2. fold prep in P3.
  rewrite P1.
  destruct (fst rp =? IAP_CMD_SUCCESS); cbn [negb andb ret fst snd app].
  2:{ rewrite P2, P3, P4, L3, R3. repeat split; reflexivity. }
  (* erase *)
  rewrite bind_run.
  destruct (progalgo_iflash_erasesectors_any bank i j d4)
    as (Q1 & Q2 & Q3 & Q4).
  set (d5 := snd (progalgo_iflash_erasesectors sprintf iap_rom IAP_CMD_SUCCESS
                    SystemCoreClock bank i j d4)) in *.
  rewrite P2 in Q1, Q2. fold erase re in Q1, Q2. fold erase in Q3.
  rewrite Q1.
  destruct (fst re =? IAP_CMD_SUCCESS); cbn [negb andb ret fst snd app].
  2:{ rewrite Q2, Q3, Q4, P3, P4, L3, R3. repeat split; reflexivity. }
  (* blank check *)
  rewrite bind_run. fold blank.
  destruct (iap_entry_any blank [] d5) as (B1 & B2 & B3 & B4).
  set (d6 := snd (iap_entry iap_rom blank [] d5)) in *.
  rewrite Q2 in B1, B2. fold rb in B1, B2.
  rewrite B1.
  destruct (fst rb =? IAP_CMD_SUCCESS); cbn [negb].
  - cbn [ret fst snd]. rewrite B2, B3, B4, Q3, Q4, P3, P4, L3, R3.
    repeat split; reflexivity.
  - destruct (DFUDEBUG_ret_hw sprintf "FLASHERASE: Error erasing sectors\r\n"
                [] 0 d6) as (T1 & T2 & T3).
    rewrite DFUDEBUG_ret_fst, T1, T2, T3, B2, B3, B4, Q3, Q4, P3, P4, L3, R3.
    repeat split; reflexivity.
Qed.

(** An erase of a page-aligned range inside one bank that ends on the last
    byte of a sector asks the ROM to prepare the sectors from the one
    holding the first byte to the one holding the last byte; it asks the ROM
    to erase them when the prepare succeeded, and to blank-check them when
    the erase succeeded, each command on the memory the one before left.
    These are all its calls of the ROM.  It returns the size when the three
    commands succeeded, and 0 otherwise.  With a ROM that reports success for
    every command the calls are the three commands, and the size comes back.
    The first sector is erased whole also when the range starts inside
    it. *)
Theorem progalgo_intflash_erase_region_sectors (bank off size : Z) (d : Dev) :
  bank = 0 \/ bank = 1 ->
  0 <= off -> 0 < size -> off + size <= 524288 ->
  page_ok (bank_base bank + off) size = true ->
  off + size = sector_end (sector_of (off + size - 1)) ->
  let r := progalgo_intflash_erase_region sprintf iap_rom IAP_CMD_SUCCESS
             SystemCoreClock oob (bank_base bank + off) size d in
  let i := sector_of off in
  let j := sector_of (off + size - 1) in
  let prep := [IAP_PREP_SECS; i; j; bank] in
  let erase := [IAP_ERASE_SECS; i; j; SystemCoreClock / 1000; bank] in
  let blank := [IAP_BLANK_CHECK_SECS; i; j; bank] in
  let rp := iap_rom prep [] (mem d) in
  let re := iap_rom erase [] (snd rp) in
  let rb := iap_rom blank [] (snd re) in
  iap_log (snd r)
  = (if fst rp =? IAP_CMD_SUCCESS then
       if fst re =? IAP_CMD_SUCCESS then [blank; erase; prep]
       else [erase; prep]
     else [prep]) ++ iap_log d
  /\ fst r
     = (if (fst rp =? IAP_CMD_SUCCESS) && (fst re =? IAP_CMD_SUCCESS)
           && (fst rb =? IAP_CMD_SUCCESS)
        then size else 0)
  /\ dfuRegionList (snd r) = dfuRegionList d
  /\ ((forall command ram m, fst (iap_rom command ram m) = IAP_CMD_SUCCESS) ->
      fst r = size
      /\ iap_log (snd r) = blank :: erase :: prep :: iap_log d).
Proof.
  intros Hbank Ho Hs Hfit Hpage Hend r i j prep erase blank rp re rb.
  destruct (progalgo_intflash_erase_region_trace bank off size d Hbank Ho Hs
              Hfit Hpage Hend) as (L & F & _ & R).
  fold r i j prep erase blank rp re rb in L, F, R.
  repeat split; try assumption.
  - rewrite F. unfold rp, re, rb. rewrite !H, Z.eqb_refl. reflexivity.
  - rewrite L. unfold rp, re. rewrite !H, Z.eqb_refl. reflexivity.
Qed.

End FlashEraseFacts.

(** ** Internal FLASH: programming a page *)

Lemma list_Z_eqb_refl l : list_Z_eqb l l = true.
Proof.
  induction l as [|x l IH]; cbn; [reflexivity|].
  now rewrite Z.eqb_refl, IH.
Qed.

Lemma mem_read_mem_write m a (data : list Z) :
  mem_read (mem_write m a data (Z.of_nat (length data))) a
           (Z.of_nat (length data)) = data.
Proof.
  unfold mem_read. rewrite Nat2Z.id.
  apply nth_ext with (d := 0) (d' := 0).
  - now rewrite length_map, length_seq.
  - intros n Hn. rewrite length_map, length_seq in Hn.
    set (f := fun i => mem_write m a data (Z.of_nat (length data))
                                 (a + Z.of_nat i)).
    rewrite (nth_indep _ 0 (f 0%nat))
      by now rewrite length_map, length_seq.
    rewrite (map_nth f), seq_nth by exact Hn. cbn [Nat.add].
    unfold f, mem_write, znth.
    destruct (Z.leb_spec a (a + Z.of_nat n)); [|lia].
    destruct (Z.ltb_spec (a + Z.of_nat n) (a + Z.of_nat (length data)));
      [|lia].
    cbn [andb].
    destruct (Z.ltb_spec (a + Z.of_nat n - a) 0); [lia|].
    f_equal. lia.
Qed.

Lemma sector_of_page off :
  0 <= off -> off mod 512 = 0 -> sector_of (off + 512 - 1) = sector_of off.
Proof.
  intros Ho Hm. unfold sector_of.
  destruct (Z.ltb_spec (off + 512 - 1) 65536), (Z.ltb_spec off 65536);
    Z.div_mod_to_equations; lia.
Qed.

Lemma page_ok_bank bank off :
  bank = 0 \/ bank = 1 -> 0 <= off -> off mod 512 = 0 ->
  page_ok (bank_base bank + off) 512 = true.
Proof.
  intros Hb Ho Hm. unfold page_ok.
  change 511 with (Z.ones 9). rewrite Z.land_ones by lia.
  change (512 mod 512) with 0. rewrite Z.eqb_refl, andb_true_r.
  apply Z.eqb_eq. change (2 ^ 9) with 512.
  destruct Hb as [-> | ->].
  - change (bank_base 0) with (512 * 851968).
    rewrite Z.add_comm, Z.mul_comm, Z_mod_plus_full. exact Hm.
  - change (bank_base 1) with (512 * 884736).
    rewrite Z.add_comm, Z.mul_comm, Z_mod_plus_full. exact Hm.
Qed.

Section FlashWriteFacts.

Variable sprintf : string -> list Z -> list Z.
Variable iap_rom : list Z -> list Z -> (Z -> Z) -> Z * (Z -> Z).
Variable IAP_CMD_SUCCESS : Z.
Variable SystemCoreClock : Z.
Variable oob : DFUPROG_REGION_T.
Variable dfuProgBuff_addr : Z.

(** What the code relies on from the boot ROM: preparing sectors leaves the
    memory alone, copy RAM to FLASH stores the bytes handed over, and compare
    succeeds on equal contents. *)
Hypothesis rom_prep : forall s e b ram m,
  iap_rom [IAP_PREP_SECS; s; e; b] ram m = (IAP_CMD_SUCCESS, m).
Hypothesis rom_copy : forall dst src n clk ram m,
  iap_rom [IAP_RAM_TO_FLASH; dst; src; n; clk] ram m
  = (IAP_CMD_SUCCESS, mem_write m dst ram n).
Hypothesis rom_compare : forall dst src n ram m,
  list_Z_eqb (mem_read m dst n) (firstn (Z.to_nat n) ram) = true ->
  iap_rom [IAP_COMPARE; dst; src; n] ram m = (IAP_CMD_SUCCESS, m).

Lemma progalgo_iflash_prepwrite_run bank secstart secend d :
  progalgo_iflash_prepwrite sprintf iap_rom IAP_CMD_SUCCESS
    bank secstart secend d
  = (IAP_CMD_SUCCESS,
     log_iap (set_mem d (mem d)) [IAP_PREP_SECS; secstart; secend; bank]).
Proof.
  unfold progalgo_iflash_prepwrite, bind, iap_entry.
  rewrite rom_prep, Z.eqb_refl. reflexivity.
Qed.

Lemma iap_entry_copy dst src n clk ram d :
  iap_entry iap_rom [IAP_RAM_TO_FLASH; dst; src; n; clk] ram d
  = (IAP_CMD_SUCCESS,
     log_iap (set_mem d (mem_write (mem d) dst ram n))
             [IAP_RAM_TO_FLASH; dst; src; n; clk]).
Proof. unfold iap_entry. now rewrite rom_copy. Qed.

Lemma iap_entry_compare dst src n ram d :
  list_Z_eqb (mem_read (mem d) dst n) (firstn (Z.to_nat n) ram) = true ->
  iap_entry iap_rom [IAP_COMPARE; dst; src; n] ram d
  = (IAP_CMD_SUCCESS, log_iap (set_mem d (mem d)) [IAP_COMPARE; dst; src; n]).
Proof. intros H. unfold iap_entry. now rewrite rom_compare. Qed.

Lemma progalgo_intflash_write_run (bank off size : Z) (buff : list Z)
    (d : Dev) :
  bank = 0 \/ bank = 1 ->
  0 <= off -> off mod 512 = 0 -> off + 512 <= 524288 ->
  0 <= size <= 512 ->
  (512 <= length buff)%nat ->
  let start := bank_base bank + off in
  let page := firstn (Z.to_nat size) buff ++ repeat 255 (Z.to_nat (512 - size)) in
  let r := progalgo_intflash_write sprintf iap_rom IAP_CMD_SUCCESS
             SystemCoreClock oob dfuProgBuff_addr buff start size d in
  fst (fst r) = size
  /\ snd (fst r) = page ++ skipn 512 buff
  /\ mem_read (mem (snd r)) start 512 = page
  /\ (forall a, a < start \/ start + 512 <= a -> mem (snd r) a = mem d a)
  /\ iap_log (snd r)
     = [IAP_COMPARE; start; dfuProgBuff_addr; 512]
       :: [IAP_RAM_TO_FLASH; start; dfuProgBuff_addr; 512;
           SystemCoreClock / 1000]
       :: [IAP_PREP_SECS; sector_of off; sector_of off; bank] :: iap_log d.
Proof.
  intros Hbank Ho Hm Hfit Hs Hlen start page r.
  assert (Hpl : length page = 512%nat).
  { unfold page. rewrite length_app, length_firstn, repeat_length. lia. }
  assert (Hpad : (if size <? PAGE_SIZE
                  then pad_loop (Z.to_nat PAGE_SIZE) buff size PAGE_SIZE
                  else (size, buff)) = (512, page ++ skipn 512 buff)).
  { unfold PAGE_SIZE. destruct (Z.ltb_spec size 512) as [Hlt|Hge].
    - pose proof (pad_loop_spec (Z.to_nat 512) (firstn (Z.to_nat size) buff)
                    (skipn 512 buff)
                    (firstn (Z.to_nat (512 - size))
                            (skipn (Z.to_nat size) buff)) 512) as P.
      assert (L1 : length (firstn (Z.to_nat size) buff) = Z.to_nat size)
        by (rewrite length_firstn; lia).
      assert (L2 : length (firstn (Z.to_nat (512 - size))
                             (skipn (Z.to_nat size) buff))
                   = Z.to_nat (512 - size))
        by (rewrite length_firstn, length_skipn; lia).
      rewrite L1, L2 in P. rewrite Z2Nat.id in P by lia.
      assert (E : firstn (Z.to_nat size) buff
                  ++ firstn (Z.to_nat (512 - size)) (skipn (Z.to_nat size) buff)
                  ++ skipn 512 buff = buff).
      { replace (skipn 512 buff)
          with (skipn (Z.to_nat (512 - size)) (skipn (Z.to_nat size) buff)).
        - now rewrite firstn_skipn, firstn_skipn.
        - rewrite skipn_skipn. f_equal. lia. }
      rewrite E in P. rewrite P by lia.
      unfold page. now rewrite <- app_assoc.
    - assert (size = 512) by lia. subst size. unfold page.
      change (Z.to_nat (512 - 512)) with 0%nat. cbn [repeat].
      rewrite app_nil_r. change (Z.to_nat 512) with 512%nat.
      now rewrite firstn_skipn. }
  assert (Hfirst : firstn (Z.to_nat PAGE_SIZE) (page ++ skipn 512 buff) = page).
  { change (Z.to_nat PAGE_SIZE) with 512%nat. rewrite <- Hpl.
    rewrite firstn_app, Nat.sub_diag, firstn_all. cbn [firstn].
    apply app_nil_r. }
  assert (Hs32 : s32 size = size).
  { unfold s32. rewrite u32_small by lia.
    destruct (Z.ltb_spec size 2147483648); lia. }
  assert (Hu : u32 bank = bank) by (apply u32_small; lia).
  subst r. unfold progalgo_intflash_write.
  rewrite bind_run.
  pose proof (DFUDEBUG_hw sprintf "FLASHWRITE: %p with size %p\n"
                [start; size] d) as H0.
  set (d0 := snd (DFUDEBUG sprintf "FLASHWRITE: %p with size %p\n"
                           [start; size] d)) in *.
  destruct (Z.gtb_spec size PAGE_SIZE) as [Hgt|_];
    [unfold PAGE_SIZE in Hgt; lia|].
  rewrite Hpad. rewrite bind_run.
  set (m1 := if size <? PAGE_SIZE
             then DFUDEBUG sprintf
                    "FLASHWRITE: Last sector too small, padded %d bytes\n"
                    [u32 (512 - size)]
             else ret tt).
  assert (H1 : hw_untouched d0 (snd (m1 d0))).
  { unfold m1. destruct (size <? PAGE_SIZE); [apply DFUDEBUG_hw|].
    repeat split. }
  set (d1 := snd (m1 d0)) in *.
  rewrite bind_run.
  destruct (progalgo_iflash_progaddrvalid_spec sprintf oob start 512 d1
              ltac:(lia)) as [Ev Hv].
  set (d2 := snd (progalgo_iflash_progaddrvalid sprintf oob start 512 d1))
    in *.
  unfold start in Ev. rewrite page_ok_bank in Ev by assumption.
  fold start in Ev. rewrite Ev. change (s32 512 =? 0) with false. cbv iota.
  rewrite bind_run.
  destruct (progalgo_iflash_find_sectorrange_spec sprintf oob bank off 512
              d2 Hbank Ho ltac:(lia) Hfit) as [Esr Hsr].
  fold start in Esr, Hsr.
  set (d3 := snd (progalgo_iflash_find_sectorrange sprintf oob start 512 d2))
    in *.
  rewrite Esr. cbn [sr_ret sr_bank sr_secstart sr_secend].
  change (s32 512 =? 0) with false. cbv iota.
  rewrite (sector_of_page off Ho Hm), Hu.
  rewrite bind_run, progalgo_iflash_prepwrite_run. cbn [fst snd].
  rewrite Z.eqb_refl. cbn [negb].
  rewrite bind_run. rewrite Hfirst.
  rewrite iap_entry_copy. cbn [fst snd].
  rewrite Z.eqb_refl. cbn [negb].
  rewrite bind_run.
  rewrite iap_entry_compare.
  2:{ cbn [mem log_iap set_mem]. unfold PAGE_SIZE.
      replace (firstn (Z.to_nat 512) page) with page
        by (change (Z.to_nat 512) with 512%nat; rewrite <- Hpl; symmetry;
            apply firstn_all).
      change 512 with (Z.of_nat 512). rewrite <- Hpl.
      rewrite mem_read_mem_write. apply list_Z_eqb_refl. }
  cbn [fst snd]. rewrite Z.eqb_refl.
  cbn [negb ret fst snd mem iap_log log_iap set_mem].
  assert (Hmem : mem d3 = mem d /\ iap_log d3 = iap_log d).
  { destruct H0 as (_ & A0 & C0), H1 as (_ & A1 & C1),
      Hv as (_ & A2 & C2), Hsr as (_ & A3 & C3).
    split; congruence. }
  destruct Hmem as [Hmem Hlog].
  split; [exact Hs32|]. split; [reflexivity|].
  split.
  { unfold PAGE_SIZE. change 512 with (Z.of_nat 512). rewrite <- Hpl.
    apply mem_read_mem_write. }
  split.
  { intros a Ha. unfold mem_write, PAGE_SIZE. rewrite <- Hmem.
    destruct (Z.leb_spec start a), (Z.ltb_spec a (start + 512));
      cbn [andb]; try reflexivity; lia. }
  rewrite Hlog. reflexivity.
Qed.

(** A write of at most 512 bytes to a page of a FLASH bank programs the
    whole page: the bytes handed over followed by 0xFF up to 512.  The ROM
    is asked to prepare the sector of the page, to copy and to compare; the
    call returns the unpadded size, the page reads back as written and no
    address outside the page changes. *)
Theorem progalgo_intflash_write_page (bank off size : Z) (buff : list Z)
    (d : Dev) :
  bank = 0 \/ bank = 1 ->
  0 <= off -> off mod 512 = 0 -> off + 512 <= 524288 ->
  0 <= size <= 512 ->
  (512 <= length buff)%nat ->
  let start := bank_base bank + off in
  let page := firstn (Z.to_nat size) buff ++ repeat 255 (Z.to_nat (512 - size)) in
  let r := progalgo_intflash_write sprintf iap_rom IAP_CMD_SUCCESS
             SystemCoreClock oob dfuProgBuff_addr buff start size d in
  fst (fst r) = size
  /\ snd (fst r) = page ++ skipn 512 buff
  /\ mem_read (mem (snd r)) start 512 = page
  /\ (forall a, a < start \/ start + 512 <= a -> mem (snd r) a = mem d a)
  /\ iap_log (snd r)
     = [IAP_COMPARE; start; dfuProgBuff_addr; 512]
       :: [IAP_RAM_TO_FLASH; start; dfuProgBuff_addr; 512;
           SystemCoreClock / 1000]
       :: [IAP_PREP_SECS; sector_of off; sector_of off; bank] :: iap_log d.
Proof.
  intros Hbank Ho Hm Hfit Hs Hlen.
  exact (progalgo_intflash_write_run bank off size buff d Hbank Ho Hm Hfit Hs
           Hlen).
Qed.

End FlashWriteFacts.

(** On the board: an erase of 512 bytes at 0x1A000100, a write of 513 bytes,
    an erase of the first page of bank A, an erase of the second half of
    the first sector, and a write of three bytes to the second page of
    bank B. *)
Lemma progalgo_intflash_erase_region_refuses_witness :
  let r := progalgo_intflash_erase_region sprintf_fmt lpc_iap_rom 0 180000000
             zero_region 436207872 512 (mcb1857_dev 0) in
  fst r = 0 /\ hw_untouched (mcb1857_dev 0) (snd r).
Proof.
  apply (progalgo_intflash_erase_region_refuses sprintf_fmt lpc_iap_rom 0
           180000000 zero_region 436207872 512 (mcb1857_dev 0)).
  - lia.
  - left. reflexivity.
Defined.

Lemma progalgo_intflash_write_too_big_witness :
  let r := progalgo_intflash_write sprintf_fmt lpc_iap_rom 0 180000000
             zero_region 268435456 (repeat 7 4096) 436207616 513
             (mcb1857_dev 0) in
  fst r = (0, repeat 7 4096) /\ hw_untouched (mcb1857_dev 0) (snd r).
Proof.
  apply (progalgo_intflash_write_too_big sprintf_fmt lpc_iap_rom 0 180000000
           zero_region 268435456 (repeat 7 4096) 436207616 513
           (mcb1857_dev 0)).
  lia.
Defined.

Lemma progalgo_intflash_erase_region_end_unaligned_witness :
  let r := progalgo_intflash_erase_region sprintf_fmt lpc_iap_rom 0 180000000
             zero_region (bank_base 0 + 0) 512 (mcb1857_dev 0) in
  fst r = 0 /\ hw_untouched (mcb1857_dev 0) (snd r).
Proof.
  apply (progalgo_intflash_erase_region_end_unaligned sprintf_fmt lpc_iap_rom
           0 180000000 zero_region 0 0 512 (mcb1857_dev 0)).
  - left. reflexivity.
  - lia.
  - lia.
  - lia.
  - vm_compute. discriminate.
Defined.

Lemma progalgo_intflash_erase_region_sectors_witness :
  let iap_rom := fun (_ _ : list Z) (m : Z -> Z) => (0, m) in
  let d := mcb1857_dev 0 in
  let r := progalgo_intflash_erase_region sprintf_fmt iap_rom 0
             180000000 zero_region (bank_base 0 + 4096) 4096 d in
  let i := sector_of 4096 in
  let j := sector_of (4096 + 4096 - 1) in
  let prep := [IAP_PREP_SECS; i; j; 0] in
  let erase := [IAP_ERASE_SECS; i; j; 180000000 / 1000; 0] in
  let blank := [IAP_BLANK_CHECK_SECS; i; j; 0] in
  let rp := iap_rom prep [] (mem d) in
  let re := iap_rom erase [] (snd rp) in
  let rb := iap_rom blank [] (snd re) in
  iap_log (snd r)
  = (if fst rp =? 0 then
       if fst re =? 0 then [blank; erase; prep] else [erase; prep]
     else [prep]) ++ iap_log d
  /\ fst r
     = (if (fst rp =? 0) && (fst re =? 0) && (fst rb =? 0)
        then 4096 else 0)
  /\ dfuRegionList (snd r) = dfuRegionList d
  /\ fst r = 4096
  /\ iap_log (snd r) = blank :: erase :: prep :: iap_log d.
Proof.
  destruct (progalgo_intflash_erase_region_sectors sprintf_fmt
              (fun _ _ m => (0, m)) 0 180000000 zero_region
              0 4096 4096 (mcb1857_dev 0)) as (A & B & C & D).
  - left. reflexivity.
  - lia.
  - lia.
  - lia.
  - reflexivity.
  - reflexivity.
  - split; [exact A|]. split; [exact B|]. split; [exact C|].
    apply D. intros command ram m. reflexivity.
Defined.

Lemma progalgo_intflash_write_page_witness :
  let buff := [1; 2; 3] ++ repeat 0 4093 in
  let start := bank_base 1 + 512 in
  let page := firstn (Z.to_nat 3) buff ++ repeat 255 (Z.to_nat (512 - 3)) in
  let r := progalgo_intflash_write sprintf_fmt lpc_iap_rom 0 180000000
             zero_region 268435456 buff start 3 (mcb1857_dev 0) in
  fst (fst r) = 3
  /\ snd (fst r) = page ++ skipn 512 buff
  /\ mem_read (mem (snd r)) start 512 = page
  /\ (forall a, a < start \/ start + 512 <= a ->
                mem (snd r) a = mem (mcb1857_dev 0) a)
  /\ iap_log (snd r)
     = [IAP_COMPARE; start; 268435456; 512]
       :: [IAP_RAM_TO_FLASH; start; 268435456; 512; 180000000 / 1000]
       :: [IAP_PREP_SECS; sector_of 512; sector_of 512; 1]
       :: iap_log (mcb1857_dev 0).
Proof.
  apply (progalgo_intflash_write_page sprintf_fmt lpc_iap_rom 0 180000000
           zero_region 268435456).
  - reflexivity.
  - reflexivity.
  - intros dst src n ram m H. unfold lpc_iap_rom.
    change (znth [IAP_COMPARE; dst; src; n] 0 0) with IAP_COMPARE.
    change (znth [IAP_COMPARE; dst; src; n] 1 0) with dst.
    change (znth [IAP_COMPARE; dst; src; n] 3 0) with n.
    cbv zeta. change (IAP_COMPARE =? IAP_RAM_TO_FLASH) with false.
    change (IAP_COMPARE =? IAP_COMPARE) with true. cbv iota.
    rewrite H. reflexivity.
  - right. reflexivity.
  - lia.
  - reflexivity.
  - lia.
  - lia.
  - vm_compute. lia.
Defined.

(** ** The registry lookup, by slot *)

Lemma mem_read_length m a n : length (mem_read m a n) = Z.to_nat n.
Proof. unfold mem_read. now rewrite length_map, length_seq. Qed.

Lemma mem_read_nth m a n i :
  (i < Z.to_nat n)%nat -> nth i (mem_read m a n) 0 = m (a + Z.of_nat i).
Proof.
  intros Hi. unfold mem_read.
  set (f := fun i => m (a + Z.of_nat i)).
  rewrite (nth_indep _ 0 (f 0%nat)) by now rewrite length_map, length_seq.
  rewrite (map_nth f), seq_nth by exact Hi. reflexivity.
Qed.

Lemma mem_read_mem_write_prefix m a (data : list Z) n :
  0 <= n <= Z.of_nat (length data) ->
  mem_read (mem_write m a data n) a n = firstn (Z.to_nat n) data.
Proof.
  intros Hn. apply nth_ext with (d := 0) (d' := 0).
  - rewrite mem_read_length, length_firstn. lia.
  - intros i Hi. rewrite mem_read_length in Hi.
    rewrite mem_read_nth by exact Hi.
    rewrite nth_firstn.
    destruct (Nat.ltb_spec i (Z.to_nat n)); [|lia].
    unfold mem_write, znth.
    destruct (Z.leb_spec a (a + Z.of_nat i)); [|lia].
    destruct (Z.ltb_spec (a + Z.of_nat i) (a + n)); [|lia].
    cbn [andb].
    destruct (Z.ltb_spec (a + Z.of_nat i - a) 0); [lia|].
    f_equal. lia.
Qed.

Lemma buf_store_mem_read dst m a n :
  buf_store dst (mem_read m a n) n
  = mem_read m a n ++ skipn (Z.to_nat n) dst.
Proof.
  unfold buf_store.
  rewrite firstn_all2 by (rewrite mem_read_length; lia).
  now rewrite mem_read_length.
Qed.

Section RegistryFacts.

Variable sprintf : string -> list Z -> list Z.

Lemma algo_root_isRegionValid_slot k addr size d :
  first_cover (dfuRegionList d) k addr size ->
  algo_root_isRegionValid sprintf addr size d = (k, d).
Proof.
  intros (Hk & Hc & Hmin).
  pose proof (algo_root_isRegionValid_first_match sprintf addr size d
                ltac:(lia)) as H.
  pose proof (algo_root_isRegionValid_state sprintf addr size d) as Hs.
  assert (E : fst (algo_root_isRegionValid sprintf addr size d) = k).
  { destruct H as [[_ Hall]|(Hr & Hp & Hall)].
    - rewrite (Hall k Hk) in Hc. discriminate.
    - set (r := fst (algo_root_isRegionValid sprintf addr size d)) in *.
      destruct (Z.lt_trichotomy r k) as [Hlt|[Heq|Hgt]]; [|exact Heq|].
      + rewrite (Hmin r ltac:(lia)) in Hp. discriminate.
      + rewrite (Hall k ltac:(lia)) in Hc. discriminate. }
  rewrite E in Hs.
  destruct (Z.ltb_spec k 0); [lia|].
  rewrite (surjective_pairing (algo_root_isRegionValid sprintf addr size d)).
  now rewrite E, Hs.
Qed.

Lemma algo_root_isRegionValid_none addr size d :
  no_cover (dfuRegionList d) addr size ->
  fst (algo_root_isRegionValid sprintf addr size d) = -1.
Proof.
  intros (Hn & Hall).
  destruct (algo_root_isRegionValid_first_match sprintf addr size d Hn)
    as [[E _]|(Hr & Hp & _)]; [exact E|].
  rewrite (Hall _ Hr) in Hp. discriminate.
Qed.

(** ** Internal SRAM *)

(** The SRAM driver takes the registry index of the range as a truth value.
    A range whose region sits in slot 0 of the registry is therefore refused
    by all three operations: they return 0 and nothing changes. *)
Theorem progalgo_intiram_slot0_refused (buff : list Z) (start size : Z)
    (d : Dev) :
  first_cover (dfuRegionList d) 0 start size ->
  progalgo_intiram_erase_region sprintf start size d = (0, d)
  /\ progalgo_intiram_write sprintf buff start size d = ((0, buff), d)
  /\ progalgo_intiram_read sprintf buff start size d = ((0, buff), d).
Proof.
  intros Hc.
  pose proof (algo_root_isRegionValid_slot 0 start size d Hc) as E.
  unfold progalgo_intiram_erase_region, progalgo_intiram_write,
    progalgo_intiram_read, bind.
  rewrite E. cbn [Z.eqb negb ret]. auto.
Qed.

(** The same test lets a range through that no region covers: the lookup
    gives -1, which counts as true, and the driver copies to the address it
    was given. *)
Theorem progalgo_intiram_write_unregistered (buff : list Z) (start size : Z)
    (d : Dev) :
  no_cover (dfuRegionList d) start size ->
  let r := progalgo_intiram_write sprintf buff start size d in
  fst r = (s32 size, buff)
  /\ mem (snd r) = mem_write (mem d) start buff size.
Proof.
  intros Hc r. subst r.
  pose proof (algo_root_isRegionValid_none start size d Hc) as E.
  pose proof (algo_root_isRegionValid_hw sprintf start size d) as H1.
  unfold progalgo_intiram_write. rewrite bind_run, E.
  cbn [Z.eqb negb]. rewrite bind_run.
  set (d1 := snd (algo_root_isRegionValid sprintf start size d)) in *.
  pose proof (DFUDEBUG_hw sprintf "IRAMWRITE @ 0x%p, %p bytes\n"
                [start; size] d1) as H2.
  set (d2 := snd (DFUDEBUG sprintf "IRAMWRITE @ 0x%p, %p bytes\n"
                           [start; size] d1)) in *.
  cbn [fst snd set_mem mem].
  destruct H1 as (_ & M1 & _), H2 as (_ & M2 & _).
  split; [reflexivity|]. now rewrite M2, M1.
Qed.

Variable palgos_of : ALGO -> PROGALGOS_T.
Variable null_region_addr : Z.

Hypothesis palgos_intiram : palgos_of ALGO_INTIRAM = intiram_palgos sprintf.

(** A write through the root to an SRAM region in a slot other than 0,
    followed by a read of the same range: both return the size, the read
    gives the bytes written, and the memory is the one before with the
    bytes copied in. *)
Theorem algo_root_intiram_round_trip (k : Z) (buff buff2 : list Z)
    (start size : Z) (d : Dev) :
  first_cover (dfuRegionList d) k start size ->
  1 <= k ->
  pprogalgos (region_at (dfuRegionList d) k) = ALGO_INTIRAM ->
  0 <= size < 2147483648 ->
  size <= Z.of_nat (length buff) ->
  let w := algo_root_write sprintf palgos_of buff start size d in
  let r := algo_root_read sprintf palgos_of buff2 start size (snd w) in
  fst w = (size, buff)
  /\ fst r = (size, firstn (Z.to_nat size) buff ++ skipn (Z.to_nat size) buff2)
  /\ mem (snd r) = mem_write (mem d) start buff size
  /\ iap_log (snd r) = iap_log d.
Proof.
  intros Hc Hk Halg Hs Hlen w r.
  assert (Hs32 : s32 size = size).
  { unfold s32. rewrite u32_small by lia.
    destruct (Z.ltb_spec size 2147483648); lia. }
  pose proof (algo_root_isRegionValid_slot k start size d Hc) as E.
  assert (Hw : w = ((size, buff),
                    set_mem (snd (DFUDEBUG sprintf
                                    "IRAMWRITE @ 0x%p, %p bytes\n"
                                    [start; size] d))
                            (mem_write (mem d) start buff size))).
  { unfold w, algo_root_write, bind. rewrite E.
    destruct (Z.ltb_spec k 0); [lia|].
    rewrite Halg, palgos_intiram. cbn [write intiram_palgos].
    unfold progalgo_intiram_write. rewrite bind_run, E. cbn [fst snd].
    destruct (Z.eqb_spec k 0); [lia|]. cbn [negb].
    rewrite bind_run.
    destruct (DFUDEBUG_hw sprintf "IRAMWRITE @ 0x%p, %p bytes\n"
                [start; size] d) as (_ & M & _).
    now rewrite Hs32, M. }
  set (d1 := snd (DFUDEBUG sprintf "IRAMWRITE @ 0x%p, %p bytes\n"
                           [start; size] d)) in *.
  destruct (DFUDEBUG_hw sprintf "IRAMWRITE @ 0x%p, %p bytes\n"
              [start; size] d) as (R1 & M1 & L1).
  fold d1 in R1, M1, L1.
  set (dw := set_mem d1 (mem_write (mem d) start buff size)) in *.
  assert (Hcw : first_cover (dfuRegionList dw) k start size)
    by (cbn [dw set_mem dfuRegionList]; now rewrite R1).
  pose proof (algo_root_isRegionValid_slot k start size dw Hcw) as Ew.
  assert (Hr : r = ((size, firstn (Z.to_nat size) buff
                           ++ skipn (Z.to_nat size) buff2),
                    snd (DFUDEBUG sprintf "IRAMREAD @ 0x%p, %p bytes\n"
                                  [start; size] dw))).
  { unfold r. rewrite Hw. cbn [snd]. unfold algo_root_read, bind.
    rewrite Ew. destruct (Z.ltb_spec k 0); [lia|].
    replace (dfuRegionList dw) with (dfuRegionList d)
      by (cbn [dw set_mem dfuRegionList]; now rewrite R1).
    rewrite Halg, palgos_intiram. cbn [read intiram_palgos].
    unfold progalgo_intiram_read. rewrite bind_run, Ew. cbn [fst snd].
    destruct (Z.eqb_spec k 0); [lia|]. cbn [negb].
    rewrite bind_run.
    destruct (DFUDEBUG_hw sprintf "IRAMREAD @ 0x%p, %p bytes\n"
                [start; size] dw) as (_ & M & _).
    rewrite Hs32, M. cbn [dw set_mem mem].
    rewrite buf_store_mem_read, mem_read_mem_write_prefix by lia.
    reflexivity. }
  rewrite Hw, Hr. cbn [fst snd].
  destruct (DFUDEBUG_hw sprintf "IRAMREAD @ 0x%p, %p bytes\n"
              [start; size] dw) as (_ & M2 & L2).
  rewrite M2, L2. cbn [dw set_mem mem iap_log].
  repeat split; try reflexivity. exact L1.
Qed.

End RegistryFacts.

Ltac slot_cases C :=
  repeat (destruct C as [C|C]; [subst; reflexivity|]); subst; reflexivity.

(** On a flashless part the first SRAM region is slot 0; on the board it is
    slot 2; address 0 is in no region of the board. *)
Lemma progalgo_intiram_slot0_refused_witness :
  progalgo_intiram_erase_region sprintf_fmt 268435456 16 lpc1850_dev
  = (0, lpc1850_dev)
  /\ progalgo_intiram_write sprintf_fmt [1; 2; 3] 268435456 16 lpc1850_dev
     = ((0, [1; 2; 3]), lpc1850_dev)
  /\ progalgo_intiram_read sprintf_fmt [1; 2; 3] 268435456 16 lpc1850_dev
     = ((0, [1; 2; 3]), lpc1850_dev).
Proof.
  apply (progalgo_intiram_slot0_refused sprintf_fmt [1; 2; 3] 268435456 16
           lpc1850_dev).
  split; [vm_compute; split; [discriminate|reflexivity]|].
  split; [reflexivity|]. intros j Hj. lia.
Defined.

Lemma progalgo_intiram_write_unregistered_witness :
  let r := progalgo_intiram_write sprintf_fmt [1; 2; 3; 4] 0 4
             (mcb1857_dev 0) in
  fst r = (s32 4, [1; 2; 3; 4])
  /\ mem (snd r) = mem_write (mem (mcb1857_dev 0)) 0 [1; 2; 3; 4] 4.
Proof.
  apply (progalgo_intiram_write_unregistered sprintf_fmt [1; 2; 3; 4] 0 4
           (mcb1857_dev 0)).
  split; [vm_compute; discriminate|].
  cbn [num_regions dfuRegionList mcb1857_dev mcb1857_regionList].
  intros j Hj.
  assert (C : j = 0 \/ j = 1 \/ j = 2 \/ j = 3 \/ j = 4 \/ j = 5 \/ j = 6
              \/ j = 7) by lia.
  slot_cases C.
Defined.

Lemma algo_root_intiram_round_trip_witness :
  let d := mcb1857_dev 0 in
  let w := algo_root_write sprintf_fmt lpc_palgos_of [1; 2; 3; 4] 268435456 3
             d in
  let r := algo_root_read sprintf_fmt lpc_palgos_of [9; 9; 9; 9] 268435456 3
             (snd w) in
  fst w = (3, [1; 2; 3; 4])
  /\ fst r = (3, firstn (Z.to_nat 3) [1; 2; 3; 4]
                 ++ skipn (Z.to_nat 3) [9; 9; 9; 9])
  /\ mem (snd r) = mem_write (mem d) 268435456 [1; 2; 3; 4] 3
  /\ iap_log (snd r) = iap_log d.
Proof.
  apply (algo_root_intiram_round_trip sprintf_fmt lpc_palgos_of eq_refl 2).
  - split; [vm_compute; split; [discriminate|reflexivity]|].
    split; [reflexivity|]. intros j Hj.
    assert (C : j = 0 \/ j = 1) by lia.
    slot_cases C.
  - lia.
  - reflexivity.
  - lia.
  - cbn [length]. lia.
Defined.

(** ** Internal EEPROM *)

Lemma pad_loop_page (buff : list Z) size limit :
  0 <= size < limit -> (Z.to_nat limit <= length buff)%nat ->
  pad_loop (Z.to_nat limit) buff size limit
  = (limit, firstn (Z.to_nat size) buff
            ++ repeat 255 (Z.to_nat (limit - size))
            ++ skipn (Z.to_nat limit) buff).
Proof.
  intros Hs Hl.
  pose proof (pad_loop_spec (Z.to_nat limit) (firstn (Z.to_nat size) buff)
                (skipn (Z.to_nat limit) buff)
                (firstn (Z.to_nat (limit - size))
                        (skipn (Z.to_nat size) buff)) limit) as P.
  assert (L1 : length (firstn (Z.to_nat size) buff) = Z.to_nat size)
    by (rewrite length_firstn; lia).
  assert (L2 : length (firstn (Z.to_nat (limit - size))
                         (skipn (Z.to_nat size) buff))
               = Z.to_nat (limit - size))
    by (rewrite length_firstn, length_skipn; lia).
  rewrite L1, L2 in P. rewrite Z2Nat.id in P by lia.
  assert (E : firstn (Z.to_nat size) buff
              ++ firstn (Z.to_nat (limit - size)) (skipn (Z.to_nat size) buff)
              ++ skipn (Z.to_nat limit) buff = buff).
  { replace (skipn (Z.to_nat limit) buff)
      with (skipn (Z.to_nat (limit - size)) (skipn (Z.to_nat size) buff)).
    - now rewrite firstn_skipn, firstn_skipn.
    - rewrite skipn_skipn. f_equal. lia. }
  rewrite E in P. apply P; lia.
Qed.

Lemma znth_zeros4 j : znth [0; 0; 0; 0] j 0 = 0.
Proof.
  unfold znth. destruct (j <? 0); [reflexivity|].
  destruct (Z.to_nat j) as [|[|[|[|[|n]]]]]; reflexivity.
Qed.

Lemma mem_read_4 m a :
  mem_read m a 4 = [m (a + 0); m (a + 1); m (a + 2); m (a + 3)].
Proof. reflexivity. Qed.

Section EepromFacts.

Variable sprintf : string -> list Z -> list Z.
Variable EEPROM_PAGE_SIZE : Z.
Variable EEPROM_ADDRESS : Z -> Z -> Z.

Lemma eeprom_store_loop_spec src p : forall fuel i m,
  0 <= i -> EEPROM_PAGE_SIZE / 4 - i <= Z.of_nat fuel ->
  forall a,
    eeprom_store_loop EEPROM_PAGE_SIZE fuel src p i m a
    = if (p + 4 * i <=? a) && (a <? p + 4 * (EEPROM_PAGE_SIZE / 4))
      then znth (le32 (src ((a - p) / 4))) ((a - p) mod 4) 0
      else m a.
Proof.
  induction fuel as [|fuel IH]; intros i m Hi Hf a.
  - cbn [eeprom_store_loop].
    destruct (Z.leb_spec (p + 4 * i) a),
      (Z.ltb_spec a (p + 4 * (EEPROM_PAGE_SIZE / 4)));
      cbn [andb]; try reflexivity; lia.
  - cbn [eeprom_store_loop].
    destruct (Z.ltb_spec i (EEPROM_PAGE_SIZE / 4)) as [Hlt|Hge].
    + rewrite IH by lia.
      destruct (Z.leb_spec (p + 4 * (i + 1)) a) as [H1|H1],
        (Z.ltb_spec a (p + 4 * (EEPROM_PAGE_SIZE / 4))) as [H2|H2];
        cbn [andb].
      * destruct (Z.leb_spec (p + 4 * i) a); [reflexivity|lia].
      * destruct (Z.leb_spec (p + 4 * i) a); [|lia]. cbn [andb].
        unfold mem_store32, mem_write.
        destruct (Z.leb_spec (p + 4 * i) a), (Z.ltb_spec a (p + 4 * i + 4));
          cbn [andb]; try reflexivity; lia.
      * unfold mem_store32, mem_write.
        destruct (Z.leb_spec (p + 4 * i) a) as [H3|H3],
          (Z.ltb_spec a (p + 4 * i + 4)) as [H4|H4];
          cbn [andb]; try reflexivity; try lia.
        replace ((a - p) / 4) with i by (Z.div_mod_to_equations; lia).
        replace ((a - p) mod 4) with (a - (p + 4 * i))
          by (Z.div_mod_to_equations; lia).
        reflexivity.
      * destruct (Z.leb_spec (p + 4 * i) a); cbn [andb];
          unfold mem_store32, mem_write;
          destruct (Z.leb_spec (p + 4 * i) a), (Z.ltb_spec a (p + 4 * i + 4));
          cbn [andb]; try reflexivity; lia.
    + destruct (Z.leb_spec (p + 4 * i) a),
        (Z.ltb_spec a (p + 4 * (EEPROM_PAGE_SIZE / 4)));
        cbn [andb]; try reflexivity; lia.
Qed.

(** An EEPROM erase clears one page, whatever size it is given: the words
    of the page that holds the start address become 0, every other address
    keeps its contents, and the call returns the size it was given. *)
Theorem progalgo_inteeprom_erase_region_one_page (k start size : Z)
    (d : Dev) :
  0 < EEPROM_PAGE_SIZE ->
  first_cover (dfuRegionList d) k start size ->
  let p := EEPROM_ADDRESS
             (u32 (start - region_addr (region_at (dfuRegionList d) k))
              / EEPROM_PAGE_SIZE) 0 in
  let r := progalgo_inteeprom_erase_region sprintf EEPROM_PAGE_SIZE
             EEPROM_ADDRESS start size d in
  fst r = s32 size
  /\ (forall a, mem (snd r) a
                = if in_window p (4 * (EEPROM_PAGE_SIZE / 4)) a then 0
                  else mem d a)
  /\ iap_log (snd r) = iap_log d.
Proof.
  intros HP Hc p r. subst r.
  unfold progalgo_inteeprom_erase_region.
  rewrite bind_run.
  destruct (DFUDEBUG_hw sprintf "EEPROMERASE: %p with size %p\n"
              [start; size] d) as (R0 & M0 & L0).
  set (d0 := snd (DFUDEBUG sprintf "EEPROMERASE: %p with size %p\n"
                           [start; size] d)) in *.
  rewrite bind_run.
  rewrite (algo_root_isRegionValid_slot sprintf k start size d0)
    by (now rewrite R0).
  cbn [fst snd set_mem mem iap_log]. rewrite R0. fold p.
  split; [reflexivity|]. split; [|exact L0].
  intros a. rewrite eeprom_store_loop_spec by lia.
  unfold in_window. rewrite Z.mul_0_r, Z.add_0_r, M0.
  destruct ((p <=? a) && (a <? p + 4 * (EEPROM_PAGE_SIZE / 4)));
    [|reflexivity].
  apply znth_zeros4.
Qed.

(** An EEPROM write stores one 32-bit word per buffer byte: word [i] of the
    page gets byte [i] of the padded buffer, for the first quarter of the
    page size; the bytes of the buffer after that are not stored, although
    the size is returned; no address outside the page changes. *)
Theorem progalgo_inteeprom_write_words (k : Z) (buff : list Z)
    (start size : Z) (d : Dev) :
  0 < EEPROM_PAGE_SIZE ->
  first_cover (dfuRegionList d) k start size ->
  0 <= size ->
  (Z.to_nat EEPROM_PAGE_SIZE <= length buff)%nat ->
  let p := EEPROM_ADDRESS
             (u32 (start - region_addr (region_at (dfuRegionList d) k))
              / EEPROM_PAGE_SIZE) 0 in
  let fbuff := if size <? EEPROM_PAGE_SIZE
               then firstn (Z.to_nat size) buff
                    ++ repeat 255 (Z.to_nat (EEPROM_PAGE_SIZE - size))
                    ++ skipn (Z.to_nat EEPROM_PAGE_SIZE) buff
               else buff in
  let r := progalgo_inteeprom_write sprintf EEPROM_PAGE_SIZE EEPROM_ADDRESS
             buff start size d in
  fst r = (s32 size, fbuff)
  /\ (forall i, 0 <= i < EEPROM_PAGE_SIZE / 4 ->
        mem_read (mem (snd r)) (p + 4 * i) 4 = le32 (znth fbuff i 0))
  /\ (forall a, in_window p (4 * (EEPROM_PAGE_SIZE / 4)) a = false ->
        mem (snd r) a = mem d a)
  /\ iap_log (snd r) = iap_log d.
Proof.
  intros HP Hc Hs Hl p fbuff r. subst r.
  unfold progalgo_inteeprom_write.
  rewrite bind_run.
  destruct (DFUDEBUG_hw sprintf "EEPROMWRITE: %p with size %p\n"
              [start; size] d) as (R0 & M0 & L0).
  set (d0 := snd (DFUDEBUG sprintf "EEPROMWRITE: %p with size %p\n"
                           [start; size] d)) in *.
  rewrite bind_run.
  rewrite (algo_root_isRegionValid_slot sprintf k start size d0)
    by (now rewrite R0).
  cbn [fst snd]. rewrite R0. fold p.
  assert (Hpad : (if size <? EEPROM_PAGE_SIZE
                  then pad_loop (Z.to_nat EEPROM_PAGE_SIZE) buff size
                                EEPROM_PAGE_SIZE
                  else (size, buff))
                 = (if size <? EEPROM_PAGE_SIZE then EEPROM_PAGE_SIZE
                    else size, fbuff)).
  { unfold fbuff. destruct (Z.ltb_spec size EEPROM_PAGE_SIZE);
      [apply pad_loop_page; lia|reflexivity]. }
  rewrite Hpad. rewrite bind_run.
  set (m1 := if size <? EEPROM_PAGE_SIZE
             then DFUDEBUG sprintf
                    "EEPROMWRITE: Last sector too small, padded %d bytes\n"
                    [u32 ((if size <? EEPROM_PAGE_SIZE then EEPROM_PAGE_SIZE
                           else size) - size)]
             else ret tt).
  assert (H1 : hw_untouched d0 (snd (m1 d0))).
  { unfold m1. destruct (size <? EEPROM_PAGE_SIZE); [apply DFUDEBUG_hw|].
    repeat split. }
  destruct H1 as (R1 & M1 & L1).
  set (d1 := snd (m1 d0)) in *.
  cbn [fst snd set_mem mem iap_log].
  split; [reflexivity|].
  assert (Hmem : forall a,
            eeprom_store_loop EEPROM_PAGE_SIZE
              (Z.to_nat (EEPROM_PAGE_SIZE / 4)) (fun i => znth fbuff i 0)
              p 0 (mem d1) a
            = if in_window p (4 * (EEPROM_PAGE_SIZE / 4)) a
              then znth (le32 (znth fbuff ((a - p) / 4) 0)) ((a - p) mod 4) 0
              else mem d a).
  { intros a. rewrite eeprom_store_loop_spec by lia.
    unfold in_window. now rewrite Z.mul_0_r, Z.add_0_r, M1, M0. }
  split; [|split; [|now rewrite L1, L0]].
  - intros i Hi. rewrite mem_read_4, !Hmem. unfold in_window.
    assert (W : forall j, 0 <= j < 4 ->
              (if (p <=? p + 4 * i + j)
                  && (p + 4 * i + j <? p + 4 * (EEPROM_PAGE_SIZE / 4))
               then znth (le32 (znth fbuff ((p + 4 * i + j - p) / 4) 0))
                         ((p + 4 * i + j - p) mod 4) 0
               else mem d (p + 4 * i + j))
              = znth (le32 (znth fbuff i 0)) j 0).
    { intros j Hj.
      destruct (Z.leb_spec p (p + 4 * i + j)); [|lia].
      destruct (Z.ltb_spec (p + 4 * i + j)
                  (p + 4 * (EEPROM_PAGE_SIZE / 4))); [|lia].
      cbn [andb].
      replace ((p + 4 * i + j - p) / 4) with i
        by (Z.div_mod_to_equations; lia).
      replace ((p + 4 * i + j - p) mod 4) with j
        by (Z.div_mod_to_equations; lia).
      reflexivity. }
    rewrite (W 0), (W 1), (W 2), (W 3) by lia. reflexivity.
  - intros a Ha. now rewrite Hmem, Ha.
Qed.

End EepromFacts.

(** On the board the EEPROM is slot 7: an erase of 1024 bytes from its
    third page, and a write of two bytes to its first page. *)
Ltac region_fields :=
  repeat match goal with
         | |- context [region_at ?rl ?j] =>
             let v := eval vm_compute in (region_at rl j) in
             change (region_at rl j) with v
         end;
  cbn [region_addr region_size].

Lemma mcb1857_eeprom_slot v start size :
  537133056 <= start -> 0 <= size -> start + size <= 537149440 ->
  first_cover (dfuRegionList (mcb1857_dev v)) 7 start size.
Proof.
  intros H1 H2 H3. unfold first_cover.
  cbn [dfuRegionList mcb1857_dev mcb1857_regionList num_regions].
  split; [lia|]. split.
  - unfold covers_u32. region_fields.
    rewrite !u32_small by lia.
    apply andb_true_iff. split; [apply Z.geb_le|apply Z.leb_le]; lia.
  - intros j Hj.
    assert (C : j = 0 \/ j = 1 \/ j = 2 \/ j = 3 \/ j = 4 \/ j = 5 \/ j = 6)
      by lia.
    unfold covers_u32.
    repeat (destruct C as [C|C];
            [subst j; region_fields; rewrite !u32_small by lia;
             apply andb_false_iff;
             first [right; apply Z.leb_gt; lia
                   |left; rewrite Z.geb_leb; apply Z.leb_gt; lia]|]).
    subst j; region_fields; rewrite !u32_small by lia.
    apply andb_false_iff.
    left; rewrite Z.geb_leb; apply Z.leb_gt; lia.
Defined.

Lemma progalgo_inteeprom_erase_region_one_page_witness :
  let d := mcb1857_dev 255 in
  let p := lpc_EEPROM_ADDRESS
             (u32 (537133312 - region_addr (region_at (dfuRegionList d) 7))
              / lpc_EEPROM_PAGE_SIZE) 0 in
  let r := progalgo_inteeprom_erase_region sprintf_fmt lpc_EEPROM_PAGE_SIZE
             lpc_EEPROM_ADDRESS 537133312 1024 d in
  fst r = s32 1024
  /\ (forall a, mem (snd r) a
                = if in_window p (4 * (lpc_EEPROM_PAGE_SIZE / 4)) a then 0
                  else mem d a)
  /\ iap_log (snd r) = iap_log d.
Proof.
  apply (progalgo_inteeprom_erase_region_one_page sprintf_fmt
           lpc_EEPROM_PAGE_SIZE lpc_EEPROM_ADDRESS 7 537133312 1024
           (mcb1857_dev 255)).
  - reflexivity.
  - apply mcb1857_eeprom_slot; lia.
Defined.

Lemma progalgo_inteeprom_write_words_witness :
  let d := mcb1857_dev 255 in
  let buff := [17; 34] ++ repeat 0 4094 in
  let p := lpc_EEPROM_ADDRESS
             (u32 (537133056 - region_addr (region_at (dfuRegionList d) 7))
              / lpc_EEPROM_PAGE_SIZE) 0 in
  let fbuff := if 2 <? lpc_EEPROM_PAGE_SIZE
               then firstn (Z.to_nat 2) buff
                    ++ repeat 255 (Z.to_nat (lpc_EEPROM_PAGE_SIZE - 2))
                    ++ skipn (Z.to_nat lpc_EEPROM_PAGE_SIZE) buff
               else buff in
  let r := progalgo_inteeprom_write sprintf_fmt lpc_EEPROM_PAGE_SIZE
             lpc_EEPROM_ADDRESS buff 537133056 2 d in
  fst r = (s32 2, fbuff)
  /\ (forall i, 0 <= i < lpc_EEPROM_PAGE_SIZE / 4 ->
        mem_read (mem (snd r)) (p + 4 * i) 4 = le32 (znth fbuff i 0))
  /\ (forall a, in_window p (4 * (lpc_EEPROM_PAGE_SIZE / 4)) a = false ->
        mem (snd r) a = mem d a)
  /\ iap_log (snd r) = iap_log d.
Proof.
  apply (progalgo_inteeprom_write_words sprintf_fmt lpc_EEPROM_PAGE_SIZE
           lpc_EEPROM_ADDRESS 7 ([17; 34] ++ repeat 0 4094) 537133056 2
           (mcb1857_dev 255)).
  - reflexivity.
  - apply mcb1857_eeprom_slot; lia.
  - lia.
  - vm_compute. lia.
Defined.

(** ** Internal FLASH: erasing a bank *)

Section FlashEraseAllFacts.

Variable sprintf : string -> list Z -> list Z.
Variable iap_rom : list Z -> list Z -> (Z -> Z) -> Z * (Z -> Z).
Variable IAP_CMD_SUCCESS : Z.
Variable SystemCoreClock : Z.
Variable oob : DFUPROG_REGION_T.

(** Erase-all on a FLASH bank of full size works on the fifteen
    sectors of the bank the range lies in, and on no sector of the other
    bank: the ROM is asked to prepare sectors 0 to 14 of that bank, to erase
    them when the prepare succeeded, and to blank-check them when the erase
    succeeded.  These are all its calls of the ROM.  The call returns the
    size of the bank when the three commands succeeded, and 0 otherwise.
    With a ROM that reports success for every command the calls are the
    three commands, and the size of the bank comes back. *)
Theorem progalgo_intflash_erase_all_bank (bank k start size : Z) (d : Dev) :
  bank = 0 \/ bank = 1 ->
  first_cover (dfuRegionList d) k start size ->
  region_addr (region_at (dfuRegionList d) k) = bank_base bank ->
  region_size (region_at (dfuRegionList d) k) = 524288 ->
  let r := progalgo_intflash_erase_all sprintf iap_rom IAP_CMD_SUCCESS
             SystemCoreClock oob start size d in
  let prep := [IAP_PREP_SECS; 0; 14; bank] in
  let erase := [IAP_ERASE_SECS; 0; 14; SystemCoreClock / 1000; bank] in
  let blank := [IAP_BLANK_CHECK_SECS; 0; 14; bank] in
  let rp := iap_rom prep [] (mem d) in
  let re := iap_rom erase [] (snd rp) in
  let rb := iap_rom blank [] (snd re) in
  iap_log (snd r)
  = (if fst rp =? IAP_CMD_SUCCESS then
       if fst re =? IAP_CMD_SUCCESS then [blank; erase; prep]
       else [erase; prep]
     else [prep]) ++ iap_log d
  /\ fst r
     = (if (fst rp =? IAP_CMD_SUCCESS) && (fst re =? IAP_CMD_SUCCESS)
           && (fst rb =? IAP_CMD_SUCCESS)
        then 524288 else 0)
  /\ ((forall command ram m, fst (iap_rom command ram m) = IAP_CMD_SUCCESS) ->
      fst r = 524288
      /\ iap_log (snd r) = blank :: erase :: prep :: iap_log d).
Proof.
  intros Hbank Hc Ha Hsz r prep erase blank rp re rb.
  assert (T : iap_log (snd r)
              = (if fst rp =? IAP_CMD_SUCCESS then
                   if fst re =? IAP_CMD_SUCCESS then [blank; erase; prep]
                   else [erase; prep]
                 else [prep]) ++ iap_log d
              /\ fst r
                 = (if (fst rp =? IAP_CMD_SUCCESS)
                       && (fst re =? IAP_CMD_SUCCESS)
                       && (fst rb =? IAP_CMD_SUCCESS)
                    then 524288 else 0)).
  { subst r. unfold progalgo_intflash_erase_all.
    rewrite bind_run,
      (algo_root_isRegionValid_slot sprintf k start size d Hc).
    cbn [fst snd]. rewrite Ha, Hsz, bind_run.
    replace (bank_base bank) with (bank_base bank + 0) by lia.
    destruct (progalgo_intflash_erase_region_trace sprintf iap_rom
                IAP_CMD_SUCCESS SystemCoreClock oob bank 0 524288 d
                Hbank ltac:(lia) ltac:(lia) ltac:(lia)) as (L & F & _).
    - replace (bank_base bank + 0) with (bank_base bank) by lia.
      destruct Hbank as [-> | ->]; reflexivity.
    - reflexivity.
    - change (sector_of 0) with 0 in L, F.
      change (sector_of (0 + 524288 - 1)) with 14 in L, F.
      fold prep erase blank in L, F. fold rp in L, F. fold re in L, F.
      fold rb in F.
      cbn [ret fst snd]. rewrite L, F. split; [reflexivity|].
      destruct ((fst rp =? IAP_CMD_SUCCESS) && (fst re =? IAP_CMD_SUCCESS)
                && (fst rb =? IAP_CMD_SUCCESS)); reflexivity. }
  destruct T as [L F].
  split; [exact L|]. split; [exact F|].
  intros H. split.
  - rewrite F. unfold rp, re, rb. rewrite !H, Z.eqb_refl. reflexivity.
  - rewrite L. unfold rp, re. rewrite !H, Z.eqb_refl. reflexivity.
Qed.

End FlashEraseAllFacts.

(** On the board: erase-all for an address in bank B. *)
Lemma progalgo_intflash_erase_all_bank_witness :
  let iap_rom := fun (_ _ : list Z) (m : Z -> Z) => (0, m) in
  let d := mcb1857_dev 0 in
  let r := progalgo_intflash_erase_all sprintf_fmt iap_rom 0
             180000000 zero_region 452988928 0 d in
  let prep := [IAP_PREP_SECS; 0; 14; 1] in
  let erase := [IAP_ERASE_SECS; 0; 14; 180000000 / 1000; 1] in
  let blank := [IAP_BLANK_CHECK_SECS; 0; 14; 1] in
  let rp := iap_rom prep [] (mem d) in
  let re := iap_rom erase [] (snd rp) in
  let rb := iap_rom blank [] (snd re) in
  iap_log (snd r)
  = (if fst rp =? 0 then
       if fst re =? 0 then [blank; erase; prep] else [erase; prep]
     else [prep]) ++ iap_log d
  /\ fst r
     = (if (fst rp =? 0) && (fst re =? 0) && (fst rb =? 0)
        then 524288 else 0)
  /\ fst r = 524288
  /\ iap_log (snd r) = blank :: erase :: prep :: iap_log d.
Proof.
  destruct (progalgo_intflash_erase_all_bank sprintf_fmt
              (fun _ _ m => (0, m)) 0 180000000 zero_region 1 1 452988928 0
              (mcb1857_dev 0)) as (A & B & C).
  - right. reflexivity.
  - split; [vm_compute; split; [discriminate|reflexivity]|].
    split; [reflexivity|]. intros j Hj.
    assert (C : j = 0) by lia. subst j. reflexivity.
  - reflexivity.
  - reflexivity.
  - split; [exact A|]. split; [exact B|].
    apply C. intros command ram m. reflexivity.
Defined.

(** ** What the USB callbacks leave alone *)

Lemma hw_untouched_refl d : hw_untouched d d.
Proof. unfold hw_untouched; auto. Qed.

Lemma usbDebugFill_hw max d : hw_untouched d (snd (usbDebugFill max d)).
Proof.
  unfold usbDebugFill.
  destruct (negb (usbStrIn d =? usbStrOut d)); cbn [snd];
    [|apply hw_untouched_refl].
  unfold hw_untouched; cbn; auto.
Qed.

Section CallbackFacts.

Variable sprintf : string -> list Z -> list Z.

Lemma usbDFUReturnStatus_hw s d :
  hw_untouched d (snd (usbDFUReturnStatus s d)).
Proof.
  unfold usbDFUReturnStatus, usbDFUBuildStatus. rewrite bind_run.
  cbn [ret snd]. apply usbDebugFill_hw.
Qed.

Lemma usbDFUStartSession_snd addr size s d :
  snd (usbDFUStartSession sprintf addr size s d)
  = snd (algo_root_isRegionValid sprintf addr size d).
Proof.
  unfold usbDFUStartSession.
  destruct (algo_root_isRegionValid sprintf addr size d); reflexivity.
Qed.

Lemma usbDFUSetVerbose_hw addr s d :
  hw_untouched d (snd (usbDFUSetVerbose addr s d)).
Proof.
  unfold usbDFUSetVerbose. cbn [snd].
  destruct (Z.land addr 1 =? 0); unfold hw_untouched; cbn; auto.
Qed.

Lemma dfu_rd_status_hw length s d :
  hw_untouched d (snd (dfu_rd_status length s d)).
Proof.
  unfold dfu_rd_status.
  destruct (inPktSize s =? 0).
  - pose proof (usbDFUReturnStatus_hw s d) as H.
    destruct (usbDFUReturnStatus s d) as [r d']. cbn [snd] in H.
    match goal with
    | |- context [if ?b then _ else _] => destruct b
    end; exact H.
  - match goal with
    | |- context [if ?b then _ else _] => destruct b
    end; apply hw_untouched_refl.
Qed.

Lemma dfu_rd_readready_snd length s d :
  snd (dfu_rd_readready length s d) = d.
Proof.
  unfold dfu_rd_readready.
  repeat match goal with
         | |- context [match ?x with (_, _) => _ end] => destruct x
         end.
  repeat match goal with
         | |- context [if ?b then _ else _] => destruct b
         end; reflexivity.
Qed.

Ltac hw_step :=
  match goal with
  | |- hw_untouched _ (snd (if ?b then _ else _)) => destruct b
  | |- hw_untouched _ (snd (_, _)) => cbn [snd fst]
  | |- hw_untouched ?d ?d => apply hw_untouched_refl
  end.

(** Neither callback of the USB stack programs, erases or registers
    anything: whatever the packet and the state, [dfu_wr] and [dfu_rd] leave
    the memory, the log of boot ROM calls and the region registry as they
    were.  All of that is left to [dfu_util_process]. *)
Theorem usb_callbacks_leave_hardware (pOutHdr : DFU_FROMHOST_PACKETHDR_T)
    (pBuff : PBuff) (length : Z) (s : Session) (d : Dev) :
  hw_untouched d (snd (dfu_wr sprintf pOutHdr pBuff length s d))
  /\ hw_untouched d (snd (dfu_rd sprintf length s d)).
Proof.
  split.
  - unfold dfu_wr. cbv zeta.
    set (s1 := if negb (length =? 0)
               then set_outPktSizeIdx s (u32 (outPktSizeIdx s + length))
               else s).
    pose proof (checkMagicHeader_hw sprintf pOutHdr d) as Hm.
    set (d1 := snd (checkMagicHeader sprintf pOutHdr d)) in *.
    assert (Hstart : hw_untouched d
              (snd (usbDFUStartSession sprintf (hdr_addr pOutHdr)
                      (hdr_size pOutHdr) s1 d1))).
    { rewrite usbDFUStartSession_snd.
      eapply hw_untouched_trans; [exact Hm|].
      apply algo_root_isRegionValid_hw. }
    assert (Hverb : hw_untouched d
              (snd (usbDFUSetVerbose (hdr_addr pOutHdr) s1 d1))).
    { eapply hw_untouched_trans; [exact Hm|apply usbDFUSetVerbose_hw]. }
    assert (Hunk : hw_untouched d
              (snd (DFUDEBUG sprintf "Unknown command (%d)\n"
                             [hdr_hostCmd pOutHdr] d1))).
    { eapply hw_untouched_trans; [exact Hm|apply DFUDEBUG_hw]. }
    destruct (currStatus s1); repeat hw_step; assumption.
  - unfold dfu_rd. cbv zeta.
    set (s0 := if length =? 0 then set_inPktSize s 0 else s).
    destruct (currStatus s0);
      try apply dfu_rd_status_hw;
      try (rewrite dfu_rd_readready_snd; apply hw_untouched_refl);
      (eapply hw_untouched_trans; [apply DFUDEBUG_hw|apply dfu_rd_status_hw]).
Qed.

End CallbackFacts.

(** ** The endpoint 0 patch *)

Section Endpoint0Facts.

Variable g_Ep0BaseHdlr : list USB_EVT -> USB_EVT -> Z.

Lemma EP0_run_log es : forall st,
  exists f, rev (base_events (EP0_run g_Ep0BaseHdlr es st))
            = rev (base_events st) ++ f
    /\ (forall pre mid post,
          f = pre ++ USB_EVT_OUT_NAK :: mid ++ USB_EVT_OUT_NAK :: post ->
          In USB_EVT_SETUP mid \/ In USB_EVT_OUT mid)
    /\ (g_ep0RxBusy st <> 0 ->
        forall mid post,
          f = mid ++ USB_EVT_OUT_NAK :: post ->
          In USB_EVT_SETUP mid \/ In USB_EVT_OUT mid).
Proof.
  induction es as [|e es IH]; intros st.
  - exists []. cbn [EP0_run]. rewrite app_nil_r. split; [reflexivity|].
    split.
    + intros pre mid post H. destruct pre; discriminate.
    + intros _ mid post H. destruct mid; discriminate.
  - cbn [EP0_run].
    assert (Hfw : forall busy,
              (forall c, e = USB_EVT_other c -> busy = g_ep0RxBusy st) ->
              (e = USB_EVT_OUT_NAK -> g_ep0RxBusy st = 0 /\ busy <> 0) ->
              snd (EP0_patch g_Ep0BaseHdlr e st)
              = mkEP0 busy (e :: base_events st) ->
              exists f,
                rev (base_events
                       (EP0_run g_Ep0BaseHdlr es
                          (snd (EP0_patch g_Ep0BaseHdlr e st))))
                = rev (base_events st) ++ f
                /\ (forall pre mid post,
                      f = pre ++ USB_EVT_OUT_NAK :: mid
                              ++ USB_EVT_OUT_NAK :: post ->
                      In USB_EVT_SETUP mid \/ In USB_EVT_OUT mid)
                /\ (g_ep0RxBusy st <> 0 ->
                    forall mid post,
                      f = mid ++ USB_EVT_OUT_NAK :: post ->
                      In USB_EVT_SETUP mid \/ In USB_EVT_OUT mid)).
    { intros busy Hoth Hnak E. rewrite E.
      destruct (IH (mkEP0 busy (e :: base_events st)))
        as (f & Hf & Hsep & Hbusy).
      cbn [base_events g_ep0RxBusy rev] in Hf, Hbusy.
      exists (e :: f). split; [now rewrite Hf, <- app_assoc|].
      split.
      - intros pre mid post H.
        destruct pre as [|p pre]; cbn [app] in H.
        + injection H as He Hf'. destruct (Hnak He) as [_ Hb].
          exact (Hbusy Hb mid post Hf').
        + injection H as _ Hf'. exact (Hsep pre mid post Hf').
      - intros Hst mid post H.
        destruct mid as [|m mid]; cbn [app] in H.
        + injection H as He _. destruct (Hnak He) as [Hz _]. contradiction.
        + injection H as He Hf'. subst m.
          destruct e as [| | |c].
          * left; left; reflexivity.
          * right; left; reflexivity.
          * destruct (Hnak eq_refl) as [Hz _]. contradiction.
          * assert (Hb : busy <> 0) by (rewrite (Hoth c eq_refl); exact Hst).
            destruct (Hbusy Hb mid post Hf') as [HI|HI];
              [left|right]; right; exact HI. }
    destruct e as [| | |c].
    + apply (Hfw 0); [discriminate|discriminate|reflexivity].
    + apply (Hfw 0); [discriminate|discriminate|reflexivity].
    + destruct (Z.eq_dec (g_ep0RxBusy st) 0) as [Hz|Hnz].
      * apply (Hfw 1).
        -- discriminate.
        -- intros _. split; [exact Hz|discriminate].
        -- cbn [EP0_patch]. rewrite Hz. reflexivity.
      * assert (E : snd (EP0_patch g_Ep0BaseHdlr USB_EVT_OUT_NAK st) = st).
        { cbn [EP0_patch].
          destruct (Z.eqb_spec (g_ep0RxBusy st) 0); [contradiction|].
          reflexivity. }
        rewrite E.
        destruct (IH st) as (f & Hf & Hsep & Hbusy).
        exists f. split; [exact Hf|]. split; [exact Hsep|exact Hbusy].
    + apply (Hfw (g_ep0RxBusy st));
        [reflexivity|discriminate|reflexivity].
Qed.

(** Of the events the patch hands on to the handler of the ROM stack, no
    two NAKs on the OUT endpoint follow each other without a SETUP or OUT
    event between them, whatever the events that arrive and whatever the
    flag was at the start. *)
Theorem EP0_patch_no_nested_nak (es : list USB_EVT) (busy : Z)
    (pre mid post : list USB_EVT) :
  rev (base_events (EP0_run g_Ep0BaseHdlr es (mkEP0 busy [])))
  = pre ++ USB_EVT_OUT_NAK :: mid ++ USB_EVT_OUT_NAK :: post ->
  In USB_EVT_SETUP mid \/ In USB_EVT_OUT mid.
Proof.
  intros H.
  destruct (EP0_run_log es (mkEP0 busy [])) as (f & Hf & Hsep & _).
  cbn [base_events rev app] in Hf. rewrite Hf in H.
  exact (Hsep pre mid post H).
Qed.

End Endpoint0Facts.

Lemma EP0_patch_no_nested_nak_witness :
  In USB_EVT_SETUP [USB_EVT_other 3; USB_EVT_OUT]
  \/ In USB_EVT_OUT [USB_EVT_other 3; USB_EVT_OUT].
Proof.
  apply (EP0_patch_no_nested_nak (fun _ _ => LPC_OK)
           [USB_EVT_OUT_NAK; USB_EVT_OUT_NAK; USB_EVT_other 3;
            USB_EVT_OUT_NAK; USB_EVT_OUT; USB_EVT_OUT_NAK; USB_EVT_OUT_NAK]
           0 [] [USB_EVT_other 3; USB_EVT_OUT] []).
  reflexivity.
Defined.

(** ** The SPIFI clock divider *)

(** The divider is the quotient rounded up: it is the least divider that
    brings the base clock down to the target or below. *)
Theorem calculate_divider_ceiling (baseClock target : Z) :
  0 < baseClock < 4294967296 ->
  0 < target < 4294967296 ->
  let dv := calculate_divider baseClock target in
  0 < dv
  /\ baseClock <= dv * target
  /\ (dv - 1) * target < baseClock
  /\ baseClock / dv <= target.
Proof.
  intros Hb Ht dv. subst dv. unfold calculate_divider.
  pose proof (Z.div_mod baseClock target ltac:(lia)) as Hdm.
  pose proof (Z.mod_pos_bound baseClock target ltac:(lia)) as Hr.
  set (q := baseClock / target) in *.
  set (r := baseClock mod target) in *.
  assert (Hq : 0 <= q) by (apply Z.div_pos; lia).
  destruct (Z.eqb_spec r 0) as [E|NE]; cbn [negb].
  - assert (1 <= q) by nia.
    repeat split; try nia.
    replace baseClock with (target * q) by lia.
    rewrite Z.div_mul by lia. lia.
  - assert (2 <= target) by lia.
    assert (q + 1 < 4294967296) by nia.
    rewrite u32_small by lia.
    repeat split; try nia.
    assert (baseClock / (q + 1) < target + 1); [|lia].
    apply Z.div_lt_upper_bound; nia.
Qed.

Lemma calculate_divider_ceiling_witness :
  let dv := calculate_divider 204000000 12000000 in
  0 < dv
  /\ 204000000 <= dv * 12000000
  /\ (dv - 1) * 12000000 < 204000000
  /\ 204000000 / dv <= 12000000.
Proof.
  apply (calculate_divider_ceiling 204000000 12000000); lia.
Defined.

(** ** Discovering the regions *)

Section DiscoveryFacts.

Variable sprintf : string -> list Z -> list Z.
Variable iap_rom : list Z -> list Z -> (Z -> Z) -> Z * (Z -> Z).
Variable IAP_CMD_SUCCESS : Z.
Variable EEPROM_PAGE_SIZE : Z.
Variable lib : SPIFILIB.

Lemma DFUDEBUG_regs fmt args d :
  mem (snd (DFUDEBUG sprintf fmt args d)) = mem d
  /\ dfuRegionList (snd (DFUDEBUG sprintf fmt args d)) = dfuRegionList d.
Proof.
  destruct (DFUDEBUG_hw sprintf fmt args d) as (A & B & _). auto.
Qed.

Lemma show_families_regs names : forall d,
  mem (snd (show_families sprintf names d)) = mem d
  /\ dfuRegionList (snd (show_families sprintf names d)) = dfuRegionList d.
Proof.
  induction names as [|n names IH]; intros d; cbn [show_families].
  - split; reflexivity.
  - rewrite bind_run. unfold SPIFIDEBUG.
    destruct (DFUDEBUG_regs "FAMILY: %s\r\n" [n] d) as [M R].
    destruct (IH (snd (DFUDEBUG sprintf "FAMILY: %s\r\n" [n] d))) as [M' R'].
    split; congruence.
Qed.

Lemma initializeSpifi_spec d :
  let r := initializeSpifi sprintf lib d in
  fst r = (if spifi_memsize lib =? 0 then None else spifi_devsize lib)
  /\ mem (snd r) = mem d
  /\ dfuRegionList (snd r) = dfuRegionList d.
Proof.
  cbv zeta. unfold initializeSpifi. rewrite bind_run.
  destruct (show_families_regs (spifi_families lib) d) as [M R].
  set (d0 := snd (show_families sprintf (spifi_families lib) d)) in *.
  unfold SPIFIDEBUG.
  destruct (spifi_memsize lib =? 0).
  - rewrite bind_run. cbn [ret fst snd].
    destruct (DFUDEBUG_regs "SPIFLASH: spifiGetHandleMemSize() failed.\r\n"
                [] d0) as [M' R'].
    repeat split; congruence.
  - destruct (spifi_devsize lib) as [sz|].
    + cbn [ret fst snd]. auto.
    + rewrite bind_run. cbn [ret fst snd].
      destruct (DFUDEBUG_regs "SPIFLASH: spifiInitDevice() failed.\r\n"
                  [] d0) as [M' R'].
      repeat split; congruence.
Qed.

Lemma store_region_spec base i r d :
  mem (snd (store_region base i r d)) = mem d
  /\ regionList (dfuRegionList (snd (store_region base i r d)))
     = zupd (regionList (dfuRegionList d)) (base + i) r.
Proof. split; reflexivity. Qed.

Lemma progalgo_spiflash_init_spec base avail d :
  2 <= avail ->
  let r := progalgo_spiflash_init sprintf lib base avail d in
  mem (snd r) = mem d
  /\ match (if spifi_memsize lib =? 0 then None else spifi_devsize lib) with
     | None => fst (fst r) = 0
               /\ regionList (dfuRegionList (snd r))
                  = regionList (dfuRegionList d)
     | Some sz =>
         fst (fst r) = 2
         /\ regionList (dfuRegionList (snd r))
            = zupd (zupd (regionList (dfuRegionList d)) (base + 0)
                      (with_region_size (znth spiflash_pregions 0 zero_region)
                                        (u32 sz)))
                   (base + (0 + 1))
                   (with_region_size (znth spiflash_pregions (0 + 1)
                                           zero_region) (u32 sz))
     end.
Proof.
  intros Ha r. subst r. unfold progalgo_spiflash_init, SPIFIDEBUG.
  rewrite bind_run.
  destruct (DFUDEBUG_regs "SPIFLASH: init()...\r\n" [] d) as [M0 R0].
  set (d0 := snd (DFUDEBUG sprintf "SPIFLASH: init()...\r\n" [] d)) in *.
  rewrite bind_run.
  destruct (initializeSpifi_spec d0) as (E & M1 & R1).
  set (d1 := snd (initializeSpifi sprintf lib d0)) in *.
  rewrite E.
  destruct (if spifi_memsize lib =? 0 then None else spifi_devsize lib)
    as [sz|].
  - assert (Hav : (if avail >? 2 then 2 else avail) = 2)
      by (destruct (Z.gtb_spec avail 2); lia).
    rewrite Hav. rewrite bind_run.
    cbn [spiflash_init_loop Z.ltb Z.compare Z.add Pos.add Pos.compare
         Pos.compare_cont].
    rewrite !bind_run. cbn [ret fst snd].
    match goal with
    | |- context [DFUDEBUG sprintf ?f ?a ?x] =>
        destruct (DFUDEBUG_regs f a x) as [M3 R3]
    end.
    rewrite M3, R3.
    cbn [store_region fst snd set_regionList mem dfuRegionList regionList].
    rewrite M1, M0, R1, R0. split; [reflexivity|]. split; reflexivity.
  - rewrite bind_run. cbn [ret fst snd].
    destruct (DFUDEBUG_regs "SPIFLASH check: initialization failed\r\n" []
                d1) as [M2 R2].
    rewrite M2, R2, M1, R1, M0, R0. auto.
Qed.

Lemma progalgo_intflash_init_spec base avail d :
  2 <= avail ->
  (iap_in_rom (mem_load32 (mem d) IAP_LOCATION_ADDR) = true ->
   snd (iap_rom [IAP_INIT] [] (mem d)) = mem d) ->
  let r := progalgo_intflash_init sprintf iap_rom IAP_CMD_SUCCESS base avail d
  in
  let id2 := mem_load32 (mem d) PART_ID2_ADDR in
  let a := progalgo_iflash_getsize 0 id2 in
  let b := progalgo_iflash_getsize (0 + 1) id2 in
  let ni1 := if a >? 0 then 0 + 1 else 0 in
  mem (snd r) = mem d
  /\ if iap_in_rom (mem_load32 (mem d) IAP_LOCATION_ADDR)
        && (fst (iap_rom [IAP_INIT] [] (mem d)) =? IAP_CMD_SUCCESS)
     then fst r = (if b >? 0 then ni1 + 1 else ni1)
          /\ regionList (dfuRegionList (snd r))
             = zupd (zupd (regionList (dfuRegionList d)) (base + 0)
                       (with_region_size (znth intflash_pregions 0 zero_region)
                                         a))
                    (base + ni1)
                    (with_region_size (znth intflash_pregions (0 + 1)
                                            zero_region) b)
     else fst r = 0
          /\ regionList (dfuRegionList (snd r)) = regionList (dfuRegionList d).
Proof.
  intros Ha Hrom r id2 a b ni1. subst r. unfold progalgo_intflash_init.
  rewrite bind_run.
  match goal with
  | |- context [DFUDEBUG sprintf ?f ?x d] =>
      destruct (DFUDEBUG_regs f x d) as [M0 R0];
      set (d0 := snd (DFUDEBUG sprintf f x d)) in *
  end.
  destruct (iap_in_rom (mem_load32 (mem d) IAP_LOCATION_ADDR));
    cbn [andb]; [|cbn [ret fst snd]; rewrite R0; auto].
  specialize (Hrom eq_refl).
  rewrite bind_run.
  assert (E1 : fst (iap_entry iap_rom [IAP_INIT] [] d0)
               = fst (iap_rom [IAP_INIT] [] (mem d))).
  { unfold iap_entry. rewrite M0.
    destruct (iap_rom [IAP_INIT] [] (mem d)); reflexivity. }
  assert (E2 : mem (snd (iap_entry iap_rom [IAP_INIT] [] d0)) = mem d
               /\ dfuRegionList (snd (iap_entry iap_rom [IAP_INIT] [] d0))
                  = dfuRegionList d).
  { unfold iap_entry. rewrite M0.
    destruct (iap_rom [IAP_INIT] [] (mem d)) as [x m']. cbn in *.
    split; congruence. }
  destruct E2 as [M1 R1].
  set (d1 := snd (iap_entry iap_rom [IAP_INIT] [] d0)) in *.
  rewrite E1.
  destruct (fst (iap_rom [IAP_INIT] [] (mem d)) =? IAP_CMD_SUCCESS);
    [|cbn [ret fst snd]; rewrite R1; auto].
  assert (Hav : (if avail >? 2 then 2 else avail) = 2)
    by (destruct (Z.gtb_spec avail 2); lia).
  rewrite Hav. fold id2.
  cbn [intflash_init_loop Z.ltb Z.compare Pos.compare Pos.compare_cont].
  change (0 + 1 <? 2) with true. cbv iota.
  fold a. rewrite !bind_run.
  change (0 + 1 + 1 <? 2) with false. cbv iota.
  fold b. fold ni1.
  cbn [ret fst snd store_region set_regionList mem dfuRegionList regionList].
  rewrite M1, R1. auto.
Qed.

Lemma progalgo_intiram_init_spec base avail d :
  5 <= avail ->
  let r := progalgo_intiram_init base avail d in
  mem (snd r) = mem d
  /\ fst r = 5
  /\ regionList (dfuRegionList (snd r))
     = zupd (zupd (zupd (zupd (zupd (regionList (dfuRegionList d))
          (base + 0) (znth intiram_pregions 0 zero_region))
          (base + 1) (znth intiram_pregions 1 zero_region))
          (base + 2) (znth intiram_pregions 2 zero_region))
          (base + 3) (znth intiram_pregions 3 zero_region))
          (base + 4) (znth intiram_pregions 4 zero_region).
Proof.
  intros Ha r. subst r. unfold progalgo_intiram_init.
  assert (Hav : (if avail >? 5 then 5 else avail) = 5)
    by (destruct (Z.gtb_spec avail 5); lia).
  rewrite Hav. repeat split.
Qed.

Lemma progalgo_inteeprom_init_spec base avail d :
  0 < avail ->
  let r := progalgo_inteeprom_init sprintf EEPROM_PAGE_SIZE base avail d in
  mem (snd r) = mem d
  /\ if iap_in_rom (mem_load32 (mem d) IAP_LOCATION_ADDR)
     then fst r = 1
          /\ regionList (dfuRegionList (snd r))
             = zupd (regionList (dfuRegionList d)) (base + 0)
                    (inteeprom_pregion EEPROM_PAGE_SIZE)
     else fst r = 0
          /\ regionList (dfuRegionList (snd r)) = regionList (dfuRegionList d).
Proof.
  intros Ha r. subst r. unfold progalgo_inteeprom_init.
  destruct (iap_in_rom (mem_load32 (mem d) IAP_LOCATION_ADDR));
    [|cbn [fst snd]; auto].
  destruct (Z.gtb_spec avail 0); [|lia].
  rewrite !bind_run. cbn [ret fst snd].
  match goal with
  | |- context [DFUDEBUG sprintf ?f ?x ?y] =>
      destruct (DFUDEBUG_regs f x y) as [M0 R0]
  end.
  rewrite M0, R0. repeat split.
Qed.

Lemma algo_root_init_spec d :
  length (regionList (dfuRegionList d)) = 12%nat ->
  (iap_in_rom (mem_load32 (mem d) IAP_LOCATION_ADDR) = true ->
   snd (iap_rom [IAP_INIT] [] (mem d)) = mem d) ->
  let has_iap := iap_in_rom (mem_load32 (mem d) IAP_LOCATION_ADDR) in
  let iap_ok :=
    has_iap && (fst (iap_rom [IAP_INIT] [] (mem d)) =? IAP_CMD_SUCCESS) in
  let found :=
    found_spiflash lib
    ++ found_intflash iap_ok (mem_load32 (mem d) PART_ID2_ADDR)
    ++ intiram_pregions ++ found_inteeprom EEPROM_PAGE_SIZE has_iap in
  let d' := snd (algo_root_init sprintf iap_rom IAP_CMD_SUCCESS
                   EEPROM_PAGE_SIZE lib d) in
  num_regions (dfuRegionList d') = Z.of_nat (length found)
  /\ firstn (length found) (regionList (dfuRegionList d')) = found
  /\ skipn (length found) (regionList (dfuRegionList d'))
     = skipn (length found) (regionList (dfuRegionList d))
  /\ mem d' = mem d.
Proof.
  intros Hlen Hrom has_iap iap_ok found d'.
  subst d'. unfold algo_root_init. rewrite bind_run.
  (* SPIFI *)
  pose proof (progalgo_spiflash_init_spec 0 (MAXREGIONS - 0) d
                ltac:(unfold MAXREGIONS; lia)) as (M1 & H1).
  set (r1 := progalgo_spiflash_init sprintf lib 0 (MAXREGIONS - 0) d) in *.
  assert (C1 : (fst (fst r1) = 0 /\ found_spiflash lib = []
                /\ regionList (dfuRegionList (snd r1))
                   = regionList (dfuRegionList d))
               \/ (exists sz, fst (fst r1) = 2
                   /\ found_spiflash lib
                      = [with_region_size (znth spiflash_pregions 0 zero_region)
                                          (u32 sz);
                         with_region_size (znth spiflash_pregions 1 zero_region)
                                          (u32 sz)]
                   /\ regionList (dfuRegionList (snd r1))
                      = zupd (zupd (regionList (dfuRegionList d)) 0
                                (with_region_size
                                   (znth spiflash_pregions 0 zero_region) (u32 sz)))
                             1
                             (with_region_size
                                (znth spiflash_pregions 1 zero_region) (u32 sz)))).
  { unfold found_spiflash.
    destruct (spifi_memsize lib =? 0); [left; tauto|].
    destruct (spifi_devsize lib) as [sz|]; [|left; tauto].
    right. exists sz. destruct H1 as [A B]. repeat split; assumption. }
  clear H1.
  (* internal FLASH *)
  rewrite bind_run.
  set (b1 := s32 (0 + fst (fst r1))) in *.
  assert (Hb1 : b1 = fst (fst r1)).
  { unfold b1. destruct C1 as [(E & _)|(sz & E & _)]; rewrite E; reflexivity. }
  pose proof (progalgo_intflash_init_spec b1 (MAXREGIONS - b1) (snd r1)
                ltac:(unfold MAXREGIONS;
                      destruct C1 as [(E & _)|(sz & E & _)]; lia)
                ltac:(rewrite M1; exact Hrom))
    as (M2 & H2).
  set (r2 := progalgo_intflash_init sprintf iap_rom IAP_CMD_SUCCESS b1
               (MAXREGIONS - b1) (snd r1)) in *.
  rewrite M1 in H2. fold has_iap in H2. fold iap_ok in H2.
  set (id2 := mem_load32 (mem d) PART_ID2_ADDR) in *.
  set (a := progalgo_iflash_getsize 0 id2) in *.
  set (b := progalgo_iflash_getsize (0 + 1) id2) in *.
  (* SRAM *)
  rewrite bind_run.
  set (b2 := s32 (b1 + fst r2)) in *.
  assert (Hr2 : 0 <= fst r2 <= 2).
  { destruct iap_ok; destruct H2 as [E _]; rewrite E; [|lia].
    destruct (a >? 0), (b >? 0); lia. }
  assert (Hb2 : b2 = b1 + fst r2).
  { unfold b2, s32. rewrite u32_small
      by (destruct C1 as [(E & _)|(sz & E & _)]; lia).
    destruct (Z.ltb_spec (b1 + fst r2) 2147483648); [reflexivity|].
    destruct C1 as [(E & _)|(sz & E & _)]; lia. }
  pose proof (progalgo_intiram_init_spec b2 (MAXREGIONS - b2) (snd r2)
                ltac:(unfold MAXREGIONS;
                      destruct C1 as [(E & _)|(sz & E & _)]; lia))
    as (M3 & E3 & H3).
  set (r3 := progalgo_intiram_init b2 (MAXREGIONS - b2) (snd r2)) in *.
  (* EEPROM *)
  rewrite bind_run.
  set (b3 := s32 (b2 + fst r3)) in *.
  assert (Hb3 : b3 = b2 + 5).
  { unfold b3, s32. rewrite E3. rewrite u32_small
      by (destruct C1 as [(E & _)|(sz & E & _)]; lia).
    destruct (Z.ltb_spec (b2 + 5) 2147483648); [reflexivity|].
    destruct C1 as [(E & _)|(sz & E & _)]; lia. }
  pose proof (progalgo_inteeprom_init_spec b3 (MAXREGIONS - b3) (snd r3)
                ltac:(unfold MAXREGIONS;
                      destruct C1 as [(E & _)|(sz & E & _)]; lia))
    as (M4 & H4).
  set (r4 := progalgo_inteeprom_init sprintf EEPROM_PAGE_SIZE b3
               (MAXREGIONS - b3) (snd r3)) in *.
  rewrite M3, M2, M1 in H4. fold has_iap in H4.
  rewrite bind_run.
  set (b4 := s32 (b3 + fst r4)) in *.
  assert (Hr4 : 0 <= fst r4 <= 1)
    by (destruct has_iap; destruct H4 as [E _]; rewrite E; lia).
  assert (Hb4 : b4 = b3 + fst r4).
  { unfold b4, s32. rewrite u32_small
      by (destruct C1 as [(E & _)|(sz & E & _)]; lia).
    destruct (Z.ltb_spec (b3 + fst r4) 2147483648); [reflexivity|].
    destruct C1 as [(E & _)|(sz & E & _)]; lia. }
  cbn [ret snd set_num_regions set_regionList dfuRegionList num_regions
       regionList mem].
  rewrite M4, M3, M2, M1.
  (* the array, slot by slot *)
  remember (regionList (dfuRegionList d)) as l eqn:El.
  do 12 (destruct l as [|? l]; [discriminate Hlen|]).
  destruct l; [|discriminate Hlen].
  clear Hlen El.
  assert (Hfound : found = found_spiflash lib
                   ++ found_intflash iap_ok id2
                   ++ intiram_pregions
                   ++ found_inteeprom EEPROM_PAGE_SIZE has_iap)
    by reflexivity.
  assert (Hflash : found_intflash iap_ok id2
                   = if iap_ok
                     then (if a >? 0
                           then [with_region_size
                                   (znth intflash_pregions 0 zero_region) a]
                           else [])
                          ++ (if b >? 0
                              then [with_region_size
                                      (znth intflash_pregions 1 zero_region) b]
                              else [])
                     else []).
  { unfold found_intflash. destruct iap_ok; [|reflexivity].
    cbn [filter region_size with_region_size].
    change (progalgo_iflash_getsize 0 id2) with a.
    change (progalgo_iflash_getsize 1 id2) with b.
    destruct (a >? 0), (b >? 0); reflexivity. }
  clearbody found r1 r2 r3 r4 b1 b2 b3 b4 has_iap iap_ok a b.
  rewrite Hfound, Hflash. clear Hfound Hflash.
  destruct C1 as [(E1 & F1 & L1)|(sz & E1 & F1 & L1)];
    rewrite F1; clear F1;
    (destruct iap_ok; destruct H2 as [E2 L2];
     [destruct (a >? 0); destruct (b >? 0)|]);
    (destruct has_iap; destruct H4 as [E4 L4]);
    rewrite L4, ?H3, L2, L1, Hb4, E4, ?Hb3, Hb2, E2, Hb1, E1;
    unfold found_inteeprom;
    repeat split.
Qed.

Lemma found_length (iap_ok has_iap : bool) (id2 : Z) :
  (5 <= length (found_spiflash lib ++ found_intflash iap_ok id2
                ++ intiram_pregions
                ++ found_inteeprom EEPROM_PAGE_SIZE has_iap) <= 10)%nat.
Proof.
  rewrite !length_app.
  assert (length (found_spiflash lib) <= 2)%nat.
  { unfold found_spiflash. destruct (spifi_memsize lib =? 0); [cbn; lia|].
    destruct (spifi_devsize lib); cbn; lia. }
  assert (length (found_intflash iap_ok id2) <= 2)%nat.
  { unfold found_intflash. destruct iap_ok; [|cbn; lia].
    cbn [filter]. repeat destruct (_ >? 0); cbn; lia. }
  assert (length (found_inteeprom EEPROM_PAGE_SIZE has_iap) <= 1)%nat
    by (destruct has_iap; cbn; lia).
  change (length intiram_pregions) with 5%nat. lia.
Qed.

(** [algo_root_init] fills the registry with the regions found, in the
    order SPIFI flash, internal FLASH, SRAM, EEPROM, and without a gap: a
    FLASH bank of size 0 leaves no slot behind.  Between five and ten of the
    twelve slots are used, the slots after them keep what they held, and
    the memory is as before. *)
Theorem algo_root_init_registry (d : Dev) :
  length (regionList (dfuRegionList d)) = 12%nat ->
  (iap_in_rom (mem_load32 (mem d) IAP_LOCATION_ADDR) = true ->
   snd (iap_rom [IAP_INIT] [] (mem d)) = mem d) ->
  let has_iap := iap_in_rom (mem_load32 (mem d) IAP_LOCATION_ADDR) in
  let iap_ok :=
    has_iap && (fst (iap_rom [IAP_INIT] [] (mem d)) =? IAP_CMD_SUCCESS) in
  let found :=
    found_spiflash lib
    ++ found_intflash iap_ok (mem_load32 (mem d) PART_ID2_ADDR)
    ++ intiram_pregions ++ found_inteeprom EEPROM_PAGE_SIZE has_iap in
  let d' := snd (algo_root_init sprintf iap_rom IAP_CMD_SUCCESS
                   EEPROM_PAGE_SIZE lib d) in
  num_regions (dfuRegionList d') = Z.of_nat (length found)
  /\ firstn (length found) (regionList (dfuRegionList d')) = found
  /\ skipn (length found) (regionList (dfuRegionList d'))
     = skipn (length found) (regionList (dfuRegionList d))
  /\ (5 <= length found <= 10)%nat
  /\ mem d' = mem d.
Proof.
  intros Hlen Hrom has_iap iap_ok found d'.
  destruct (algo_root_init_spec d Hlen Hrom) as (A & B & C & D).
  repeat split; try assumption; apply found_length.
Qed.

Variable palgos_of : ALGO -> PROGALGOS_T.

(** On a part where no SPIFI device and no IAP entry is found, the first
    SRAM region is registered in slot 0, and the SRAM driver takes it for
    no region at all: after [algo_root_init], a write through the root to
    any range of Local SRAM 1 returns 0 and changes nothing. *)
Theorem algo_root_init_first_sram_refused (buff : list Z) (start size : Z)
    (d : Dev) :
  length (regionList (dfuRegionList d)) = 12%nat ->
  found_spiflash lib = [] ->
  iap_in_rom (mem_load32 (mem d) IAP_LOCATION_ADDR) = false ->
  palgos_of ALGO_INTIRAM = intiram_palgos sprintf ->
  268435456 <= start -> 0 <= size -> start + size <= 268566528 ->
  let d' := snd (algo_root_init sprintf iap_rom IAP_CMD_SUCCESS
                   EEPROM_PAGE_SIZE lib d) in
  algo_root_write sprintf palgos_of buff start size d' = ((0, buff), d').
Proof.
  intros Hlen Hspi Hiap Hpal H1 H2 H3 d'.
  destruct (algo_root_init_spec d Hlen
              ltac:(rewrite Hiap; discriminate)) as (A & B & _).
  fold d' in A, B. rewrite Hspi, Hiap in A, B.
  cbn [andb found_intflash found_inteeprom app] in A, B.
  rewrite app_nil_r in A, B.
  change (length intiram_pregions) with 5%nat in A, B.
  assert (R0 : region_at (dfuRegionList d') 0
               = znth intiram_pregions 0 zero_region).
  { unfold region_at, znth. cbn [Z.ltb Z.compare Z.to_nat].
    rewrite <- (firstn_skipn 5 (regionList (dfuRegionList d'))), B.
    reflexivity. }
  assert (Hc : first_cover (dfuRegionList d') 0 start size).
  { unfold first_cover. rewrite A. split; [cbn; lia|]. split.
    - rewrite R0. unfold covers_u32.
      cbn [znth Z.ltb Z.compare Z.to_nat nth intiram_pregions region_addr
           region_size].
      rewrite !u32_small by lia.
      apply andb_true_iff. split; [apply Z.geb_le|apply Z.leb_le]; lia.
    - intros j Hj. lia. }
  pose proof (algo_root_isRegionValid_slot sprintf 0 start size d' Hc) as E.
  unfold algo_root_write, bind. rewrite E.
  cbn [Z.ltb Z.compare]. rewrite R0.
  cbn [znth Z.ltb Z.compare Z.to_nat nth intiram_pregions pprogalgos].
  rewrite Hpal. cbn [write intiram_palgos].
  unfold progalgo_intiram_write, bind. rewrite E. reflexivity.
Qed.

End DiscoveryFacts.

(** The two registries used above are the ones [algo_root_init] builds: on
    a part with both FLASH banks and no SPIFI device, and on a flashless
    part. *)
Lemma mcb1857_regionList_discovered :
  dfuRegionList (snd (algo_root_init sprintf_fmt lpc_iap_rom 0
                        lpc_EEPROM_PAGE_SIZE no_spifi (reset_dev lpc1857_mem)))
  = mcb1857_regionList.
Proof. vm_compute. reflexivity. Qed.

Lemma lpc1850_regionList_discovered :
  dfuRegionList (snd (algo_root_init sprintf_fmt lpc_iap_rom 0
                        lpc_EEPROM_PAGE_SIZE no_spifi
                        (reset_dev (fun _ => 0))))
  = lpc1850_regionList.
Proof. vm_compute. reflexivity. Qed.

Lemma algo_root_init_registry_witness :
  let d := reset_dev lpc1857_mem in
  let has_iap := iap_in_rom (mem_load32 (mem d) IAP_LOCATION_ADDR) in
  let iap_ok := has_iap && (fst (lpc_iap_rom [IAP_INIT] [] (mem d)) =? 0) in
  let found :=
    found_spiflash no_spifi
    ++ found_intflash iap_ok (mem_load32 (mem d) PART_ID2_ADDR)
    ++ intiram_pregions ++ found_inteeprom lpc_EEPROM_PAGE_SIZE has_iap in
  let d' := snd (algo_root_init sprintf_fmt lpc_iap_rom 0
                   lpc_EEPROM_PAGE_SIZE no_spifi d) in
  num_regions (dfuRegionList d') = Z.of_nat (length found)
  /\ firstn (length found) (regionList (dfuRegionList d')) = found
  /\ skipn (length found) (regionList (dfuRegionList d'))
     = skipn (length found) (regionList (dfuRegionList d))
  /\ (5 <= length found <= 10)%nat
  /\ mem d' = mem d.
Proof.
  apply (algo_root_init_registry sprintf_fmt lpc_iap_rom 0
           lpc_EEPROM_PAGE_SIZE no_spifi (reset_dev lpc1857_mem)).
  - reflexivity.
  - intros _. reflexivity.
Defined.

Lemma algo_root_init_first_sram_refused_witness :
  let d' := snd (algo_root_init sprintf_fmt lpc_iap_rom 0
                   lpc_EEPROM_PAGE_SIZE no_spifi (reset_dev (fun _ => 0))) in
  algo_root_write sprintf_fmt lpc_palgos_of [1; 2; 3; 4] 268435456 4 d'
  = ((0, [1; 2; 3; 4]), d').
Proof.
  apply (algo_root_init_first_sram_refused sprintf_fmt lpc_iap_rom 0
           lpc_EEPROM_PAGE_SIZE no_spifi lpc_palgos_of [1; 2; 3; 4]
           268435456 4 (reset_dev (fun _ => 0))).
  - reflexivity.
  - reflexivity.
  - reflexivity.
  - reflexivity.
  - lia.
  - lia.
  - lia.
Defined.

(** ** Programming one page, from the command to the FLASH *)

Section ProgramPageFacts.

Variable sprintf : string -> list Z -> list Z.
Variable iap_rom : list Z -> list Z -> (Z -> Z) -> Z * (Z -> Z).
Variable IAP_CMD_SUCCESS : Z.
Variable SystemCoreClock : Z.
Variable oob : DFUPROG_REGION_T.
Variable dfuProgBuff_addr : Z.
Variable null_region_addr : Z.
Variable palgos_of : ALGO -> PROGALGOS_T.

Hypothesis rom_prep : forall s e b ram m,
  iap_rom [IAP_PREP_SECS; s; e; b] ram m = (IAP_CMD_SUCCESS, m).
Hypothesis rom_copy : forall dst src n clk ram m,
  iap_rom [IAP_RAM_TO_FLASH; dst; src; n; clk] ram m
  = (IAP_CMD_SUCCESS, mem_write m dst ram n).
Hypothesis rom_compare : forall dst src n ram m,
  list_Z_eqb (mem_read m dst n) (firstn (Z.to_nat n) ram) = true ->
  iap_rom [IAP_COMPARE; dst; src; n] ram m = (IAP_CMD_SUCCESS, m).
Hypothesis palgos_intflash :
  palgos_of ALGO_INTFLASH
  = intflash_palgos sprintf iap_rom IAP_CMD_SUCCESS SystemCoreClock oob
                    dfuProgBuff_addr.

Lemma dfu_wr_program_command pOutHdr pBuff length s d :
  currStatus s <> DFU_OPSTS_PROG_STREAM ->
  length <> 0 ->
  hdr_hostCmd pOutHdr = DFU_HOSTCMD_PROGRAM ->
  dfu_wr sprintf pOutHdr pBuff length s d
  = (mkPBuff BUF_dfuProgBuff 0,
     set_outPktSizeIdx
       (usbDFUProgRegion (hdr_addr pOutHdr) (hdr_size pOutHdr)
          (set_outPktSizeIdx s (u32 (outPktSizeIdx s + length)))) 0,
     snd (checkMagicHeader sprintf pOutHdr d)).
Proof.
  intros Hst Hlen Hcmd. unfold dfu_wr.
  destruct (length =? 0) eqn:El; [apply Z.eqb_eq in El; contradiction|].
  cbn [negb currStatus set_outPktSizeIdx]. rewrite Hcmd.
  destruct (currStatus s) eqn:Es; try contradiction; reflexivity.
Qed.

(** A PROGRAM command for at most one page of a FLASH bank, the bytes of
    that page arriving in one packet, and one pass of the background loop:
    the command points the USB stack at the program buffer, the data packet
    moves the state to [DFU_OPSTS_PROG], and the pass programs the page and
    goes back to idle.  The page then reads as the bytes sent followed by
    0xFF, and no address outside the page has changed. *)
Theorem program_one_page (pOutHdr data_hdr : DFU_FROMHOST_PACKETHDR_T)
    (pBuff : PBuff) (length : Z) (s : Session) (d : Dev)
    (bank off n k : Z) (data : list Z) :
  currStatus s <> DFU_OPSTS_PROG_STREAM ->
  length <> 0 ->
  hdr_hostCmd pOutHdr = DFU_HOSTCMD_PROGRAM ->
  hdr_addr pOutHdr = bank_base bank + off ->
  hdr_size pOutHdr = n ->
  bank = 0 \/ bank = 1 ->
  0 <= off -> off mod 512 = 0 -> off + 512 <= 524288 ->
  0 < n <= 512 ->
  (512 <= List.length data)%nat ->
  first_cover (dfuRegionList d) k (bank_base bank + off) n ->
  pprogalgos (region_at (dfuRegionList d) k) = ALGO_INTFLASH ->
  let r1 := dfu_wr sprintf pOutHdr pBuff length s d in
  let s1 := set_dfuProgBuff (snd (fst r1)) data in
  let r2 := dfu_wr sprintf data_hdr (fst (fst r1)) n s1 (snd r1) in
  let o := dfu_util_process_step sprintf null_region_addr palgos_of
             (snd (fst r2)) (snd r2) in
  fst (fst r1) = mkPBuff BUF_dfuProgBuff 0
  /\ currStatus (snd (fst r1)) = DFU_OPSTS_PROG_STREAM
  /\ currStatus (snd (fst r2)) = DFU_OPSTS_PROG
  /\ continues o = true
  /\ currStatus (outcome_session o s) = DFU_OPSTS_IDLE
  /\ mem_read (mem (outcome_dev o)) (bank_base bank + off) 512
     = firstn (Z.to_nat n) data ++ repeat 255 (Z.to_nat (512 - n))
  /\ (forall a, a < bank_base bank + off \/ bank_base bank + off + 512 <= a ->
        mem (outcome_dev o) a = mem d a).
Proof.
  intros Hst Hlen Hcmd Haddr Hsize Hbank Ho Hm Hfit Hn Hdata Hc Halg
         r1 s1 r2 o.
  assert (E1 : r1 = (mkPBuff BUF_dfuProgBuff 0,
                     set_outPktSizeIdx
                       (usbDFUProgRegion (bank_base bank + off) n
                          (set_outPktSizeIdx s
                             (u32 (outPktSizeIdx s + length)))) 0,
                     snd (checkMagicHeader sprintf pOutHdr d))).
  { unfold r1. rewrite dfu_wr_program_command by assumption.
    now rewrite Haddr, Hsize. }
  destruct (checkMagicHeader_hw sprintf pOutHdr d) as (R1 & M1 & L1).
  set (d1 := snd (checkMagicHeader sprintf pOutHdr d)) in *.
  assert (Hu : u32 n = n) by (apply u32_small; lia).
  assert (E2 : r2 = (mkPBuff BUF_dfuIn 0,
                     mkSession (currentRegion s) (buffer_size s)
                       (currRegionData s)
                       DFU_OPSTS_PROG DFU_HOSTCMD_PROGRAM
                       (bank_base bank + off) 0 (dfuOut s) data
                       (inPktSize s) (inPktSizeIdx s) 0 n
                       (dfu_done_algo s) (dfu_detach_algo s),
                     d1)).
  { unfold r2, s1. rewrite E1. cbn [fst snd].
    unfold dfu_wr.
    destruct (Z.eqb_spec n 0) as [Hz|_]; [lia|].
    cbn [negb usbDFUProgRegion set_outPktSizeIdx set_currCmdSize
         set_currCmdAddr set_hostCmd set_currStatus set_dfuProgBuff
         set_progSize currStatus outPktSizeIdx buffer_size currCmdSize
         currentRegion currRegionData hostCmd currCmdAddr dfuOut dfuProgBuff
         inPktSize inPktSizeIdx progSize dfu_done_algo dfu_detach_algo].
    rewrite Z.add_0_l, Hu, Z.eqb_refl, orb_true_r, Z.sub_diag.
    reflexivity. }
  subst o. rewrite E1, E2. clear E1 E2. clearbody r1 r2.
  cbn [fst snd usbDFUProgRegion set_outPktSizeIdx set_currCmdSize
       set_currCmdAddr set_hostCmd set_currStatus currStatus].
  split; [reflexivity|]. split; [reflexivity|]. split; [reflexivity|].
  (* the pass of the background loop *)
  assert (Hc1 : first_cover (dfuRegionList d1) k (bank_base bank + off) n)
    by (now rewrite R1).
  pose proof (algo_root_isRegionValid_slot sprintf k (bank_base bank + off) n
                d1 Hc1) as Elook.
  assert (Ew : algo_root_write sprintf palgos_of data (bank_base bank + off)
                 n d1
               = progalgo_intflash_write sprintf iap_rom IAP_CMD_SUCCESS
                   SystemCoreClock oob dfuProgBuff_addr data
                   (bank_base bank + off) n d1).
  { unfold algo_root_write, bind. rewrite Elook.
    destruct Hc as ((Hk & _) & _).
    destruct (Z.ltb_spec k 0); [lia|].
    now rewrite R1, Halg, palgos_intflash. }
  destruct (progalgo_intflash_write_run sprintf iap_rom IAP_CMD_SUCCESS
              SystemCoreClock oob dfuProgBuff_addr rom_prep rom_copy
              rom_compare bank off n data d1 Hbank Ho Hm Hfit ltac:(lia)
              Hdata) as (W1 & _ & W3 & W4 & _).
  rewrite <- Ew in W1, W3, W4.
  unfold dfu_util_process_step.
  cbn [currStatus progSize dfuProgBuff currCmdAddr].
  destruct (Z.eqb_spec n 0) as [Hz|_]; [lia|].
  destruct (algo_root_write sprintf palgos_of data (bank_base bank + off) n
              d1) as [[wn wbuf] dw].
  cbn [fst snd] in W1, W3, W4. subst wn.
  cbn [fst snd set_dfuProgBuff progSize buffer_size currCmdSize].
  rewrite Hu, Z.eqb_refl. cbn [negb].
  rewrite Z.eqb_refl, orb_true_r.
  cbn [continues outcome_session outcome_dev set_currStatus currStatus].
  split; [reflexivity|]. split; [reflexivity|]. split; [exact W3|].
  intros a Ha. rewrite (W4 a Ha). now rewrite M1.
Qed.

End ProgramPageFacts.

(** On the board: a PROGRAM command for three bytes at 0x1A000200. *)
Lemma program_one_page_witness :
  let data := [1; 2; 3] ++ repeat 0 4093 in
  let d := mcb1857_dev 0 in
  let r1 := dfu_wr sprintf_fmt program_page_hdr (mkPBuff BUF_dfuIn 0) 16
              flash_idle_session d in
  let s1 := set_dfuProgBuff (snd (fst r1)) data in
  let r2 := dfu_wr sprintf_fmt program_page_hdr (fst (fst r1)) 3 s1 (snd r1) in
  let o := dfu_util_process_step sprintf_fmt 0 lpc_palgos_of
             (snd (fst r2)) (snd r2) in
  fst (fst r1) = mkPBuff BUF_dfuProgBuff 0
  /\ currStatus (snd (fst r1)) = DFU_OPSTS_PROG_STREAM
  /\ currStatus (snd (fst r2)) = DFU_OPSTS_PROG
  /\ continues o = true
  /\ currStatus (outcome_session o flash_idle_session) = DFU_OPSTS_IDLE
  /\ mem_read (mem (outcome_dev o)) (bank_base 0 + 512) 512
     = firstn (Z.to_nat 3) data ++ repeat 255 (Z.to_nat (512 - 3))
  /\ (forall a, a < bank_base 0 + 512 \/ bank_base 0 + 512 + 512 <= a ->
        mem (outcome_dev o) a = mem d a).
Proof.
  apply (program_one_page sprintf_fmt lpc_iap_rom 0 180000000 zero_region
           268435456 0 lpc_palgos_of) with (k := 0).
  - reflexivity.
  - reflexivity.
  - intros dst src n ram m H. unfold lpc_iap_rom.
    change (znth [IAP_COMPARE; dst; src; n] 0 0) with IAP_COMPARE.
    change (znth [IAP_COMPARE; dst; src; n] 1 0) with dst.
    change (znth [IAP_COMPARE; dst; src; n] 3 0) with n.
    cbv zeta. change (IAP_COMPARE =? IAP_RAM_TO_FLASH) with false.
    change (IAP_COMPARE =? IAP_COMPARE) with true. cbv iota.
    rewrite H. reflexivity.
  - reflexivity.
  - discriminate.
  - discriminate.
  - reflexivity.
  - reflexivity.
  - reflexivity.
  - left. reflexivity.
  - lia.
  - reflexivity.
  - lia.
  - lia.
  - vm_compute. lia.
  - split; [vm_compute; split; [discriminate|reflexivity]|].
    split; [reflexivity|]. intros j Hj. lia.
  - reflexivity.
Defined.

(** ** The alternate SPIFI window *)

Lemma lor_disjoint_add a q :
  0 <= a < 16777216 -> 0 <= q ->
  Z.lor a (q * 16777216) = q * 16777216 + a.
Proof.
  intros Ha Hq.
  assert (Hl : Z.land a (q * 16777216) = 0).
  { apply Z.bits_inj'. intros n Hn. rewrite Z.land_spec, Z.bits_0.
    destruct (Z.lt_ge_cases n 24) as [Hlt|Hge].
    - change 16777216 with (2 ^ 24).
      rewrite (Z.mul_pow2_bits_low q 24 n) by lia. apply andb_false_r.
    - replace a with (a mod 2 ^ 24)
        by (change (2 ^ 24) with 16777216; apply Z.mod_small; lia).
      rewrite Z.mod_pow2_bits_high by lia. reflexivity. }
  rewrite <- Z.lxor_lor by exact Hl.
  rewrite <- Z.add_nocarry_lxor by exact Hl. lia.
Qed.

(** With a device found, [progalgo_spiflash_chk_alt] keeps the low 24 bits
    of an address and puts them into the window at 0x14000000: both windows
    land there, and so does every offset of 16 MB or more, folded back onto
    the first 16 MB of the device. *)
Theorem progalgo_spiflash_chk_alt_folds (addr : Z) :
  0 <= addr < 4294967296 ->
  progalgo_spiflash_chk_alt SPIFLASH_BASE_ADDRESS addr
  = SPIFLASH_BASE_ADDRESS + addr mod 16777216
  /\ progalgo_spiflash_chk_alt SPIFLASH_BASE_ADDRESS
       (progalgo_spiflash_chk_alt SPIFLASH_BASE_ADDRESS addr)
     = progalgo_spiflash_chk_alt SPIFLASH_BASE_ADDRESS addr.
Proof.
  intros Ha.
  assert (H : forall x, 0 <= x ->
            progalgo_spiflash_chk_alt SPIFLASH_BASE_ADDRESS x
            = SPIFLASH_BASE_ADDRESS + x mod 16777216).
  { intros x Hx. unfold progalgo_spiflash_chk_alt.
    change (u32 (Z.lnot 4278190080)) with (Z.ones 24).
    rewrite Z.land_ones by lia. change (2 ^ 24) with 16777216.
    change SPIFLASH_BASE_ADDRESS with (20 * 16777216).
    apply lor_disjoint_add; [apply Z.mod_pos_bound|]; lia. }
  split; [apply H; lia|].
  rewrite (H addr) by lia.
  pose proof (Z.mod_pos_bound addr 16777216 ltac:(lia)) as Hb.
  rewrite H by (unfold SPIFLASH_BASE_ADDRESS; lia).
  f_equal.
  change SPIFLASH_BASE_ADDRESS with (20 * 16777216).
  rewrite Z.add_comm, Z.mod_add by lia.
  apply Z.mod_mod. lia.
Qed.

Lemma progalgo_spiflash_chk_alt_folds_witness :
  progalgo_spiflash_chk_alt SPIFLASH_BASE_ADDRESS 352321540
  = SPIFLASH_BASE_ADDRESS + 352321540 mod 16777216
  /\ progalgo_spiflash_chk_alt SPIFLASH_BASE_ADDRESS
       (progalgo_spiflash_chk_alt SPIFLASH_BASE_ADDRESS 352321540)
     = progalgo_spiflash_chk_alt SPIFLASH_BASE_ADDRESS 352321540.
Proof.
  apply (progalgo_spiflash_chk_alt_folds 352321540). lia.
Defined.
